(** * ESP32 heart-rate monitor: the per-device pipeline of [gui.py]

    A shallow embedding of class [ESP32Device] (connection life cycle, frame
    parsing, admission, smoothing, rolling metrics) together with the
    properties of its specification.

    Modelling conventions.
    - Python [str] is [string]: the text held by its UTF-8 encoding, which
      is what [decode('utf-8')] was given.  The separators of the source
      (comma, colon, line feed) are single bytes that no longer sequence
      holds, so [split] and [in] work on bytes; [strip] and [int] work on
      the characters.  The decimal digits are those of Unicode 14.0, the
      version of CPython 3.11.
    - Python [int] is [Z].  [None] is [None] of an [option].
    - A numpy float obtained by rational operations is an exact [Q]; the two
      square roots ([np.std], [np.sqrt]) are taken in [R].  Rounding of
      float64 is thereby abstracted; on the admitted ranges the truncations
      [int(...)] of the source agree with the exact ones.
    - A method is a computation [M A]: it receives the device, returns the
      changed device and either a value or a raised exception.  What
      [print] writes is not part of the device and is left out.
    - The clock and the Bluetooth stack are inputs of the calls that use
      them. *)

From Stdlib Require Import ZArith QArith Qabs Reals Qreals Lia Lra.
From Stdlib Require Import List Ascii String.
From stdpp Require Import base option list sorting gmap strings.
Import ListNotations.

#[local] Open Scope string_scope.
#[local] Open Scope list_scope.
#[local] Open Scope Z_scope.

(** ** Unicode text held as UTF-8 *)

Module Utf8.

Definition byte (c : ascii) : N := N_of_ascii c.

(** A continuation byte [10xxxxxx] at the head of a text: its six bits and
    the text after it. *)
Definition continuation (s : string) : option (N * string) :=
  match s with
  | String c r =>
      if ((128 <=? byte c) && (byte c <? 192))%N
      then Some ((byte c - 128)%N, r) else None
  | EmptyString => None
  end.

(** The well-formed sequence that starts with the byte [c0] followed by
    [r0]: its code point and its number of bytes.  Overlong forms,
    surrogates and code points beyond U+10FFFF are not well formed. *)
Definition sequence (c0 : ascii) (r0 : string) : option (N * nat) :=
  let b0 := byte c0 in
  if (b0 <? 128)%N then Some (b0, 1%nat)
  else
    match continuation r0 with
    | None => None
    | Some (x1, r1) =>
        if (b0 <? 192)%N then None
        else if (b0 <? 224)%N then
          let cp := ((b0 - 192) * 64 + x1)%N in
          if (128 <=? cp)%N then Some (cp, 2%nat) else None
        else
          match continuation r1 with
          | None => None
          | Some (x2, r2) =>
              if (b0 <? 240)%N then
                let cp := (((b0 - 224) * 64 + x1) * 64 + x2)%N in
                if ((2048 <=? cp) && negb ((55296 <=? cp) && (cp <? 57344)))%N
                then Some (cp, 3%nat) else None
              else
                match continuation r2 with
                | None => None
                | Some (x3, _) =>
                    let cp := ((((b0 - 240) * 64 + x1) * 64 + x2) * 64 + x3)%N in
                    if ((b0 <? 248) && (65536 <=? cp) && (cp <? 1114112))%N
                    then Some (cp, 4%nat) else None
                end
          end
    end.

(** The characters of a text, each with its code point and its bytes;
    [skip] bytes belong to the character before.  A byte that starts no
    well-formed sequence, which the encoding of a Python text never holds,
    counts as a character of its own beyond U+10FFFF. *)
Fixpoint chars_from (skip : nat) (s : string) : list (N * string) :=
  match s with
  | EmptyString => []
  | String c r =>
      match skip with
      | S k => chars_from k r
      | O =>
          match sequence c r with
          | Some (cp, n) => (cp, substring 0 n s) :: chars_from (n - 1) r
          | None => ((1114112 + byte c)%N, String c EmptyString) :: chars_from 0 r
          end
      end
  end.

Definition chars (s : string) : list (N * string) := chars_from 0 s.

(** The text of a list of characters. *)
Definition text (cs : list (N * string)) : string :=
  fold_right (fun ch s => String.append (snd ch) s) EmptyString cs.

End Utf8.

(** ** Python text primitives *)

Module Py.

(** [str.isspace] on one character, by code point: TAB, LF, VT, FF, CR, FS,
    GS, RS, US, space, NEL, the no-break space and the spaces of the
    higher planes.  This is the whitespace [str.strip] removes. *)
Definition is_space (cp : N) : bool :=
  ((9 <=? cp) && (cp <=? 13) || (28 <=? cp) && (cp <=? 32)
   || (cp =? 133) || (cp =? 160) || (cp =? 5760)
   || (8192 <=? cp) && (cp <=? 8202)
   || (cp =? 8232) || (cp =? 8233) || (cp =? 8239) || (cp =? 8287)
   || (cp =? 12288))%N.

Fixpoint lstrip (cs : list (N * string)) : list (N * string) :=
  match cs with
  | ch :: r => if is_space (fst ch) then lstrip r else cs
  | [] => []
  end.

Fixpoint rstrip (cs : list (N * string)) : list (N * string) :=
  match cs with
  | ch :: r =>
      match rstrip r with
      | [] => if is_space (fst ch) then [] else [ch]
      | r' => ch :: r'
      end
  | [] => []
  end.

(** [s.strip()] *)
Definition strip (s : string) : string :=
  Utf8.text (rstrip (lstrip (Utf8.chars s))).

(** [s.split(sep)] for a one-character separator: never an empty list. *)
Fixpoint split (sep : ascii) (s : string) : list string :=
  match s with
  | EmptyString => [EmptyString]
  | String c r =>
      if Ascii.eqb c sep then EmptyString :: split sep r
      else match split sep r with
           | w :: ws => String c w :: ws
           | [] => [String c EmptyString]
           end
  end.

(** [sep in s] *)
Fixpoint contains (sep : ascii) (s : string) : bool :=
  match s with
  | EmptyString => false
  | String c r => Ascii.eqb c sep || contains sep r
  end.

(** [s.split(sep, 1)] when [sep in s]: the text before the first
    separator and the text after it. *)
Fixpoint split1 (sep : ascii) (s : string) : string * string :=
  match s with
  | EmptyString => (EmptyString, EmptyString)
  | String c r =>
      if Ascii.eqb c sep then (EmptyString, r)
      else let '(k, v) := split1 sep r in (String c k, v)
  end.

(** The code points of the digit zero of each script: a decimal digit of
    Unicode is one of the ten characters from such a zero on. *)
Definition decimal_zeros : list N :=
  [48; 1632; 1776; 1984; 2406; 2534; 2662; 2790; 2918; 3046; 3174; 3302;
   3430; 3558; 3664; 3792; 3872; 4160; 4240; 6112; 6160; 6470; 6608; 6784;
   6800; 6992; 7088; 7232; 7248; 42528; 43216; 43264; 43472; 43504; 43600;
   44016; 65296; 66720; 68912; 69734; 69872; 69942; 70096; 70384; 70736;
   70864; 71248; 71360; 71472; 71904; 72016; 72784; 73040; 73120; 92768;
   92864; 93008; 120782; 120792; 120802; 120812; 120822; 123200; 123632;
   125264; 130032]%N.

(** [Py_UNICODE_TODECIMAL]: the value of a decimal digit. *)
Definition decimal (cp : N) : option N :=
  match find (fun zero => ((zero <=? cp) && (cp <? zero + 10))%N) decimal_zeros with
  | Some zero => Some (cp - zero)%N
  | None => None
  end.

(** What [int] makes of one character before it reads the literal: a
    character below 127 stays, any other whitespace becomes a space, any
    other decimal digit its ASCII digit; nothing else is accepted. *)
Definition to_ascii (cp : N) : option ascii :=
  if (cp <? 127)%N then Some (ascii_of_N cp)
  else if is_space cp then Some " "%char
  else match decimal cp with
       | Some d => Some (ascii_of_N (48 + d))
       | None => None
       end.

Fixpoint transform (cs : list (N * string)) : option string :=
  match cs with
  | [] => Some EmptyString
  | ch :: r =>
      match to_ascii (fst ch), transform r with
      | Some c, Some t => Some (String c t)
      | _, _ => None
      end
  end.

(** [Py_ISSPACE]: the whitespace [int] skips around the literal once the
    text is ASCII (TAB, LF, VT, FF, CR, space). *)
Definition is_c_space (c : ascii) : bool :=
  let n := nat_of_ascii c in
  ((9 <=? n)%nat && (n <=? 13)%nat) || (n =? 32)%nat.

Fixpoint skip_spaces (s : string) : string :=
  match s with
  | String c r => if is_c_space c then skip_spaces r else s
  | EmptyString => EmptyString
  end.

Fixpoint drop_trailing_spaces (s : string) : string :=
  match s with
  | String c r =>
      match drop_trailing_spaces r with
      | EmptyString => if is_c_space c then EmptyString else String c EmptyString
      | r' => String c r'
      end
  | EmptyString => EmptyString
  end.

(** The value of an ASCII digit. *)
Definition digit_value (c : ascii) : option Z :=
  let n := nat_of_ascii c in
  if ((48 <=? n)%nat && (n <=? 57)%nat)%bool
  then Some (Z.of_nat n - 48) else None.

(** CPython refuses a decimal literal of more than this many digits
    ([sys.int_info.default_max_str_digits]) with a [ValueError]. *)
Definition max_str_digits : nat := 4300.

(** The digits of a literal, with single underscores allowed between
    digits.  [prev_us] says that the previous character was an underscore
    (or that no character was read yet): an underscore may then not
    follow and the literal may not end.  Returns the value and the number
    of digits. *)
Fixpoint int_digits (s : string) (prev_us : bool) (count : nat) (acc : Z)
  : option (Z * nat) :=
  match s with
  | EmptyString => if prev_us then None else Some (acc, count)
  | String c r =>
      if Ascii.eqb c "_" then
        if prev_us then None else int_digits r true count acc
      else
        match digit_value c with
        | Some d => int_digits r false (S count) (10 * acc + d)
        | None => None
        end
  end.

(** [int(s)] for a string: the characters brought to ASCII, then
    surrounding whitespace, an optional sign and decimal digits.  [None]
    stands for the [ValueError] it raises. *)
Definition int (s : string) : option Z :=
  match transform (Utf8.chars s) with
  | None => None
  | Some literal =>
      let body := drop_trailing_spaces (skip_spaces literal) in
      let '(neg, ds) :=
        match body with
        | String "-" r => (true, r)
        | String "+" r => (false, r)
        | _ => (false, body)
        end in
      match int_digits ds true 0%nat 0 with
      | Some (n, count) =>
          if (count <=? max_str_digits)%nat
          then Some (if neg then - n else n) else None
      | None => None
      end
  end.

(** [bool(n)] for an integer *)
Definition bool_of_int (n : Z) : bool := negb (Z.eqb n 0).

End Py.

(** ** numpy on small integer arrays *)

Module Np.

(** [np.sort]: the array in ascending order. *)
Definition sort (a : list Z) : list Z := merge_sort Z.le a.

Definition sumQ (l : list Q) : Q := fold_right Qplus (0#1) l.

(** The mean of float values: their sum divided by their number. *)
Definition meanQ (l : list Q) : Q := (sumQ l / inject_Z (Z.of_nat (length l)))%Q.

(** [np.mean] of an integer array: a float. *)
Definition mean (a : list Z) : Q := meanQ (map inject_Z a).

(** [np.median]: the middle of the sorted array, or the mean of the two
    middle elements when their number is even. *)
Definition median (a : list Z) : Q :=
  let s := sort a in
  let n := length a in
  if Nat.even n
  then mean [List.nth (n / 2 - 1) s 0; List.nth (n / 2) s 0]
  else mean [List.nth (n / 2) s 0].

(** [np.diff]: [a[i+1] - a[i]]. *)
Fixpoint diff (a : list Z) : list Z :=
  match a with
  | x :: (y :: _) as r => (y - x) :: diff r
  | _ => []
  end.

(** [a ** 2] on an integer array *)
Definition square (a : list Z) : list Z := map (fun x => x * x) a.

(** The variance numpy computes with [ddof = 0]: the mean of the squared
    deviations [x = arr - arr.mean(); x = x * x]. *)
Definition var (a : list Z) : Q :=
  let arrmean := mean a in
  meanQ (map (fun x => let dev := (inject_Z x - arrmean)%Q in (dev * dev)%Q) a).

(** [np.sqrt] of a float *)
Definition sqrt (q : Q) : R := R_sqrt.sqrt (Q2R q).

(** [np.std] (default [ddof = 0]) *)
Definition std (a : list Z) : R := sqrt (var a).

End Np.

(** [int(x)] for a float: truncation toward zero. *)
Definition int_of_float (q : Q) : Z := Z.quot (Qnum q) (Zpos (Qden q)).

(** ** [collections.deque(maxlen=n)] *)

(** [q.append(x)]: the oldest element leaves once the bound is passed. *)
Definition deque_append {A : Type} (maxlen : nat) (q : list A) (x : A) : list A :=
  let q' := q ++ [x] in
  if (maxlen <? length q')%nat then tl q' else q'.

(** ** The device *)

(** A Bluetooth socket object, known to the device by reference only. *)
Inductive BluetoothSocket : Type := Socket (fd : nat).

(** [self.latest_data] *)
Record LatestData : Type := mkLatestData {
  hr : option Z;
  hr_valid : bool;
  spo2 : option Z;
  spo2_valid : bool;
  ir_avg : option Z;
  ir_range : option Z;
  timestamp : option Z;
  local_time : option Z;
  status : string
}.

(** [self.metrics] *)
Record Metrics : Type := mkMetrics {
  bpm : option Q;
  ipm : option Q;
  hrstd : option R;
  rmssd : option R;
  avg_spo2 : option Z
}.

Record ESP32Device : Type := mkDevice {
  device_id : Z;
  name : string;
  mac_address : option string;
  sock : option BluetoothSocket;
  connected : bool;
  latest_data : LatestData;
  hr_history : list Z;
  timestamp_history : list Z;
  hr_smoothing_buffer : list Z;
  spo2_smoothing_buffer : list Z;
  smoothed_hr : option Z;
  smoothed_spo2 : option Z;
  metrics : Metrics
}.

(** [ESP32Device.__init__] *)
Definition init (device_id : Z) (name : string) (mac_address : option string)
  : ESP32Device :=
  {| device_id := device_id;
     name := name;
     mac_address := mac_address;
     sock := None;
     connected := false;
     latest_data :=
       {| hr := None; hr_valid := false; spo2 := None; spo2_valid := false;
          ir_avg := None; ir_range := None; timestamp := None;
          local_time := None; status := "disconnected" |};
     hr_history := [];
     timestamp_history := [];
     hr_smoothing_buffer := [];
     spo2_smoothing_buffer := [];
     smoothed_hr := None;
     smoothed_spo2 := None;
     metrics :=
       {| bpm := None; ipm := None; hrstd := None; rmssd := None;
          avg_spo2 := None |} |}.

Definition hr_history_maxlen : nat := 300.
Definition smoothing_maxlen : nat := 5.

(** Assignments to one key of [latest_data] or [metrics], or to one
    attribute of the device. *)
Definition set_hr (v : option Z) (l : LatestData) : LatestData :=
  mkLatestData v (hr_valid l) (spo2 l) (spo2_valid l) (ir_avg l) (ir_range l)
    (timestamp l) (local_time l) (status l).
Definition set_hr_valid (b : bool) (l : LatestData) : LatestData :=
  mkLatestData (hr l) b (spo2 l) (spo2_valid l) (ir_avg l) (ir_range l)
    (timestamp l) (local_time l) (status l).
Definition set_spo2 (v : option Z) (l : LatestData) : LatestData :=
  mkLatestData (hr l) (hr_valid l) v (spo2_valid l) (ir_avg l) (ir_range l)
    (timestamp l) (local_time l) (status l).
Definition set_spo2_valid (b : bool) (l : LatestData) : LatestData :=
  mkLatestData (hr l) (hr_valid l) (spo2 l) b (ir_avg l) (ir_range l)
    (timestamp l) (local_time l) (status l).
Definition set_ir_avg (v : option Z) (l : LatestData) : LatestData :=
  mkLatestData (hr l) (hr_valid l) (spo2 l) (spo2_valid l) v (ir_range l)
    (timestamp l) (local_time l) (status l).
Definition set_ir_range (v : option Z) (l : LatestData) : LatestData :=
  mkLatestData (hr l) (hr_valid l) (spo2 l) (spo2_valid l) (ir_avg l) v
    (timestamp l) (local_time l) (status l).
Definition set_timestamp (v : option Z) (l : LatestData) : LatestData :=
  mkLatestData (hr l) (hr_valid l) (spo2 l) (spo2_valid l) (ir_avg l)
    (ir_range l) v (local_time l) (status l).
Definition set_local_time (v : option Z) (l : LatestData) : LatestData :=
  mkLatestData (hr l) (hr_valid l) (spo2 l) (spo2_valid l) (ir_avg l)
    (ir_range l) (timestamp l) v (status l).
Definition set_status (v : string) (l : LatestData) : LatestData :=
  mkLatestData (hr l) (hr_valid l) (spo2 l) (spo2_valid l) (ir_avg l)
    (ir_range l) (timestamp l) (local_time l) v.

Definition set_bpm (v : option Q) (m : Metrics) : Metrics :=
  mkMetrics v (ipm m) (hrstd m) (rmssd m) (avg_spo2 m).
Definition set_ipm (v : option Q) (m : Metrics) : Metrics :=
  mkMetrics (bpm m) v (hrstd m) (rmssd m) (avg_spo2 m).
Definition set_hrstd (v : option R) (m : Metrics) : Metrics :=
  mkMetrics (bpm m) (ipm m) v (rmssd m) (avg_spo2 m).
Definition set_rmssd (v : option R) (m : Metrics) : Metrics :=
  mkMetrics (bpm m) (ipm m) (hrstd m) v (avg_spo2 m).
Definition set_avg_spo2 (v : option Z) (m : Metrics) : Metrics :=
  mkMetrics (bpm m) (ipm m) (hrstd m) (rmssd m) v.

Definition set_sock (v : option BluetoothSocket) (d : ESP32Device) : ESP32Device :=
  mkDevice (device_id d) (name d) (mac_address d) v (connected d)
    (latest_data d) (hr_history d) (timestamp_history d)
    (hr_smoothing_buffer d) (spo2_smoothing_buffer d) (smoothed_hr d)
    (smoothed_spo2 d) (metrics d).
Definition set_connected (v : bool) (d : ESP32Device) : ESP32Device :=
  mkDevice (device_id d) (name d) (mac_address d) (sock d) v
    (latest_data d) (hr_history d) (timestamp_history d)
    (hr_smoothing_buffer d) (spo2_smoothing_buffer d) (smoothed_hr d)
    (smoothed_spo2 d) (metrics d).
Definition set_latest_data (v : LatestData) (d : ESP32Device) : ESP32Device :=
  mkDevice (device_id d) (name d) (mac_address d) (sock d) (connected d)
    v (hr_history d) (timestamp_history d)
    (hr_smoothing_buffer d) (spo2_smoothing_buffer d) (smoothed_hr d)
    (smoothed_spo2 d) (metrics d).
Definition set_hr_history (v : list Z) (d : ESP32Device) : ESP32Device :=
  mkDevice (device_id d) (name d) (mac_address d) (sock d) (connected d)
    (latest_data d) v (timestamp_history d)
    (hr_smoothing_buffer d) (spo2_smoothing_buffer d) (smoothed_hr d)
    (smoothed_spo2 d) (metrics d).
Definition set_timestamp_history (v : list Z) (d : ESP32Device) : ESP32Device :=
  mkDevice (device_id d) (name d) (mac_address d) (sock d) (connected d)
    (latest_data d) (hr_history d) v
    (hr_smoothing_buffer d) (spo2_smoothing_buffer d) (smoothed_hr d)
    (smoothed_spo2 d) (metrics d).
Definition set_hr_smoothing_buffer (v : list Z) (d : ESP32Device) : ESP32Device :=
  mkDevice (device_id d) (name d) (mac_address d) (sock d) (connected d)
    (latest_data d) (hr_history d) (timestamp_history d)
    v (spo2_smoothing_buffer d) (smoothed_hr d)
    (smoothed_spo2 d) (metrics d).
Definition set_spo2_smoothing_buffer (v : list Z) (d : ESP32Device) : ESP32Device :=
  mkDevice (device_id d) (name d) (mac_address d) (sock d) (connected d)
    (latest_data d) (hr_history d) (timestamp_history d)
    (hr_smoothing_buffer d) v (smoothed_hr d)
    (smoothed_spo2 d) (metrics d).
Definition set_smoothed_hr (v : option Z) (d : ESP32Device) : ESP32Device :=
  mkDevice (device_id d) (name d) (mac_address d) (sock d) (connected d)
    (latest_data d) (hr_history d) (timestamp_history d)
    (hr_smoothing_buffer d) (spo2_smoothing_buffer d) v
    (smoothed_spo2 d) (metrics d).
Definition set_smoothed_spo2 (v : option Z) (d : ESP32Device) : ESP32Device :=
  mkDevice (device_id d) (name d) (mac_address d) (sock d) (connected d)
    (latest_data d) (hr_history d) (timestamp_history d)
    (hr_smoothing_buffer d) (spo2_smoothing_buffer d) (smoothed_hr d)
    v (metrics d).
Definition set_metrics (v : Metrics) (d : ESP32Device) : ESP32Device :=
  mkDevice (device_id d) (name d) (mac_address d) (sock d) (connected d)
    (latest_data d) (hr_history d) (timestamp_history d)
    (hr_smoothing_buffer d) (spo2_smoothing_buffer d) (smoothed_hr d)
    (smoothed_spo2 d) v.

(** ** Methods as computations on the device *)

(** How a call ends: it returns a value, or an exception leaves it. *)
Inductive outcome (A : Type) : Type :=
| Ret (a : A)
| Raise.
Arguments Ret {A} a.
Arguments Raise {A}.

Definition M (A : Type) : Type := ESP32Device -> outcome A * ESP32Device.

Definition ret {A : Type} (a : A) : M A := fun d => (Ret a, d).

Definition bind {A B : Type} (m : M A) (k : A -> M B) : M B :=
  fun d =>
    match m d with
    | (Ret a, d') => k a d'
    | (Raise, d') => (Raise, d')
    end.

Definition raise {A : Type} : M A := fun d => (Raise, d).

(** [try: body except Exception: handler].  What the body changed before
    it raised stays changed. *)
Definition try_except {A : Type} (body handler : M A) : M A :=
  fun d =>
    match body d with
    | (Ret a, d') => (Ret a, d')
    | (Raise, d') => handler d'
    end.

Definition get : M ESP32Device := fun d => (Ret d, d).

Definition modify (f : ESP32Device -> ESP32Device) : M unit :=
  fun d => (Ret tt, f d).

Declare Scope py_scope.
Delimit Scope py_scope with py.
Notation "x <- c ;; k" := (bind c (fun x => k))
  (at level 100, c at next level, right associativity) : py_scope.
Notation "c ;; k" := (bind c (fun _ => k))
  (at level 100, right associativity) : py_scope.

(** [self.latest_data[key] = v] *)
Definition assign_latest (f : LatestData -> LatestData) : M unit :=
  modify (fun d => set_latest_data (f (latest_data d)) d).

(** ** Connection life cycle *)

(** What the Bluetooth stack answers during one call: the socket the
    constructor builds ([None] when it raises), whether [connect] and
    [close] go through. *)
Record Bluetooth : Type := mkBluetooth {
  new_socket : option BluetoothSocket;
  connect_ok : bool;
  close_ok : bool
}.

Definition BluetoothSocket_new (bt : Bluetooth) : M BluetoothSocket :=
  match new_socket bt with
  | Some s => ret s
  | None => raise
  end.

Definition sock_connect (bt : Bluetooth) : M unit :=
  if connect_ok bt then ret tt else raise.

Definition sock_close (bt : Bluetooth) : M unit :=
  if close_ok bt then ret tt else raise.

(** [ESP32Device.connect]: without a MAC address it returns [False] at
    once; otherwise whatever the socket raises is caught. *)
Definition connect (bt : Bluetooth) : M bool :=
  (d <- get ;;
   match mac_address d with
   | None => ret false
   | Some _ =>
       try_except
         (s <- BluetoothSocket_new bt ;;
          modify (set_sock (Some s)) ;;
          sock_connect bt ;;
          modify (set_connected true) ;;
          assign_latest (set_status "connected") ;;
          ret true)
         (modify (set_connected false) ;;
          assign_latest (set_status "error") ;;
          ret false)
   end)%py.

(** [ESP32Device.disconnect]: [if self.sock] holds once a socket object was
    stored; the bare [except] swallows what [close] raises. *)
Definition disconnect (bt : Bluetooth) : M unit :=
  (d <- get ;;
   match sock d with
   | Some _ => try_except (sock_close bt) (ret tt)
   | None => ret tt
   end ;;
   modify (set_connected false) ;;
   assign_latest (set_status "disconnected"))%py.

(** ** Smoothing and metrics *)

(** [ESP32Device.calculate_smoothed_values] *)
Definition calculate_smoothed_values (d : ESP32Device) : ESP32Device :=
  let d1 :=
    if (3 <=? length (hr_smoothing_buffer d))%nat then
      set_smoothed_hr (Some (int_of_float (Np.median (hr_smoothing_buffer d)))) d
    else if (0 <? length (hr_smoothing_buffer d))%nat then
      set_smoothed_hr (Some (int_of_float (Np.mean (hr_smoothing_buffer d)))) d
    else d in
  if (3 <=? length (spo2_smoothing_buffer d1))%nat then
    set_smoothed_spo2 (Some (int_of_float (Np.mean (spo2_smoothing_buffer d1)))) d1
  else if (0 <? length (spo2_smoothing_buffer d1))%nat then
    set_smoothed_spo2 (Some (List.last (spo2_smoothing_buffer d1) 0)) d1
  else d1.

(** [ESP32Device.calculate_metrics] *)
Definition calculate_metrics (d : ESP32Device) : ESP32Device :=
  if (length (hr_history d) <? 2)%nat then d
  else
    let hr_array := hr_history d in
    let m1 := set_bpm (Some (Np.mean hr_array)) (metrics d) in
    let m2 := set_ipm (bpm m1) m1 in
    let m3 := set_hrstd (Some (Np.std hr_array)) m2 in
    let m4 :=
      if (2 <=? length hr_array)%nat then
        let successive_diffs := Np.diff hr_array in
        set_rmssd (Some (Np.sqrt (Np.mean (Np.square successive_diffs)))) m3
      else m3 in
    let m5 :=
      match spo2 (latest_data d) with
      | Some s => if spo2_valid (latest_data d) then set_avg_spo2 (Some s) m4 else m4
      | None => m4
      end in
    set_metrics m5 d.

(** ** Frame parsing *)

(** The two clock readings of one call: [datetime.now()] and
    [time.time()], in ticks. *)
Record Clock : Type := mkClock {
  datetime_now : Z;
  time_time : Z
}.

(** The loop over the comma-separated parts: a part with a colon is split
    at its first colon and stored, a later key replacing an earlier one. *)
Definition build_dict (parts : list string) : gmap string string :=
  fold_left
    (fun data_dict part =>
       if Py.contains ":" part
       then let '(key, value) := Py.split1 ":" part in <[key := value]> data_dict
       else data_dict)
    parts ∅.

(** [data_dict] for a line *)
Definition data_dict_of (data_string : string) : gmap string string :=
  build_dict (Py.split "," (Py.strip data_string)).

(** [int(text)], raising [ValueError] *)
Definition int_or_raise (text : string) : M Z :=
  match Py.int text with
  | Some n => ret n
  | None => raise
  end.

(** [if key in data_dict: self.latest_data[field] = conv(int(data_dict[key]))] *)
Definition update_int_field {A : Type} (data_dict : gmap string string)
    (key : string) (conv : Z -> A) (setter : A -> LatestData -> LatestData)
  : M unit :=
  match data_dict !! key with
  | Some text => (n <- int_or_raise text ;; assign_latest (setter (conv n)))%py
  | None => ret tt
  end.

(** Lines 127 to 132: admission of the heart rate. *)
Definition admit_hr (now : Clock) (d : ESP32Device) : ESP32Device :=
  match hr (latest_data d) with
  | Some v =>
      if hr_valid (latest_data d) then
        if (40 <=? v) && (v <=? 200) then
          set_hr_smoothing_buffer
            (deque_append smoothing_maxlen (hr_smoothing_buffer d) v)
            (set_timestamp_history
               (deque_append hr_history_maxlen (timestamp_history d) (time_time now))
               (set_hr_history
                  (deque_append hr_history_maxlen (hr_history d) v) d))
        else d
      else d
  | None => d
  end.

(** Lines 134 to 137: admission of SpO2. *)
Definition admit_spo2 (d : ESP32Device) : ESP32Device :=
  match spo2 (latest_data d) with
  | Some v =>
      if spo2_valid (latest_data d) then
        if (70 <=? v) && (v <=? 100) then
          set_spo2_smoothing_buffer
            (deque_append smoothing_maxlen (spo2_smoothing_buffer d) v) d
        else d
      else d
  | None => d
  end.

(** The body of the [try] of [parse_data]. *)
Definition parse_body (now : Clock) (data_string : string) : M bool :=
  (let data_dict := data_dict_of data_string in
   update_int_field data_dict "HR" Some set_hr ;;
   update_int_field data_dict "HR_VALID" Py.bool_of_int set_hr_valid ;;
   update_int_field data_dict "SPO2" Some set_spo2 ;;
   update_int_field data_dict "SPO2_VALID" Py.bool_of_int set_spo2_valid ;;
   update_int_field data_dict "IR_AVG" Some set_ir_avg ;;
   update_int_field data_dict "IR_RANGE" Some set_ir_range ;;
   update_int_field data_dict "TIMESTAMP" Some set_timestamp ;;
   assign_latest (set_local_time (Some (datetime_now now))) ;;
   assign_latest
     (set_status
        match data_dict !! "STATUS" with
        | Some token => token
        | None => "receiving"
        end) ;;
   modify (admit_hr now) ;;
   modify admit_spo2 ;;
   modify calculate_smoothed_values ;;
   modify calculate_metrics ;;
   ret true)%py.

(** [ESP32Device.parse_data] *)
Definition parse_data (now : Clock) (data_string : string) : M bool :=
  try_except (parse_body now data_string) (ret false).

(** ** Histories of calls *)

Inductive call : Type :=
| ParseData (now : Clock) (data_string : string)
| Connect (bt : Bluetooth)
| Disconnect (bt : Bluetooth)
| CalculateSmoothedValues
| CalculateMetrics.

(** The device after one call. *)
Definition exec (c : call) (d : ESP32Device) : ESP32Device :=
  match c with
  | ParseData now data_string => snd (parse_data now data_string d)
  | Connect bt => snd (connect bt d)
  | Disconnect bt => snd (disconnect bt d)
  | CalculateSmoothedValues => calculate_smoothed_values d
  | CalculateMetrics => calculate_metrics d
  end.

Definition run (cs : list call) (d : ESP32Device) : ESP32Device :=
  fold_left (fun d c => exec c d) cs d.

(** The devices a program can hold: a new one, then any calls. *)
Inductive reachable : ESP32Device -> Prop :=
| reachable_init id nm mac : reachable (init id nm mac)
| reachable_exec c d : reachable d -> reachable (exec c d).

(** Frames fed one after the other to one device, with a fixed clock. *)
Definition feed (now : Clock) (frames : list string) (d : ESP32Device) : ESP32Device :=
  run (map (ParseData now) frames) d.

(** ** What a frame does to the latest reading *)

(** The keys converted with [int], in the order of the source. *)
Definition int_keys : list string :=
  ["HR"; "HR_VALID"; "SPO2"; "SPO2_VALID"; "IR_AVG"; "IR_RANGE"; "TIMESTAMP"].

(** The key is absent, or its text is an integer literal. *)
Definition int_okb (data_dict : gmap string string) (key : string) : bool :=
  match data_dict !! key with
  | Some text => match Py.int text with Some _ => true | None => false end
  | None => true
  end.

(** A frame is well formed when no recognised numeric key carries a text
    that [int] refuses. *)
Definition valid_frame (data_string : string) : bool :=
  forallb (int_okb (data_dict_of data_string)) int_keys.

(** The value of a field once its key was handled: the converted value of
    the key when the frame has it, the value it had otherwise. *)
Definition field_after {A : Type} (data_dict : gmap string string)
    (key : string) (conv : Z -> A) (old : A) : A :=
  match data_dict !! key with
  | Some text => match Py.int text with Some n => conv n | None => old end
  | None => old
  end.

Definition status_after (data_dict : gmap string string) : string :=
  match data_dict !! "STATUS" with
  | Some token => token
  | None => "receiving"
  end.

(** [latest_data] after a well-formed frame. *)
Definition parsed_latest (now : Clock) (data_dict : gmap string string)
    (l : LatestData) : LatestData :=
  {| hr := field_after data_dict "HR" Some (hr l);
     hr_valid := field_after data_dict "HR_VALID" Py.bool_of_int (hr_valid l);
     spo2 := field_after data_dict "SPO2" Some (spo2 l);
     spo2_valid := field_after data_dict "SPO2_VALID" Py.bool_of_int (spo2_valid l);
     ir_avg := field_after data_dict "IR_AVG" Some (ir_avg l);
     ir_range := field_after data_dict "IR_RANGE" Some (ir_range l);
     timestamp := field_after data_dict "TIMESTAMP" Some (timestamp l);
     local_time := Some (datetime_now now);
     status := status_after data_dict |}.

(** Lines 127 to 143: admission, smoothing, metrics. *)
Definition fold_in (now : Clock) (d : ESP32Device) : ESP32Device :=
  calculate_metrics (calculate_smoothed_values (admit_spo2 (admit_hr now d))).

(** A reading none of whose fields is set: the one of a new device, its
    status and ingestion time apart. *)
Definition all_unset (l : LatestData) : Prop :=
  hr l = None /\ hr_valid l = false /\ spo2 l = None /\ spo2_valid l = false
  /\ ir_avg l = None /\ ir_range l = None /\ timestamp l = None.

(** ** The statistics in the words of the specification *)

Definition sumR (l : list R) : R := fold_right Rplus 0%R l.

Definition mean_R (w : list Z) : R := (sumR (map IZR w) / INR (length w))%R.

(** The sum of the squared deviations from the mean. *)
Definition sum_sq_dev (w : list Z) : R :=
  sumR (map (fun x => ((IZR x - mean_R w) * (IZR x - mean_R w))%R) w).

(** Sample standard deviation: divided by [n - 1]. *)
Definition sample_std (w : list Z) : R :=
  R_sqrt.sqrt (sum_sq_dev w / (INR (length w) - 1))%R.

(** Population standard deviation: divided by [n]. *)
Definition population_std (w : list Z) : R :=
  R_sqrt.sqrt (sum_sq_dev w / INR (length w))%R.

(** The arithmetic mean as a rational. *)
Definition arithmetic_mean (w : list Z) : Q :=
  (inject_Z (fold_right Z.add 0%Z w) / inject_Z (Z.of_nat (length w)))%Q.

(** The number of samples at most [m], and of samples at least [m]. *)
Definition count_le (m : Q) (w : list Z) : nat :=
  length (filter (fun x => Is_true (Qle_bool (inject_Z x) m)) w).
Definition count_ge (m : Q) (w : list Z) : nat :=
  length (filter (fun x => Is_true (Qle_bool m (inject_Z x))) w).
(** [m] is a median of [w]: at least half of the samples are at most [m]
    and at least half are at least [m]. *)
Definition is_median (m : Q) (w : list Z) : Prop :=
  (length w <= 2 * count_le m w)%nat /\ (length w <= 2 * count_ge m w)%nat.

(** A value is present. *)
Definition present {A : Type} (o : option A) : Prop := o <> None.

(** Every smoothed value and metric present in [d] is present in [d']. *)
Definition keeps_present (d d' : ESP32Device) : Prop :=
  (present (smoothed_hr d) -> present (smoothed_hr d'))
  /\ (present (smoothed_spo2 d) -> present (smoothed_spo2 d'))
  /\ (present (bpm (metrics d)) -> present (bpm (metrics d')))
  /\ (present (ipm (metrics d)) -> present (ipm (metrics d')))
  /\ (present (hrstd (metrics d)) -> present (hrstd (metrics d')))
  /\ (present (rmssd (metrics d)) -> present (rmssd (metrics d')))
  /\ (present (avg_spo2 (metrics d)) -> present (avg_spo2 (metrics d'))).

(** [latest_data] when [int] refused the key of rank [k] in [int_keys]:
    the fields of the keys before it are already assigned. *)
Definition partial_latest (k : nat) (data_dict : gmap string string)
    (l : LatestData) : LatestData :=
  {| hr := if (0 <? k)%nat then field_after data_dict "HR" Some (hr l) else hr l;
     hr_valid :=
       if (1 <? k)%nat
       then field_after data_dict "HR_VALID" Py.bool_of_int (hr_valid l)
       else hr_valid l;
     spo2 := if (2 <? k)%nat then field_after data_dict "SPO2" Some (spo2 l) else spo2 l;
     spo2_valid :=
       if (3 <? k)%nat
       then field_after data_dict "SPO2_VALID" Py.bool_of_int (spo2_valid l)
       else spo2_valid l;
     ir_avg :=
       if (4 <? k)%nat then field_after data_dict "IR_AVG" Some (ir_avg l) else ir_avg l;
     ir_range :=
       if (5 <? k)%nat
       then field_after data_dict "IR_RANGE" Some (ir_range l)
       else ir_range l;
     timestamp := timestamp l;
     local_time := local_time l;
     status := status l |}.

(** The rank of the first key of [keys] whose text [int] refuses. *)
Fixpoint first_bad_from (data_dict : gmap string string) (keys : list string)
    (i : nat) : option nat :=
  match keys with
  | [] => None
  | key :: rest =>
      if int_okb data_dict key then first_bad_from data_dict rest (S i)
      else Some i
  end.

Definition first_bad (data_dict : gmap string string) : option nat :=
  first_bad_from data_dict int_keys 0.

(** How a field stands after a well-formed frame: set from the text of its
    key when the frame has the key, kept otherwise. *)
Definition field_set_by {A : Type} (data_dict : gmap string string)
    (key : string) (conv : Z -> A) (old new : A) : Prop :=
  match data_dict !! key with
  | Some text => exists n, Py.int text = Some n /\ new = conv n
  | None => new = old
  end.

(** The clock and the devices of the examples. *)
Definition noon : Clock := {| datetime_now := 1200; time_time := 1200 |}.
Definition fresh : ESP32Device := init 1 "ESP32_1" (Some "AA:BB:CC:DD:EE:01").
Definition unconfigured : ESP32Device := init 2 "ESP32_2" None.

(** The frames that carry the samples 72, 75, 200, 74, 73, the first one
    raising the heart-rate-valid flag. *)
Definition outlier_frames : list string :=
  ["HR:72,HR_VALID:1"; "HR:75"; "HR:200"; "HR:74"; "HR:73"].

(** Four frames that carry the heart rate 60, the first one raising the
    heart-rate-valid flag. *)
Definition steady_frames : list string :=
  ["HR:60,HR_VALID:1"; "HR:60"; "HR:60"; "HR:60"].

(** The fields whose key the frame lacks are unset. *)
Definition absent_unset (data_dict : gmap string string) (l : LatestData) : Prop :=
  (data_dict !! "HR" = None -> hr l = None)
  /\ (data_dict !! "HR_VALID" = None -> hr_valid l = false)
  /\ (data_dict !! "SPO2" = None -> spo2 l = None)
  /\ (data_dict !! "SPO2_VALID" = None -> spo2_valid l = false)
  /\ (data_dict !! "IR_AVG" = None -> ir_avg l = None)
  /\ (data_dict !! "IR_RANGE" = None -> ir_range l = None)
  /\ (data_dict !! "TIMESTAMP" = None -> timestamp l = None).

(** The bounds the buffers of a device keep: capacities and admitted
    ranges. *)
Definition buffers_admitted (d : ESP32Device) : Prop :=
  (length (hr_history d) <= hr_history_maxlen)%nat
  /\ (length (timestamp_history d) <= hr_history_maxlen)%nat
  /\ (length (hr_smoothing_buffer d) <= smoothing_maxlen)%nat
  /\ (length (spo2_smoothing_buffer d) <= smoothing_maxlen)%nat
  /\ Forall (fun v => 40 <= v <= 200) (hr_history d)
  /\ Forall (fun v => 40 <= v <= 200) (hr_smoothing_buffer d)
  /\ Forall (fun v => 70 <= v <= 100) (spo2_smoothing_buffer d).

(** The smoothed values and the metrics of [d'] are those of [d]. *)
Definition frozen (d d' : ESP32Device) : Prop :=
  smoothed_hr d' = smoothed_hr d
  /\ smoothed_spo2 d' = smoothed_spo2 d
  /\ metrics d' = metrics d.

(** The smoothed values and the metrics computed from the history window
    are those of [d]. *)
Definition history_frozen (d d' : ESP32Device) : Prop :=
  smoothed_hr d' = smoothed_hr d
  /\ smoothed_spo2 d' = smoothed_spo2 d
  /\ bpm (metrics d') = bpm (metrics d)
  /\ ipm (metrics d') = ipm (metrics d)
  /\ hrstd (metrics d') = hrstd (metrics d)
  /\ rmssd (metrics d') = rmssd (metrics d).

(** No sample entered the window or a smoothing buffer between [d] and
    [d']. *)
Definition nothing_admitted (d d' : ESP32Device) : Prop :=
  hr_history d' = hr_history d
  /\ hr_smoothing_buffer d' = hr_smoothing_buffer d
  /\ spo2_smoothing_buffer d' = spo2_smoothing_buffer d.

(** The smoothed values and the metrics of the window are up to date with
    the buffers. *)
Definition up_to_date (d : ESP32Device) : Prop :=
  smoothed_hr (calculate_smoothed_values d) = smoothed_hr d
  /\ smoothed_spo2 (calculate_smoothed_values d) = smoothed_spo2 d
  /\ ((2 <= length (hr_history d))%nat ->
      bpm (metrics d) = Some (Np.mean (hr_history d))
      /\ ipm (metrics d) = Some (Np.mean (hr_history d))
      /\ hrstd (metrics d) = Some (Np.std (hr_history d))
      /\ rmssd (metrics d)
         = Some (Np.sqrt (Np.mean (Np.square (Np.diff (hr_history d)))))).

(** ** The ingestion loop *)

(** The line feed that ends a frame. *)
Definition LF : ascii := "010"%char.

(** What one [self.sock.recv(1024)] answers: bytes, given by the text
    [decode('utf-8', errors='ignore')] makes of them; no byte; a
    [bluetooth.BluetoothError]; any other exception. *)
Inductive recv_event : Type :=
| RecvText (text : string)
| RecvNothing
| RecvBluetoothError
| RecvException.

(** The variables of [receive_data] between two iterations: the number of
    clock readings taken so far, the local [buffer], the device. *)
Definition rx_state : Type := (nat * string * ESP32Device)%type.

(** [if line.strip():] fails on a line of whitespace. *)
Definition blank (line : string) : bool :=
  match Py.strip line with
  | EmptyString => true
  | String _ _ => false
  end.

(** The inner loop [while '\n' in buffer: ...].  The fuel bounds the number
    of iterations; [tick k] is the clock of the [k]-th call of [parse_data].
    An exception out of [parse_data] would leave the loop with the variables
    as they are. *)
Fixpoint process_lines (fuel : nat) (tick : nat -> Clock) (n : nat)
    (buffer : string) (d : ESP32Device) : outcome unit * rx_state :=
  match fuel with
  | O => (Ret tt, (n, buffer, d))
  | S fuel' =>
      if Py.contains LF buffer then
        let '(line, buffer') := Py.split1 LF buffer in
        if blank line then process_lines fuel' tick n buffer' d
        else
          match parse_data (tick n) line d with
          | (Ret _, d') => process_lines fuel' tick (S n) buffer' d'
          | (Raise, d') => (Raise, (S n, buffer', d'))
          end
      else (Ret tt, (n, buffer, d))
  end.

(** Lines 208 to 209: the handler of [bluetooth.BluetoothError]. *)
Definition transport_error (d : ESP32Device) : ESP32Device :=
  set_latest_data (set_status "error" (latest_data d)) (set_connected false d).

(** [ESP32Device.receive_data] along the answers of [recv], one per
    iteration of [while self.connected], from given variables.  Without a
    socket object [self.sock.recv] raises and the iteration only sleeps. *)
Fixpoint receive_loop (events : list recv_event) (tick : nat -> Clock)
    (st : rx_state) : rx_state :=
  match events with
  | [] => st
  | event :: rest =>
      let '(n, buffer, d) := st in
      if connected d then
        match sock d with
        | None => receive_loop rest tick st
        | Some _ =>
            match event with
            | RecvText text =>
                let buffer1 := String.append buffer text in
                receive_loop rest tick
                  (snd (process_lines (S (String.length buffer1)) tick n buffer1 d))
            | RecvNothing => receive_loop rest tick st
            | RecvBluetoothError => (n, buffer, transport_error d)
            | RecvException => receive_loop rest tick st
            end
        end
      else st
  end.

(** [ESP32Device.receive_data] *)
Definition receive_data (events : list recv_event) (tick : nat -> Clock)
    (d : ESP32Device) : rx_state :=
  receive_loop events tick (O, EmptyString, d).

(** The complete lines of a text, and what follows its last line feed. *)
Fixpoint cut_lines (s : string) : list string * string :=
  match s with
  | EmptyString => ([], EmptyString)
  | String c r =>
      if Ascii.eqb c LF then
        let '(ls, rest) := cut_lines r in (EmptyString :: ls, rest)
      else
        match cut_lines r with
        | ([], rest) => ([], String c rest)
        | (l :: ls, rest) => (String c l :: ls, rest)
        end
  end.

(** [parse_data] on each line that is not blank, in order, the [k]-th call
    at the clock [tick k]. *)
Fixpoint parse_lines (tick : nat -> Clock) (n : nat) (lines : list string)
    (d : ESP32Device) : nat * ESP32Device :=
  match lines with
  | [] => (n, d)
  | line :: rest =>
      if blank line then parse_lines tick n rest d
      else parse_lines tick (S n) rest (snd (parse_data (tick n) line d))
  end.

(** The text of the answers that carry bytes, in order. *)
Fixpoint received_text (events : list recv_event) : string :=
  match events with
  | [] => EmptyString
  | RecvText text :: rest => String.append text (received_text rest)
  | _ :: rest => received_text rest
  end.

(** No answer is a Bluetooth error. *)
Definition error_free (events : list recv_event) : Prop :=
  Forall (fun event => event <> RecvBluetoothError) events.

(** The identity of a device and its connection. *)
Definition same_connection (d d' : ESP32Device) : Prop :=
  connected d' = connected d
  /\ sock d' = sock d
  /\ mac_address d' = mac_address d
  /\ device_id d' = device_id d
  /\ name d' = name d.

(** A Bluetooth stack that accepts everything, the device of the examples
    once connected, and a clock that stands still. *)
Definition willing : Bluetooth :=
  {| new_socket := Some (Socket 3); connect_ok := true; close_ok := true |}.
Definition online : ESP32Device := snd (connect willing fresh).
Definition still : nat -> Clock := fun _ => noon.

(** One frame cut in two answers of [recv], then the start of another
    frame. *)
Definition cut_frame : list recv_event :=
  [RecvText "HR:72,HR_"; RecvNothing;
   RecvText (String.append "VALID:1" (String LF "SPO2:9"))].

(** The timestamps run along the window, and the heart-rate smoothing
    buffer holds the last samples of the window. *)
Definition window_aligned (d : ESP32Device) : Prop :=
  length (timestamp_history d) = length (hr_history d)
  /\ hr_smoothing_buffer d
     = drop (length (hr_history d) - smoothing_maxlen) (hr_history d).

(** All samples of a window are the same. *)
Definition constant (w : list Z) : Prop :=
  forall x y, x ∈ w -> y ∈ w -> x = y.

(** The root mean square of the successive differences, in the words of
    the specification: the square root of the sum of the squares of
    [w[i+1] - w[i]] divided by their number [n - 1]. *)
Fixpoint sum_sq_steps (w : list Z) : R :=
  match w with
  | x :: (y :: _) as r => ((IZR y - IZR x) * (IZR y - IZR x) + sum_sq_steps r)%R
  | _ => 0%R
  end.

Definition rms_successive (w : list Z) : R :=
  R_sqrt.sqrt (sum_sq_steps w / (INR (length w) - 1))%R.

(** ** The manager of several devices *)

(** [MultiDeviceManager]: its devices, in the order they were added, and
    the flag [running].  The thread objects of [self.threads] are left
    out. *)
Record MultiDeviceManager : Type := mkManager {
  devices : list ESP32Device;
  running : bool
}.

(** [MultiDeviceManager.__init__] *)
Definition manager_init : MultiDeviceManager :=
  {| devices := []; running := false |}.

(** [MultiDeviceManager.add_device] *)
Definition add_device (device_id : Z) (name : string)
    (mac_address : option string) (m : MultiDeviceManager) : MultiDeviceManager :=
  {| devices := devices m ++ [init device_id name mac_address];
     running := running m |}.

(** [if device.mac_address:] fails on [None] and on the empty string. *)
Definition has_mac (d : ESP32Device) : bool :=
  match mac_address d with
  | Some (String _ _) => true
  | Some EmptyString => false
  | None => false
  end.

(** The loop of [connect_all] from the device of rank [i] on; [bts k] is
    what the Bluetooth stack answers to the device of rank [k].  An
    exception out of [connect] would end the loop. *)
Fixpoint connect_each (bts : nat -> Bluetooth) (i : nat)
    (ds : list ESP32Device) : outcome unit * list ESP32Device :=
  match ds with
  | [] => (Ret tt, [])
  | d :: rest =>
      if has_mac d then
        match connect (bts i) d with
        | (Ret _, d') =>
            let '(o, rest') := connect_each bts (S i) rest in (o, d' :: rest')
        | (Raise, d') => (Raise, d' :: rest)
        end
      else
        let '(o, rest') := connect_each bts (S i) rest in (o, d :: rest')
  end.

(** [MultiDeviceManager.connect_all] *)
Definition connect_all (bts : nat -> Bluetooth) (m : MultiDeviceManager)
  : outcome unit * MultiDeviceManager :=
  let '(o, ds) := connect_each bts 0 (devices m) in
  (o, {| devices := ds; running := running m |}).

(** The loop of [stop]. *)
Fixpoint disconnect_each (bts : nat -> Bluetooth) (i : nat)
    (ds : list ESP32Device) : outcome unit * list ESP32Device :=
  match ds with
  | [] => (Ret tt, [])
  | d :: rest =>
      match disconnect (bts i) d with
      | (Ret _, d') =>
          let '(o, rest') := disconnect_each bts (S i) rest in (o, d' :: rest')
      | (Raise, d') => (Raise, d' :: rest)
      end
  end.

(** [MultiDeviceManager.stop] *)
Definition stop (bts : nat -> Bluetooth) (m : MultiDeviceManager)
  : outcome unit * MultiDeviceManager :=
  let '(o, ds) := disconnect_each bts 0 (devices m) in
  (o, {| devices := ds; running := false |}).

(** One value of the dictionary [get_all_data] returns, as it reads at the
    time of the call. *)
Record Snapshot : Type := mkSnapshot {
  snap_name : string;
  snap_data : LatestData;
  snap_metrics : Metrics;
  snap_connected : bool;
  snap_smoothed_hr : option Z;
  snap_smoothed_spo2 : option Z
}.

Definition snapshot (d : ESP32Device) : Snapshot :=
  {| snap_name := name d;
     snap_data := latest_data d;
     snap_metrics := metrics d;
     snap_connected := connected d;
     snap_smoothed_hr := smoothed_hr d;
     snap_smoothed_spo2 := smoothed_spo2 d |}.

(** The dictionary comprehension of [get_all_data] over a list of devices:
    a later device replaces an earlier one with the same identifier. *)
Definition all_data_of (ds : list ESP32Device) : gmap Z Snapshot :=
  fold_left (fun all_data d => <[device_id d := snapshot d]> all_data) ds ∅.

(** [MultiDeviceManager.get_all_data] *)
Definition get_all_data (m : MultiDeviceManager) : gmap Z Snapshot :=
  all_data_of (devices m).

(** The smoothed values as functions of the smoothing buffers: the policy
    of [calculate_smoothed_values] on a device that has no smoothed value
    yet. *)
Definition hr_policy (b : list Z) : option Z :=
  if (3 <=? length b)%nat then Some (int_of_float (Np.median b))
  else if (0 <? length b)%nat then Some (int_of_float (arithmetic_mean b))
  else None.

Definition spo2_policy (b : list Z) : option Z :=
  if (3 <=? length b)%nat then Some (int_of_float (arithmetic_mean b))
  else if (0 <? length b)%nat then Some (List.last b 0)
  else None.

(** ** The manager the window builds *)

(** [f"ESP32_HR_{i}"] for the three slots of the window. *)
Definition slot_name (i : Z) : string :=
  String.append "ESP32_HR_"
    (if Z.eqb i 1 then "1" else if Z.eqb i 2 then "2" else "3").

(** Lines 709 to 715 of [CompactHeartRateGUI.connect_devices]: a new
    manager, then for the slots 1, 2, 3 in turn a device when the text of
    the MAC entry of the slot, stripped, is not empty. *)
Definition connect_devices_manager (mac_entries : Z -> string)
  : MultiDeviceManager :=
  fold_left
    (fun manager i =>
       match Py.strip (mac_entries i) with
       | EmptyString => manager
       | String _ _ as mac => add_device i (slot_name i) (Some mac) manager
       end)
    [1; 2; 3] manager_init.

(** * Properties *)

(** ** Text primitives on examples *)

Example strip_crlf :
  Py.strip (" HR:72,SPO2:98" ++ String "013" (String "010" "")) = "HR:72,SPO2:98".
Proof. reflexivity. Qed.

Example split_commas : Py.split "," "a,b,,c" = ["a"; "b"; ""; "c"].
Proof. reflexivity. Qed.

Example split_empty : Py.split "," "" = [""].
Proof. reflexivity. Qed.

Example split1_colon : Py.split1 ":" "T:1:2" = ("T", "1:2").
Proof. reflexivity. Qed.

Example int_plain : Py.int " 72 " = Some 72.
Proof. reflexivity. Qed.

Example int_signed : Py.int "-1_000" = Some (-1000).
Proof. reflexivity. Qed.

Example int_bad : Py.int "abc" = None /\ Py.int "" = None /\ Py.int "7_" = None
                  /\ Py.int "+ 7" = None /\ Py.int "7.0" = None.
Proof. repeat split; reflexivity. Qed.

(** NEL (U+0085, bytes C2 85) and the no-break space (U+00A0, bytes C2 A0)
    are whitespace for [strip] and for [int]; the unit separator (U+001F)
    is whitespace for [strip] only. *)
Example strip_unicode_spaces :
  Py.strip (String "194" (String "133" ("HR:72" ++ String "194" (String "160" (String "031" "")))))
  = "HR:72".
Proof. vm_compute; reflexivity. Qed.

Example int_unicode_spaces :
  Py.int ("72" ++ String "194" (String "160" "")) = Some 72
  /\ Py.int (String "194" (String "133" "72")) = Some 72
  /\ Py.int ("72" ++ String "031" "") = None
  /\ Py.int (String "028" "72") = None.
Proof. repeat split; vm_compute; reflexivity. Qed.

(** Decimal digits of other scripts: Arabic-Indic seven and two (U+0667,
    U+0662), fullwidth seven and two (U+FF17, U+FF12); superscript two
    (U+00B2) is no decimal digit. *)
Example int_unicode_digits :
  Py.int (String "217" (String "167" (String "217" (String "162" "")))) = Some 72
  /\ Py.int (String "239" (String "188" (String "151"
               (String "239" (String "188" (String "146" "")))))) = Some 72
  /\ Py.int (String "194" (String "178" "")) = None.
Proof. repeat split; vm_compute; reflexivity. Qed.

Example chars_example :
  Utf8.chars ("A" ++ String "194" (String "160" (String "226" (String "128" (String "131" "")))))
  = [(65%N, "A"); (160%N, String "194" (String "160" ""));
     (8195%N, String "226" (String "128" (String "131" "")))].
Proof. vm_compute; reflexivity. Qed.

(** Every well-formed sequence has at least one byte. *)
Lemma sequence_length c r cp n : Utf8.sequence c r = Some (cp, n) -> (1 <= n)%nat.
Proof.
  unfold Utf8.sequence. intros H.
  repeat case_match; try discriminate; injection H as _ <-; lia.
Qed.

Lemma substring_empty k : substring 0 k EmptyString = EmptyString.
Proof. destruct k; reflexivity. Qed.

Lemma substring_none s : substring 0 0 s = EmptyString.
Proof. destruct s; reflexivity. Qed.

Lemma text_cons ch cs :
  Utf8.text (ch :: cs) = String.append (snd ch) (Utf8.text cs).
Proof. reflexivity. Qed.

Lemma chars_from_text k s :
  String.append (substring 0 k s) (Utf8.text (Utf8.chars_from k s)) = s.
Proof.
  revert k. induction s as [|c r IH]; intros k.
  - rewrite substring_empty. reflexivity.
  - destruct k as [|k].
    + rewrite substring_none.
      change (String.append EmptyString ?x) with x.
      cbn [Utf8.chars_from].
      destruct (Utf8.sequence c r) as [[cp n]|] eqn:E.
      * pose proof (sequence_length _ _ _ _ E) as Hn.
        destruct n as [|m]; [lia|].
        rewrite text_cons. cbn [snd].
        replace (S m - 1)%nat with m by lia.
        cbn [substring].
        change (String.append (String c ?x) ?y) with (String c (String.append x y)).
        f_equal. apply IH.
      * rewrite text_cons. cbn [snd].
        change (String.append (String c EmptyString) ?y) with (String c y).
        f_equal. specialize (IH 0%nat). rewrite substring_none in IH. exact IH.
    + cbn [substring Utf8.chars_from].
      change (String.append (String c ?x) ?y) with (String c (String.append x y)).
      f_equal. apply IH.
Qed.

(** The characters of a text are the text, cut: nothing is lost and
    nothing added, so [strip] returns a part of its argument. *)
Lemma chars_text s : Utf8.text (Utf8.chars s) = s.
Proof.
  pose proof (chars_from_text 0 s) as H. rewrite substring_none in H. exact H.
Qed.

(** On ASCII text every byte is a character. *)
Lemma chars_ascii s :
  Forall (fun c => (Utf8.byte c < 128)%N) (list_ascii_of_string s) ->
  Utf8.chars s
  = map (fun c => (Utf8.byte c, String c EmptyString)) (list_ascii_of_string s).
Proof.
  unfold Utf8.chars. induction s as [|c r IH]; intros H; [reflexivity|].
  cbn [list_ascii_of_string] in H. inversion H as [|? ? Hc Hr]; subst.
  cbn [Utf8.chars_from list_ascii_of_string map].
  unfold Utf8.sequence. destruct (N.ltb_spec (Utf8.byte c) 128) as [_|?]; [|lia].
  cbn [substring Nat.sub]. rewrite substring_none. f_equal. apply IH, Hr.
Qed.

(** ** Running [parse_data] *)

Lemma set_latest_data_same d : set_latest_data (latest_data d) d = d.
Proof. destruct d; reflexivity. Qed.

Section IntField.
Context {A : Type} (conv : Z -> A).
Context (getter : LatestData -> A) (setter : A -> LatestData -> LatestData).
Hypothesis set_get : forall l, setter (getter l) l = l.

(** One [if key in data_dict: ...] of the source: it raises on a refused
    text and otherwise leaves the field as [field_after] says. *)
Lemma update_int_field_run data_dict key d :
  update_int_field data_dict key conv setter d =
  if int_okb data_dict key
  then (Ret tt,
        set_latest_data
          (setter (field_after data_dict key conv (getter (latest_data d)))
             (latest_data d)) d)
  else (Raise, d).
Proof.
  unfold update_int_field, int_okb, field_after, int_or_raise.
  destruct (data_dict !! key) as [text|]; cbn.
  - destruct (Py.int text); cbn; reflexivity.
  - rewrite set_get, set_latest_data_same. reflexivity.
Qed.
End IntField.

Ltac run_field getter :=
  rewrite (update_int_field_run _ getter) by (intros []; reflexivity).

Ltac stop_or_go dict key d :=
  destruct (int_okb dict key);
  [ | destruct d as [? ? ? ? ? []]; reflexivity ].

(** [parse_data] as a function of the frame: it never raises; it returns
    [True] exactly on a well-formed frame and then folds the new reading in;
    otherwise it returns [False] with the fields assigned so far. *)
Lemma parse_data_run now data_string d :
  parse_data now data_string d =
  match first_bad (data_dict_of data_string) with
  | None =>
      (Ret true,
       fold_in now
         (set_latest_data
            (parsed_latest now (data_dict_of data_string) (latest_data d)) d))
  | Some k =>
      (Ret false,
       set_latest_data
         (partial_latest k (data_dict_of data_string) (latest_data d)) d)
  end.
Proof.
  unfold parse_data, parse_body, try_except, bind, first_bad.
  cbn [first_bad_from int_keys].
  set (dict := data_dict_of data_string).
  run_field hr. stop_or_go dict "HR" d.
  run_field hr_valid. stop_or_go dict "HR_VALID" d.
  run_field spo2. stop_or_go dict "SPO2" d.
  run_field spo2_valid. stop_or_go dict "SPO2_VALID" d.
  run_field ir_avg. stop_or_go dict "IR_AVG" d.
  run_field ir_range. stop_or_go dict "IR_RANGE" d.
  run_field timestamp. stop_or_go dict "TIMESTAMP" d.
  unfold assign_latest, modify, ret, fold_in, parsed_latest.
  destruct d as [? ? ? ? ? []]. reflexivity.
Qed.

Lemma first_bad_valid data_string :
  first_bad (data_dict_of data_string) = None <-> valid_frame data_string = true.
Proof.
  unfold first_bad, valid_frame. cbn [first_bad_from forallb int_keys].
  set (dict := data_dict_of data_string).
  repeat match goal with
         | |- context [int_okb dict ?k] => destruct (int_okb dict k)
         end; cbn; split; congruence.
Qed.

Lemma first_bad_invalid data_string :
  valid_frame data_string = false ->
  exists k, first_bad (data_dict_of data_string) = Some k.
Proof.
  intros Hv. destruct (first_bad (data_dict_of data_string)) eqn:E; [eauto|].
  apply first_bad_valid in E. congruence.
Qed.

Lemma parse_data_valid now data_string d :
  valid_frame data_string = true ->
  parse_data now data_string d =
  (Ret true,
   fold_in now
     (set_latest_data
        (parsed_latest now (data_dict_of data_string) (latest_data d)) d)).
Proof.
  intros Hv. rewrite parse_data_run.
  apply first_bad_valid in Hv. rewrite Hv. reflexivity.
Qed.

Lemma parse_data_true now data_string d d' :
  parse_data now data_string d = (Ret true, d') ->
  valid_frame data_string = true.
Proof.
  rewrite parse_data_run. intros H. apply first_bad_valid.
  destruct (first_bad (data_dict_of data_string)); [discriminate | reflexivity].
Qed.

(** ** What each stage of the pipeline touches *)

Lemma deque_append_length {A : Type} maxlen (q : list A) x :
  (length q <= length (deque_append maxlen q x))%nat.
Proof.
  unfold deque_append.
  destruct (maxlen <? length (q ++ [x]))%nat.
  - destruct q; cbn; [lia|]. rewrite length_app. cbn. lia.
  - rewrite length_app. cbn. lia.
Qed.

Lemma admit_hr_frame now d :
  latest_data (admit_hr now d) = latest_data d
  /\ spo2_smoothing_buffer (admit_hr now d) = spo2_smoothing_buffer d
  /\ smoothed_hr (admit_hr now d) = smoothed_hr d
  /\ smoothed_spo2 (admit_hr now d) = smoothed_spo2 d
  /\ metrics (admit_hr now d) = metrics d.
Proof. unfold admit_hr. repeat case_match; repeat split; reflexivity. Qed.

Lemma admit_spo2_frame d :
  latest_data (admit_spo2 d) = latest_data d
  /\ hr_history (admit_spo2 d) = hr_history d
  /\ timestamp_history (admit_spo2 d) = timestamp_history d
  /\ hr_smoothing_buffer (admit_spo2 d) = hr_smoothing_buffer d
  /\ smoothed_hr (admit_spo2 d) = smoothed_hr d
  /\ smoothed_spo2 (admit_spo2 d) = smoothed_spo2 d
  /\ metrics (admit_spo2 d) = metrics d.
Proof. unfold admit_spo2. repeat case_match; repeat split; reflexivity. Qed.

Lemma calculate_smoothed_values_frame d :
  latest_data (calculate_smoothed_values d) = latest_data d
  /\ hr_history (calculate_smoothed_values d) = hr_history d
  /\ timestamp_history (calculate_smoothed_values d) = timestamp_history d
  /\ hr_smoothing_buffer (calculate_smoothed_values d) = hr_smoothing_buffer d
  /\ spo2_smoothing_buffer (calculate_smoothed_values d) = spo2_smoothing_buffer d
  /\ metrics (calculate_smoothed_values d) = metrics d.
Proof.
  unfold calculate_smoothed_values. repeat case_match; repeat split; reflexivity.
Qed.

Lemma calculate_metrics_frame d :
  latest_data (calculate_metrics d) = latest_data d
  /\ hr_history (calculate_metrics d) = hr_history d
  /\ timestamp_history (calculate_metrics d) = timestamp_history d
  /\ hr_smoothing_buffer (calculate_metrics d) = hr_smoothing_buffer d
  /\ spo2_smoothing_buffer (calculate_metrics d) = spo2_smoothing_buffer d
  /\ smoothed_hr (calculate_metrics d) = smoothed_hr d
  /\ smoothed_spo2 (calculate_metrics d) = smoothed_spo2 d.
Proof.
  unfold calculate_metrics. repeat case_match; repeat split; reflexivity.
Qed.

Lemma fold_in_latest_data now d : latest_data (fold_in now d) = latest_data d.
Proof.
  unfold fold_in.
  rewrite (proj1 (calculate_metrics_frame _)).
  rewrite (proj1 (calculate_smoothed_values_frame _)).
  rewrite (proj1 (admit_spo2_frame _)).
  apply admit_hr_frame.
Qed.

Lemma fold_in_hr_history now d :
  hr_history (fold_in now d) = hr_history (admit_hr now d)
  /\ timestamp_history (fold_in now d) = timestamp_history (admit_hr now d)
  /\ hr_smoothing_buffer (fold_in now d) = hr_smoothing_buffer (admit_hr now d).
Proof.
  unfold fold_in.
  destruct (calculate_metrics_frame
              (calculate_smoothed_values (admit_spo2 (admit_hr now d))))
    as (_ & -> & -> & -> & _).
  destruct (calculate_smoothed_values_frame (admit_spo2 (admit_hr now d)))
    as (_ & -> & -> & -> & _).
  destruct (admit_spo2_frame (admit_hr now d)) as (_ & -> & -> & -> & _).
  repeat split; reflexivity.
Qed.

Lemma fold_in_spo2_buffer now d :
  spo2_smoothing_buffer (fold_in now d) =
  spo2_smoothing_buffer (admit_spo2 (admit_hr now d)).
Proof.
  unfold fold_in.
  destruct (calculate_metrics_frame
              (calculate_smoothed_values (admit_spo2 (admit_hr now d))))
    as (_ & _ & _ & _ & -> & _).
  destruct (calculate_smoothed_values_frame (admit_spo2 (admit_hr now d)))
    as (_ & _ & _ & _ & -> & _).
  reflexivity.
Qed.

Lemma connect_frame bt d :
  hr_history (snd (connect bt d)) = hr_history d
  /\ hr_smoothing_buffer (snd (connect bt d)) = hr_smoothing_buffer d
  /\ spo2_smoothing_buffer (snd (connect bt d)) = spo2_smoothing_buffer d
  /\ smoothed_hr (snd (connect bt d)) = smoothed_hr d
  /\ smoothed_spo2 (snd (connect bt d)) = smoothed_spo2 d
  /\ metrics (snd (connect bt d)) = metrics d.
Proof.
  unfold connect, bind, get, try_except, BluetoothSocket_new, sock_connect.
  destruct (mac_address d); [|repeat split; reflexivity].
  destruct (new_socket bt); [destruct (connect_ok bt)|];
    repeat split; reflexivity.
Qed.

Lemma disconnect_frame bt d :
  hr_history (snd (disconnect bt d)) = hr_history d
  /\ hr_smoothing_buffer (snd (disconnect bt d)) = hr_smoothing_buffer d
  /\ spo2_smoothing_buffer (snd (disconnect bt d)) = spo2_smoothing_buffer d
  /\ smoothed_hr (snd (disconnect bt d)) = smoothed_hr d
  /\ smoothed_spo2 (snd (disconnect bt d)) = smoothed_spo2 d
  /\ metrics (snd (disconnect bt d)) = metrics d.
Proof.
  unfold disconnect, bind, get, try_except, sock_close.
  destruct (sock d); [destruct (close_ok bt)|]; repeat split; reflexivity.
Qed.

(** ** The reading a frame leaves (C1) *)

Lemma field_after_set_by {A : Type} data_dict key (conv : Z -> A) old :
  int_okb data_dict key = true ->
  field_set_by data_dict key conv old (field_after data_dict key conv old).
Proof.
  unfold int_okb, field_set_by, field_after.
  destruct (data_dict !! key) as [text|]; [|reflexivity].
  destruct (Py.int text) as [n|]; [eauto | discriminate].
Qed.

Lemma valid_frame_keys data_string :
  valid_frame data_string = true ->
  Forall (fun key => int_okb (data_dict_of data_string) key = true) int_keys.
Proof.
  unfold valid_frame, int_keys. cbn [forallb]. intros H.
  repeat match type of H with
         | (_ && _)%bool = true => apply andb_prop in H as [? H]
         end.
  repeat constructor; assumption.
Qed.

Lemma build_dict_no_colon parts (acc : gmap string string) :
  Forall (fun part => Py.contains ":" part = false) parts ->
  fold_left
    (fun data_dict part =>
       if Py.contains ":" part
       then let '(key, value) := Py.split1 ":" part in <[key := value]> data_dict
       else data_dict)
    parts acc = acc.
Proof.
  intros H. revert acc. induction H as [|part parts Hp _ IH]; intros acc.
  - reflexivity.
  - cbn. rewrite Hp. apply IH.
Qed.

Lemma no_token_empty_dict data_string :
  Forall (fun part => Py.contains ":" part = false)
    (Py.split "," (Py.strip data_string)) ->
  data_dict_of data_string = ∅.
Proof. intros H. unfold data_dict_of, build_dict. now apply build_dict_no_colon. Qed.

Lemma empty_dict_valid data_string :
  data_dict_of data_string = ∅ -> valid_frame data_string = true.
Proof.
  intros H. unfold valid_frame, int_okb. rewrite H. reflexivity.
Qed.

Lemma parsed_latest_empty now l :
  parsed_latest now ∅ l =
  set_status "receiving" (set_local_time (Some (datetime_now now)) l).
Proof. destruct l; reflexivity. Qed.

(** C1, as the code has it.  A well-formed frame is accepted and each
    numeric field of the latest reading is then the integer of its key when
    the frame carries the key, and keeps the value of the earlier frames
    when it does not (so it is unset only if no earlier frame set it); the
    ingestion time is the clock and the status is the STATUS token or
    "receiving".  On a device whose reading is still all unset the fields
    of the absent keys are therefore unset.  A frame none of whose parts has
    a colon is accepted as well and changes only the ingestion time and the
    status. *)
Theorem parse_data_reading now data_string d :
  (valid_frame data_string = true ->
   exists d',
     parse_data now data_string d = (Ret true, d')
     /\ (let dict := data_dict_of data_string in
         let l := latest_data d in
         let l' := latest_data d' in
         field_set_by dict "HR" Some (hr l) (hr l')
         /\ field_set_by dict "HR_VALID" Py.bool_of_int (hr_valid l) (hr_valid l')
         /\ field_set_by dict "SPO2" Some (spo2 l) (spo2 l')
         /\ field_set_by dict "SPO2_VALID" Py.bool_of_int
              (spo2_valid l) (spo2_valid l')
         /\ field_set_by dict "IR_AVG" Some (ir_avg l) (ir_avg l')
         /\ field_set_by dict "IR_RANGE" Some (ir_range l) (ir_range l')
         /\ field_set_by dict "TIMESTAMP" Some (timestamp l) (timestamp l')
         /\ local_time l' = Some (datetime_now now)
         /\ status l' = status_after dict)
     /\ (all_unset (latest_data d) ->
         absent_unset (data_dict_of data_string) (latest_data d')))
  /\ (Forall (fun part => Py.contains ":" part = false)
        (Py.split "," (Py.strip data_string)) ->
      exists d',
        parse_data now data_string d = (Ret true, d')
        /\ latest_data d' =
           set_status "receiving"
             (set_local_time (Some (datetime_now now)) (latest_data d))).
Proof.
  split.
  - intros Hv. eexists. split; [apply parse_data_valid, Hv|].
    rewrite fold_in_latest_data. cbn [latest_data set_latest_data].
    split.
    + pose proof (valid_frame_keys _ Hv) as Hk.
      unfold int_keys in Hk.
      repeat match goal with
             | H : Forall _ (_ :: _) |- _ => apply Forall_cons in H as [? H]
             end.
      cbn [parsed_latest hr hr_valid spo2 spo2_valid ir_avg ir_range timestamp
             local_time status].
      repeat split; try apply field_after_set_by; assumption.
    + intros (H1 & H2 & H3 & H4 & H5 & H6 & H7).
      unfold absent_unset, parsed_latest, field_after.
      cbn [hr hr_valid spo2 spo2_valid ir_avg ir_range timestamp].
      repeat split; intros ->; assumption.
  - intros Hno. pose proof (no_token_empty_dict _ Hno) as He.
    eexists. split; [apply parse_data_valid, empty_dict_valid, He|].
    rewrite fold_in_latest_data. cbn [latest_data set_latest_data].
    rewrite He. apply parsed_latest_empty.
Qed.

Lemma parse_data_reading_witness :
  (exists d',
      parse_data noon "HR:72,HR_VALID:1,junk,SPO2:98" fresh = (Ret true, d')
      /\ hr (latest_data d') = Some 72
      /\ ir_avg (latest_data d') = None)
  /\ (exists d',
         parse_data noon "no finger, retry" fresh = (Ret true, d')
         /\ hr (latest_data d') = None
         /\ status (latest_data d') = "receiving").
Proof.
  split.
  - destruct (parse_data_reading noon "HR:72,HR_VALID:1,junk,SPO2:98" fresh)
      as (Hvalid & _).
    destruct Hvalid as (d' & Hrun & (Hhr & _ & _ & _ & Hir & _) & _);
      [vm_compute; reflexivity|].
    exists d'. split; [exact Hrun|].
    unfold field_set_by in Hhr, Hir.
    replace (data_dict_of "HR:72,HR_VALID:1,junk,SPO2:98" !! "HR")
      with (Some "72") in Hhr by (vm_compute; reflexivity).
    replace (data_dict_of "HR:72,HR_VALID:1,junk,SPO2:98" !! "IR_AVG")
      with (@None string) in Hir by (vm_compute; reflexivity).
    destruct Hhr as (n & Hn & ->).
    split; [|exact Hir].
    vm_compute in Hn. congruence.
  - destruct (parse_data_reading noon "no finger, retry" fresh) as (_ & Hnone).
    destruct Hnone as (d' & Hrun & Hl).
    + vm_compute. repeat constructor.
    + exists d'. split; [exact Hrun|]. rewrite Hl. split; reflexivity.
Defined.

(** C1 as stated fails: a field set by an earlier frame stays set when a
    later frame lacks its key. *)
Lemma parse_data_reading_not_fresh :
  ~ (forall now data_string d d',
        reachable d ->
        parse_data now data_string d = (Ret true, d') ->
        data_dict_of data_string !! "HR" = None ->
        hr (latest_data d') = None).
Proof.
  intros H.
  assert (Hrun : parse_data noon "SPO2:98" (exec (ParseData noon "HR:72") fresh)
                 = (Ret true,
                    snd (parse_data noon "SPO2:98"
                           (exec (ParseData noon "HR:72") fresh))))
    by (vm_compute; reflexivity).
  assert (Hkey : data_dict_of "SPO2:98" !! "HR" = None)
    by (vm_compute; reflexivity).
  assert (Hhr : hr (latest_data
                      (snd (parse_data noon "SPO2:98"
                              (exec (ParseData noon "HR:72") fresh)))) = Some 72)
    by (vm_compute; reflexivity).
  specialize (H _ _ _ _ (reachable_exec _ _ (reachable_init _ _ _)) Hrun Hkey).
  congruence.
Qed.

(** ** Admission (C2) *)

Lemma admit_hr_cases now d :
  match hr (latest_data d) with
  | Some v =>
      if hr_valid (latest_data d) && ((40 <=? v) && (v <=? 200))
      then hr_history (admit_hr now d)
           = deque_append hr_history_maxlen (hr_history d) v
           /\ timestamp_history (admit_hr now d)
              = deque_append hr_history_maxlen (timestamp_history d) (time_time now)
           /\ hr_smoothing_buffer (admit_hr now d)
              = deque_append smoothing_maxlen (hr_smoothing_buffer d) v
      else admit_hr now d = d
  | None => admit_hr now d = d
  end.
Proof.
  unfold admit_hr. destruct (hr (latest_data d)) as [v|]; [|reflexivity].
  destruct (hr_valid (latest_data d)); [|reflexivity].
  cbn [andb]. destruct ((40 <=? v) && (v <=? 200)); [|reflexivity].
  repeat split; reflexivity.
Qed.

Lemma admit_spo2_cases d :
  match spo2 (latest_data d) with
  | Some v =>
      if spo2_valid (latest_data d) && ((70 <=? v) && (v <=? 100))
      then spo2_smoothing_buffer (admit_spo2 d)
           = deque_append smoothing_maxlen (spo2_smoothing_buffer d) v
      else admit_spo2 d = d
  | None => admit_spo2 d = d
  end.
Proof.
  unfold admit_spo2. destruct (spo2 (latest_data d)) as [v|]; [|reflexivity].
  destruct (spo2_valid (latest_data d)); [|reflexivity].
  cbn [andb]. destruct ((70 <=? v) && (v <=? 100)); reflexivity.
Qed.

Lemma in_range_true lo hi v :
  (lo <=? v) && (v <=? hi) = true <-> lo <= v <= hi.
Proof. rewrite andb_true_iff, !Z.leb_le. tauto. Qed.

Lemma field_after_carried {A : Type} data_dict key (conv : Z -> A) old text n :
  data_dict !! key = Some text -> Py.int text = Some n ->
  field_after data_dict key conv old = conv n.
Proof. unfold field_after. intros -> ->. reflexivity. Qed.

(** C2, as the code has it.  After an accepted frame that carries the
    heart-rate sample [v], the sample is appended to the history window, to
    its timestamps and to the heart-rate smoothing buffer when the
    heart-rate-valid flag then in force (the one of the frame, or else the
    one kept from earlier frames) is true and [40 <= v <= 200]; otherwise
    the three are left as they were.  Likewise an SpO2 sample [s] is
    appended to the SpO2 smoothing buffer when the SpO2-valid flag in force
    is true and [70 <= s <= 100], and the buffer is left as it was
    otherwise. *)
Theorem admission_iff now data_string d d' :
  parse_data now data_string d = (Ret true, d') ->
  (forall text v,
      data_dict_of data_string !! "HR" = Some text -> Py.int text = Some v ->
      ((hr_valid (latest_data d') = true /\ 40 <= v <= 200) ->
       hr_history d' = deque_append hr_history_maxlen (hr_history d) v
       /\ timestamp_history d'
          = deque_append hr_history_maxlen (timestamp_history d) (time_time now)
       /\ hr_smoothing_buffer d'
          = deque_append smoothing_maxlen (hr_smoothing_buffer d) v)
      /\ (~ (hr_valid (latest_data d') = true /\ 40 <= v <= 200) ->
          hr_history d' = hr_history d
          /\ timestamp_history d' = timestamp_history d
          /\ hr_smoothing_buffer d' = hr_smoothing_buffer d))
  /\ (forall text s,
         data_dict_of data_string !! "SPO2" = Some text -> Py.int text = Some s ->
         ((spo2_valid (latest_data d') = true /\ 70 <= s <= 100) ->
          spo2_smoothing_buffer d'
          = deque_append smoothing_maxlen (spo2_smoothing_buffer d) s)
         /\ (~ (spo2_valid (latest_data d') = true /\ 70 <= s <= 100) ->
             spo2_smoothing_buffer d' = spo2_smoothing_buffer d)).
Proof.
  intros Hrun. pose proof (parse_data_true _ _ _ _ Hrun) as Hv.
  rewrite (parse_data_valid _ _ _ Hv) in Hrun. injection Hrun as <-.
  set (d1 := set_latest_data _ d).
  rewrite fold_in_latest_data.
  split.
  - intros text v Hkey Hint.
    destruct (fold_in_hr_history now d1) as (-> & -> & ->).
    pose proof (admit_hr_cases now d1) as Hc.
    assert (Hhr : hr (latest_data d1) = Some v).
    { subst d1. cbn. now rewrite (field_after_carried _ _ _ _ _ _ Hkey Hint). }
    rewrite Hhr in Hc.
    destruct (hr_valid (latest_data d1)) eqn:Hflag; cbn [andb] in Hc.
    + destruct ((40 <=? v) && (v <=? 200)) eqn:Hr.
      * split; [intros _; exact Hc|].
        intros Hn. exfalso. apply Hn. split; [reflexivity|].
        now apply in_range_true.
      * rewrite Hc. split.
        -- intros [_ Hin]. apply in_range_true in Hin. congruence.
        -- intros _. repeat split; reflexivity.
    + rewrite Hc. split.
      * intros [Hf _]. discriminate Hf.
      * intros _. repeat split; reflexivity.
  - intros text s Hkey Hint.
    rewrite fold_in_spo2_buffer.
    pose proof (admit_spo2_cases (admit_hr now d1)) as Hc.
    destruct (admit_hr_frame now d1) as (Hl & Hb & _).
    rewrite Hl in Hc.
    change (spo2_smoothing_buffer d) with (spo2_smoothing_buffer d1).
    rewrite <- Hb.
    assert (Hs : spo2 (latest_data d1) = Some s).
    { subst d1. cbn. now rewrite (field_after_carried _ _ _ _ _ _ Hkey Hint). }
    rewrite Hs in Hc.
    destruct (spo2_valid (latest_data d1)) eqn:Hflag; cbn [andb] in Hc.
    + destruct ((70 <=? s) && (s <=? 100)) eqn:Hr.
      * split; [intros _; exact Hc|].
        intros Hn. exfalso. apply Hn. split; [reflexivity|].
        now apply in_range_true.
      * rewrite Hc. split.
        -- intros [_ Hin]. apply in_range_true in Hin. congruence.
        -- intros _. reflexivity.
    + rewrite Hc. split.
      * intros [Hf _]. discriminate Hf.
      * intros _. reflexivity.
Qed.

Lemma admission_iff_witness :
  hr_history (snd (parse_data noon "HR:72,HR_VALID:1,SPO2:98" fresh)) = [72]
  /\ spo2_smoothing_buffer (snd (parse_data noon "HR:72,HR_VALID:1,SPO2:98" fresh))
     = [].
Proof.
  assert (Hrun : parse_data noon "HR:72,HR_VALID:1,SPO2:98" fresh
                 = (Ret true, snd (parse_data noon "HR:72,HR_VALID:1,SPO2:98" fresh)))
    by (vm_compute; reflexivity).
  destruct (admission_iff _ _ _ _ Hrun) as [Hhr Hspo2].
  split.
  - destruct (Hhr "72" 72) as [Hin _]; [vm_compute; reflexivity ..|].
    destruct Hin as (-> & _).
    + split; [vm_compute; reflexivity | lia].
    + reflexivity.
  - destruct (Hspo2 "98" 98) as [_ Hout]; [vm_compute; reflexivity ..|].
    rewrite Hout; [reflexivity|].
    intros [Hflag _]. vm_compute in Hflag. discriminate.
Defined.

(** C2 as stated fails: a sample within the range does not enter the
    window while the heart-rate-valid flag is false. *)
Lemma admission_needs_valid_flag :
  ~ (forall now data_string d d' text v,
        reachable d ->
        parse_data now data_string d = (Ret true, d') ->
        data_dict_of data_string !! "HR" = Some text -> Py.int text = Some v ->
        40 <= v <= 200 ->
        hr_history d' = deque_append hr_history_maxlen (hr_history d) v).
Proof.
  intros H.
  assert (Hrun : parse_data noon "HR:72" fresh
                 = (Ret true, snd (parse_data noon "HR:72" fresh)))
    by (vm_compute; reflexivity).
  assert (Hkey : data_dict_of "HR:72" !! "HR" = Some "72")
    by (vm_compute; reflexivity).
  assert (Hint : Py.int "72" = Some 72) by (vm_compute; reflexivity).
  assert (Hrange : 40 <= 72 <= 200) by lia.
  specialize (H _ _ _ _ _ _ (reachable_init _ _ _) Hrun Hkey Hint Hrange).
  vm_compute in H. discriminate H.
Qed.

(** ** Decode failures (C3) *)

(** A refused frame: the device differs from the earlier one by the
    fields of the latest reading assigned before the refusal. *)
Lemma parse_data_refused now data_string d :
  valid_frame data_string = false ->
  exists k,
    parse_data now data_string d
    = (Ret false,
       set_latest_data
         (partial_latest k (data_dict_of data_string) (latest_data d)) d).
Proof.
  intros Hv. destruct (first_bad_invalid _ Hv) as [k Hk].
  exists k. rewrite parse_data_run, Hk. reflexivity.
Qed.




(** ** The median and the mean of numpy *)

Lemma sumQ_inject_Z l :
  Np.sumQ (map inject_Z l) = inject_Z (fold_right Z.add 0 l).
Proof.
  induction l as [|x l IH]; [reflexivity|].
  cbn [map Np.sumQ fold_right]. fold (Np.sumQ (map inject_Z l)). rewrite IH.
  unfold Qplus, inject_Z. cbn. f_equal. lia.
Qed.

(** [np.mean] is the arithmetic mean. *)
Lemma mean_arithmetic l : Np.mean l = arithmetic_mean l.
Proof.
  unfold Np.mean, Np.meanQ, arithmetic_mean.
  rewrite sumQ_inject_Z, length_map. reflexivity.
Qed.

Lemma mean_singleton x : (Np.mean [x] == inject_Z x)%Q.
Proof.
  unfold Np.mean, Np.meanQ. cbn [map length].
  change (Z.of_nat 1) with 1. unfold Qeq. cbn. lia.
Qed.

Lemma mean_pair_between a b :
  a <= b -> (inject_Z a <= Np.mean [a; b])%Q /\ (Np.mean [a; b] <= inject_Z b)%Q.
Proof.
  intros H. unfold Np.mean, Np.meanQ. cbn [map length].
  change (Z.of_nat 2) with 2. unfold Qle. cbn. lia.
Qed.

Section SortedCount.
Context (s : list Z) (Hs : StronglySorted Z.le s).

Lemma sorted_around k x :
  s !! k = Some x ->
  Forall (fun y => y <= x) (take (S k) s) /\ Forall (fun y => x <= y) (drop k s).
Proof using Hs.
  intros Hk. pose proof Hs as Hs'.
  rewrite <- (take_drop_middle _ _ _ Hk) in Hs'.
  apply StronglySorted_app in Hs' as (Hcross & _ & Hright).
  apply StronglySorted_cons in Hright as [Hright _].
  rewrite (take_S_r _ _ _ Hk), (drop_S _ _ _ Hk). split.
  - apply Forall_app. split; [|repeat constructor; lia].
    apply Forall_forall. intros y Hy. apply (Hcross y x Hy). left.
  - constructor; [lia | exact Hright].
Qed.

Lemma filter_all (P : Z -> Prop) `{!forall x, Decision (P x)} (l : list Z) :
  Forall P l -> filter P l = l.
Proof.
  induction 1 as [|x l Hx _ IH]; [reflexivity|].
  rewrite filter_cons_True by assumption. now rewrite IH.
Qed.

Lemma count_le_rank m k x :
  s !! k = Some x -> (inject_Z x <= m)%Q -> (S k <= count_le m s)%nat.
Proof using Hs.
  intros Hk Hm. destruct (sorted_around k x Hk) as [Hleft _].
  unfold count_le. rewrite <- (take_drop (S k) s) at 1.
  rewrite filter_app, length_app, filter_all.
  - rewrite length_take. apply lookup_lt_Some in Hk. lia.
  - eapply Forall_impl; [exact Hleft|].
    intros y Hy. apply Is_true_true, Qle_bool_iff.
    apply Qle_trans with (inject_Z x); [|exact Hm].
    now rewrite <- Zle_Qle.
Qed.

Lemma count_ge_rank m k x :
  s !! k = Some x -> (m <= inject_Z x)%Q -> (length s - k <= count_ge m s)%nat.
Proof using Hs.
  intros Hk Hm. destruct (sorted_around k x Hk) as [_ Hright].
  unfold count_ge. rewrite <- (take_drop k s) at 2.
  rewrite filter_app, length_app, (filter_all _ (drop k s)).
  - rewrite length_drop. lia.
  - eapply Forall_impl; [exact Hright|].
    intros y Hy. apply Is_true_true, Qle_bool_iff.
    apply Qle_trans with (inject_Z x); [exact Hm|].
    now rewrite <- Zle_Qle.
Qed.
End SortedCount.

Lemma sort_sorted l : StronglySorted Z.le (Np.sort l).
Proof. apply StronglySorted_merge_sort; apply _. Qed.

Lemma sort_length l : length (Np.sort l) = length l.
Proof. apply Permutation_length, merge_sort_Permutation. Qed.

Lemma count_le_sort m l : count_le m (Np.sort l) = count_le m l.
Proof.
  unfold count_le, Np.sort.
  apply Permutation_length, filter_Permutation, merge_sort_Permutation.
Qed.

Lemma count_ge_sort m l : count_ge m (Np.sort l) = count_ge m l.
Proof.
  unfold count_ge, Np.sort.
  apply Permutation_length, filter_Permutation, merge_sort_Permutation.
Qed.

Lemma count_le_Qeq m m' l : (m == m')%Q -> count_le m l = count_le m' l.
Proof.
  intros E. unfold count_le. f_equal. apply list_filter_iff. intros x.
  rewrite !Is_true_true, !Qle_bool_iff, E. reflexivity.
Qed.

Lemma count_ge_Qeq m m' l : (m == m')%Q -> count_ge m l = count_ge m' l.
Proof.
  intros E. unfold count_ge. f_equal. apply list_filter_iff. intros x.
  rewrite !Is_true_true, !Qle_bool_iff, E. reflexivity.
Qed.

Lemma sort_nth l k :
  (k < length l)%nat -> Np.sort l !! k = Some (List.nth k (Np.sort l) 0).
Proof.
  intros Hk. destruct (nth_lookup_or_length (Np.sort l) k 0) as [H|H]; [exact H|].
  rewrite sort_length in H. lia.
Qed.

(** What [np.median] returns is a median. *)
Lemma median_is_median l : l <> [] -> is_median (Np.median l) l.
Proof.
  intros Hne.
  assert (Hlen : (0 < length l)%nat) by (destruct l; [congruence | cbn; lia]).
  pose proof (sort_sorted l) as Hs.
  unfold is_median, Np.median.
  rewrite <- (count_le_sort _ l), <- (count_ge_sort _ l).
  destruct (Nat.even (length l)) eqn:Hpar.
  - apply Nat.even_spec in Hpar as [k Hk].
    assert (Hdiv : (length l / 2 = k)%nat)
      by (rewrite Hk, Nat.mul_comm; apply Nat.div_mul; lia).
    rewrite Hdiv.
    pose proof (sort_nth l (k - 1) ltac:(lia)) as Ha.
    pose proof (sort_nth l k ltac:(lia)) as Hb.
    set (a := List.nth (k - 1) (Np.sort l) 0) in *.
    set (b := List.nth k (Np.sort l) 0) in *.
    assert (Hab : a <= b).
    { destruct (sorted_around _ Hs k b Hb) as [Hleft _].
      rewrite Forall_forall in Hleft. apply Hleft.
      apply list_elem_of_lookup. exists (k - 1)%nat.
      rewrite lookup_take_lt by lia. exact Ha. }
    destruct (mean_pair_between a b Hab) as [Hlo Hhi].
    pose proof (count_le_rank _ Hs _ _ _ Ha Hlo).
    pose proof (count_ge_rank _ Hs _ _ _ Hb Hhi).
    rewrite sort_length in *. lia.
  - assert (Hodd : Nat.odd (length l) = true)
      by (rewrite <- Nat.negb_even, Hpar; reflexivity).
    apply Nat.odd_spec in Hodd as [k Hk].
    assert (Hdiv : (length l / 2 = k)%nat).
    { rewrite Hk. symmetry. apply (Nat.div_unique _ 2 k 1); lia. }
    rewrite Hdiv.
    pose proof (sort_nth l k ltac:(lia)) as Hx.
    set (x := List.nth k (Np.sort l) 0) in *.
    rewrite (count_le_Qeq _ _ _ (mean_singleton x)).
    rewrite (count_ge_Qeq _ _ _ (mean_singleton x)).
    pose proof (count_le_rank _ Hs _ _ _ Hx (Qle_refl _)).
    pose proof (count_ge_rank _ Hs _ _ _ Hx (Qle_refl _)).
    rewrite sort_length in *. lia.
Qed.

(** ** Smoothing of the heart rate (C4) *)

Lemma reachable_run cs d : reachable d -> reachable (run cs d).
Proof.
  revert d. induction cs as [|c cs IH]; intros d Hd; [exact Hd|].
  cbn. apply IH, reachable_exec, Hd.
Qed.

Lemma deque_append_nonempty {A : Type} maxlen (q : list A) x :
  (0 < maxlen)%nat -> deque_append maxlen q x <> [].
Proof.
  intros Hpos. unfold deque_append.
  destruct (Nat.ltb_spec maxlen (length (q ++ [x]))) as [H|H].
  - destruct q as [|y q]; cbn in *; [lia | destruct q; discriminate].
  - destruct q; discriminate.
Qed.

Lemma smoothed_hr_cases d :
  smoothed_hr (calculate_smoothed_values d) =
  if (3 <=? length (hr_smoothing_buffer d))%nat
  then Some (int_of_float (Np.median (hr_smoothing_buffer d)))
  else if (0 <? length (hr_smoothing_buffer d))%nat
       then Some (int_of_float (Np.mean (hr_smoothing_buffer d)))
       else smoothed_hr d.
Proof. unfold calculate_smoothed_values. repeat case_match; reflexivity. Qed.

Lemma admit_hr_buffer_empty now d :
  hr_smoothing_buffer (admit_hr now d) = [] -> hr_smoothing_buffer d = [].
Proof.
  pose proof (admit_hr_cases now d) as Hc.
  destruct (hr (latest_data d)) as [v|]; [|rewrite Hc; auto].
  destruct (hr_valid (latest_data d) && ((40 <=? v) && (v <=? 200)));
    [|rewrite Hc; auto].
  destruct Hc as (_ & _ & ->). intros E.
  apply deque_append_nonempty in E; [contradiction | cbv; lia].
Qed.

(** On every device a program can hold, no smoothed heart rate is present
    while the heart-rate smoothing buffer is empty. *)
Lemma reachable_empty_buffer d :
  reachable d -> hr_smoothing_buffer d = [] -> smoothed_hr d = None.
Proof.
  induction 1 as [id nm mac | c d Hd IH]; [reflexivity|].
  destruct c as [now data_string | bt | bt | | ]; cbn [exec].
  - rewrite parse_data_run.
    destruct (first_bad (data_dict_of data_string)) as [k|]; cbn [snd].
    + exact IH.
    + set (d1 := set_latest_data _ d).
      destruct (fold_in_hr_history now d1) as (_ & _ & ->). intros E.
      unfold fold_in.
      destruct (calculate_metrics_frame
                  (calculate_smoothed_values (admit_spo2 (admit_hr now d1))))
        as (_ & _ & _ & _ & _ & -> & _).
      rewrite smoothed_hr_cases.
      destruct (admit_spo2_frame (admit_hr now d1)) as (_ & _ & _ & -> & -> & _).
      rewrite E. cbn.
      destruct (admit_hr_frame now d1) as (_ & _ & -> & _).
      apply IH. apply (admit_hr_buffer_empty now d1 E).
  - destruct (connect_frame bt d) as (_ & -> & _ & -> & _). exact IH.
  - destruct (disconnect_frame bt d) as (_ & -> & _ & -> & _). exact IH.
  - destruct (calculate_smoothed_values_frame d) as (_ & _ & _ & -> & _).
    intros E. rewrite smoothed_hr_cases, E. cbn. apply IH, E.
  - destruct (calculate_metrics_frame d) as (_ & _ & _ & -> & _ & -> & _).
    exact IH.
Qed.

(** C4, as the code has it.  With at least 3 samples in the buffer the
    smoothed heart rate is a median of the buffer (the middle sample, or the
    mean of the two middle samples) truncated to an integer; with 1 or 2
    samples it is the arithmetic mean truncated to an integer; with an empty
    buffer the smoothed value is left as it was, and on every device a
    program can hold there is then no smoothed value.  The samples 72, 75,
    200, 74, 73 offered to a new device give the smoothed values 72, 73,
    75, 74 and finally 74. *)
Theorem smoothed_hr_policy d :
  let b := hr_smoothing_buffer d in
  let d' := calculate_smoothed_values d in
  ((3 <= length b)%nat ->
   is_median (Np.median b) b
   /\ smoothed_hr d' = Some (int_of_float (Np.median b)))
  /\ ((1 <= length b <= 2)%nat ->
      smoothed_hr d' = Some (int_of_float (arithmetic_mean b)))
  /\ (b = [] -> smoothed_hr d' = smoothed_hr d)
  /\ (reachable d -> b = [] -> smoothed_hr d = None /\ smoothed_hr d' = None)
  /\ map (fun k => smoothed_hr (feed noon (take k outlier_frames) fresh))
       [1; 2; 3; 4; 5]%nat
     = [Some 72; Some 73; Some 75; Some 74; Some 74]
  /\ hr_smoothing_buffer (feed noon outlier_frames fresh) = [72; 75; 200; 74; 73].
Proof.
  intros b d'. subst d'. rewrite smoothed_hr_cases. fold b.
  split; [|split; [|split; [|split; [|split]]]].
  - intros H. split.
    + apply median_is_median. intros E. rewrite E in H. cbn in H. lia.
    + destruct (Nat.leb_spec 3 (length b)); [reflexivity | lia].
  - intros [Hlo Hhi].
    destruct (Nat.leb_spec 3 (length b)); [lia|].
    destruct (Nat.ltb_spec 0 (length b)); [|lia].
    rewrite mean_arithmetic. reflexivity.
  - intros E. rewrite E. reflexivity.
  - intros Hd E. rewrite E. cbn. split; apply (reachable_empty_buffer d Hd E).
  - vm_compute. reflexivity.
  - vm_compute. reflexivity.
Qed.

Lemma smoothed_hr_policy_witness :
  smoothed_hr (calculate_smoothed_values (feed noon (take 2 outlier_frames) fresh))
  = Some (int_of_float
            (arithmetic_mean
               (hr_smoothing_buffer (feed noon (take 2 outlier_frames) fresh))))
  /\ smoothed_hr (calculate_smoothed_values (feed noon outlier_frames fresh))
     = Some (int_of_float
               (Np.median (hr_smoothing_buffer (feed noon outlier_frames fresh))))
  /\ smoothed_hr (calculate_smoothed_values unconfigured) = smoothed_hr unconfigured
  /\ smoothed_hr (calculate_smoothed_values (exec (ParseData noon "HR:72") fresh))
     = None.
Proof.
  split; [|split; [|split]].
  - destruct (smoothed_hr_policy (feed noon (take 2 outlier_frames) fresh))
      as (_ & Hmean & _).
    apply Hmean. vm_compute. lia.
  - destruct (smoothed_hr_policy (feed noon outlier_frames fresh))
      as (Hmedian & _).
    apply Hmedian. vm_compute. lia.
  - destruct (smoothed_hr_policy unconfigured) as (_ & _ & Hempty & _).
    apply Hempty. reflexivity.
  - destruct (smoothed_hr_policy (exec (ParseData noon "HR:72") fresh))
      as (_ & _ & _ & Hnone & _).
    apply Hnone.
    + apply reachable_exec, reachable_init.
    + vm_compute. reflexivity.
Defined.

(** C4 as stated fails: with the two samples 72 and 75 the smoothed value
    is 73, not their arithmetic mean 73.5. *)
Lemma smoothed_hr_is_truncated :
  ~ (forall d z,
        reachable d ->
        (1 <= length (hr_smoothing_buffer d) <= 2)%nat ->
        smoothed_hr d = Some z ->
        (inject_Z z == arithmetic_mean (hr_smoothing_buffer d))%Q).
Proof.
  intros H.
  assert (Hlen : (1 <= length (hr_smoothing_buffer
                                 (feed noon (take 2 outlier_frames) fresh)) <= 2)%nat)
    by (vm_compute; lia).
  assert (Hz : smoothed_hr (feed noon (take 2 outlier_frames) fresh) = Some 73)
    by (vm_compute; reflexivity).
  specialize (H _ _ (reachable_run _ _ (reachable_init _ _ _)) Hlen Hz).
  vm_compute in H. discriminate H.
Qed.

(** ** numpy's floats as reals *)

Lemma Q2R_inject_Z z : Q2R (inject_Z z) = IZR z.
Proof. unfold Q2R, inject_Z. cbn. rewrite Rinv_1. apply Rmult_1_r. Qed.

Lemma Q2R_sumQ l : Q2R (Np.sumQ l) = sumR (map Q2R l).
Proof.
  induction l as [|q l IH]; cbn [Np.sumQ map sumR fold_right].
  - apply RMicromega.Q2R_0.
  - fold (Np.sumQ l). fold (sumR (map Q2R l)). rewrite Q2R_plus, IH. reflexivity.
Qed.

Lemma Q2R_meanQ l :
  l <> [] -> Q2R (Np.meanQ l) = (sumR (map Q2R l) / INR (length l))%R.
Proof.
  intros Hne. unfold Np.meanQ. rewrite Q2R_div.
  - rewrite Q2R_sumQ, Q2R_inject_Z, <- INR_IZR_INZ. reflexivity.
  - destruct l as [|q l]; [congruence|].
    unfold Qeq. cbn [length]. cbn. lia.
Qed.

Lemma Q2R_mean w : w <> [] -> Q2R (Np.mean w) = mean_R w.
Proof.
  intros Hne. unfold Np.mean, mean_R. rewrite Q2R_meanQ.
  - rewrite map_map, length_map. f_equal. f_equal.
    apply map_ext. intros x. apply Q2R_inject_Z.
  - destruct w; [congruence | discriminate].
Qed.

Lemma Q2R_var w : w <> [] -> Q2R (Np.var w) = (sum_sq_dev w / INR (length w))%R.
Proof.
  intros Hne. unfold Np.var, sum_sq_dev. rewrite Q2R_meanQ.
  - rewrite map_map, length_map. f_equal. f_equal.
    apply map_ext. intros x.
    rewrite Q2R_mult, Q2R_minus, Q2R_inject_Z, (Q2R_mean w Hne). reflexivity.
  - destruct w; [congruence | discriminate].
Qed.

(** [np.std] is the population standard deviation. *)
Lemma std_population w : w <> [] -> Np.std w = population_std w.
Proof.
  intros Hne. unfold Np.std, Np.sqrt, population_std.
  rewrite (Q2R_var w Hne). reflexivity.
Qed.

Lemma sqrt_zero q : (q == 0)%Q -> Np.sqrt q = 0%R.
Proof.
  intros E. unfold Np.sqrt. rewrite (Qeq_eqR _ _ E), RMicromega.Q2R_0.
  apply sqrt_0.
Qed.

(** ** The metrics (C5, C6) *)

Lemma nonempty_of_length (w : list Z) : (2 <= length w)%nat -> w <> [].
Proof. destruct w; cbn; [lia | congruence]. Qed.

Lemma calculate_metrics_short d :
  (length (hr_history d) < 2)%nat -> calculate_metrics d = d.
Proof.
  intros H. unfold calculate_metrics.
  destruct (Nat.ltb_spec (length (hr_history d)) 2); [reflexivity | lia].
Qed.

Lemma calculate_metrics_full d :
  (2 <= length (hr_history d))%nat ->
  let m := metrics (calculate_metrics d) in
  bpm m = Some (Np.mean (hr_history d))
  /\ ipm m = Some (Np.mean (hr_history d))
  /\ hrstd m = Some (Np.std (hr_history d))
  /\ rmssd m = Some (Np.sqrt (Np.mean (Np.square (Np.diff (hr_history d)))))
  /\ avg_spo2 m =
     match spo2 (latest_data d) with
     | Some s => if spo2_valid (latest_data d) then Some s
                 else avg_spo2 (metrics d)
     | None => avg_spo2 (metrics d)
     end.
Proof.
  intros H. unfold calculate_metrics.
  destruct (Nat.ltb_spec (length (hr_history d)) 2); [lia|].
  destruct (Nat.leb_spec 2 (length (hr_history d))); [|lia].
  destruct (spo2 (latest_data d)); [destruct (spo2_valid (latest_data d))|];
    cbn; repeat split; reflexivity.
Qed.

(** The metrics of the device after an accepted frame are those of
    [calculate_metrics] on a device with the same window. *)
Lemma fold_in_metrics now d :
  exists d1,
    fold_in now d = calculate_metrics d1
    /\ hr_history d1 = hr_history (fold_in now d)
    /\ latest_data d1 = latest_data d
    /\ metrics d1 = metrics d.
Proof.
  exists (calculate_smoothed_values (admit_spo2 (admit_hr now d))).
  split; [reflexivity|].
  destruct (calculate_metrics_frame
              (calculate_smoothed_values (admit_spo2 (admit_hr now d))))
    as (_ & Hh & _).
  destruct (calculate_smoothed_values_frame (admit_spo2 (admit_hr now d)))
    as (Hl & _ & _ & _ & _ & Hm).
  destruct (admit_spo2_frame (admit_hr now d)) as (Hl2 & _ & _ & _ & _ & _ & Hm2).
  destruct (admit_hr_frame now d) as (Hl3 & _ & _ & _ & Hm3).
  unfold fold_in. rewrite Hh. split; [reflexivity|]. split; congruence.
Qed.

Lemma admit_hr_history_length now d :
  (length (hr_history d) <= length (hr_history (admit_hr now d)))%nat.
Proof.
  pose proof (admit_hr_cases now d) as Hc.
  destruct (hr (latest_data d)) as [v|]; [|rewrite Hc; lia].
  destruct (hr_valid (latest_data d) && ((40 <=? v) && (v <=? 200))).
  - destruct Hc as (-> & _). apply deque_append_length.
  - rewrite Hc. lia.
Qed.

(** On every device a program can hold, the metrics are all absent while
    the history window has fewer than 2 samples. *)
Lemma reachable_metrics_unset d :
  reachable d ->
  (length (hr_history d) < 2)%nat ->
  metrics d = mkMetrics None None None None None.
Proof.
  induction 1 as [id nm mac | c d Hd IH]; [reflexivity|].
  destruct c as [now data_string | bt | bt | | ]; cbn [exec].
  - rewrite parse_data_run.
    destruct (first_bad (data_dict_of data_string)) as [k|]; cbn [snd].
    + exact IH.
    + set (d1 := set_latest_data _ d).
      pose proof (admit_hr_history_length now d1) as Hle.
      destruct (fold_in_hr_history now d1) as (Hf & _).
      rewrite <- Hf in Hle. change (hr_history d1) with (hr_history d) in Hle.
      destruct (fold_in_metrics now d1) as (d2 & E & Hh & _ & Hm).
      intros Hlen. rewrite E.
      rewrite calculate_metrics_short by (rewrite Hh; exact Hlen).
      rewrite Hm. apply IH. exact (Nat.le_lt_trans _ _ _ Hle Hlen).
  - destruct (connect_frame bt d) as (-> & _ & _ & _ & _ & ->). exact IH.
  - destruct (disconnect_frame bt d) as (-> & _ & _ & _ & _ & ->). exact IH.
  - destruct (calculate_smoothed_values_frame d) as (_ & -> & _ & _ & _ & ->).
    exact IH.
  - destruct (calculate_metrics_frame d) as (_ & -> & _). intros Hlen.
    rewrite calculate_metrics_short by exact Hlen. apply IH, Hlen.
Qed.

(** The metrics after an accepted frame that leaves at least 2 samples in
    the window. *)
Lemma parse_data_metrics now data_string d d' :
  parse_data now data_string d = (Ret true, d') ->
  (2 <= length (hr_history d'))%nat ->
  bpm (metrics d') = Some (Np.mean (hr_history d'))
  /\ ipm (metrics d') = Some (Np.mean (hr_history d'))
  /\ hrstd (metrics d') = Some (Np.std (hr_history d'))
  /\ rmssd (metrics d')
     = Some (Np.sqrt (Np.mean (Np.square (Np.diff (hr_history d')))))
  /\ avg_spo2 (metrics d') =
     match spo2 (latest_data d') with
     | Some s => if spo2_valid (latest_data d') then Some s
                 else avg_spo2 (metrics d)
     | None => avg_spo2 (metrics d)
     end.
Proof.
  intros Hrun Hlen. pose proof (parse_data_true _ _ _ _ Hrun) as Hv.
  rewrite (parse_data_valid _ _ _ Hv) in Hrun. injection Hrun as <-.
  set (d1 := set_latest_data _ d) in *.
  rewrite fold_in_latest_data.
  destruct (fold_in_metrics now d1) as (d2 & E & Hh & Hl & Hm).
  rewrite <- Hh in *. rewrite E. rewrite <- Hl.
  change (metrics d) with (metrics d1). rewrite <- Hm.
  apply calculate_metrics_full. exact Hlen.
Qed.

(** The metrics after an accepted frame that leaves fewer than 2 samples
    in the window: untouched. *)
Lemma parse_data_metrics_short now data_string d d' :
  parse_data now data_string d = (Ret true, d') ->
  (length (hr_history d') < 2)%nat ->
  metrics d' = metrics d.
Proof.
  intros Hrun Hlen. pose proof (parse_data_true _ _ _ _ Hrun) as Hv.
  rewrite (parse_data_valid _ _ _ Hv) in Hrun. injection Hrun as <-.
  set (d1 := set_latest_data _ d) in *.
  destruct (fold_in_metrics now d1) as (d2 & E & Hh & Hl & Hm).
  rewrite <- Hh in Hlen. rewrite E.
  rewrite calculate_metrics_short by exact Hlen. exact Hm.
Qed.


Lemma steady_history_statistics :
  Qeq (Np.mean [60; 60; 60; 60]) (inject_Z 60)
  /\ Qeq (Np.var [60; 60; 60; 60]) (inject_Z 0)
  /\ Qeq (Np.mean (Np.square (Np.diff [60; 60; 60; 60]))) (inject_Z 0).
Proof. repeat split; vm_compute; reflexivity. Qed.

(** C5.  With the history window [60, 60, 60, 60] the mean heart rate is
    60 and the standard deviation and the RMSSD are 0, whether the window
    is given or built by four frames on a new device; and on every device a
    program can hold, the mean, its alias, the standard deviation and the
    RMSSD are absent while the window has fewer than 2 samples. *)
Theorem metrics_steady_and_unset d :
  (hr_history d = [60; 60; 60; 60] ->
   exists q,
     bpm (metrics (calculate_metrics d)) = Some q /\ Qeq q (inject_Z 60)
     /\ ipm (metrics (calculate_metrics d)) = Some q
     /\ hrstd (metrics (calculate_metrics d)) = Some 0%R
     /\ rmssd (metrics (calculate_metrics d)) = Some 0%R)
  /\ (let dev := feed noon steady_frames fresh in
      hr_history dev = [60; 60; 60; 60]
      /\ exists q,
          bpm (metrics dev) = Some q /\ Qeq q (inject_Z 60)
          /\ hrstd (metrics dev) = Some 0%R
          /\ rmssd (metrics dev) = Some 0%R)
  /\ (reachable d -> (length (hr_history d) < 2)%nat ->
      bpm (metrics d) = None /\ ipm (metrics d) = None
      /\ hrstd (metrics d) = None /\ rmssd (metrics d) = None).
Proof.
  destruct steady_history_statistics as (Hmean & Hvar & Hdiff).
  split; [|split].
  - intros Hh.
    destruct (calculate_metrics_full d) as (Hb & Hi & Hs & Hr & _);
      [rewrite Hh; cbn; lia|].
    rewrite Hh in Hb, Hi, Hs, Hr.
    exists (Np.mean [60; 60; 60; 60]). repeat split; try assumption.
    + rewrite Hs. f_equal. apply sqrt_zero, Hvar.
    + rewrite Hr. f_equal. apply sqrt_zero, Hdiff.
  - intros dev.
    assert (Hh : hr_history dev = [60; 60; 60; 60]) by (vm_compute; reflexivity).
    assert (Hrun : parse_data noon "HR:60" (feed noon (take 3 steady_frames) fresh)
                   = (Ret true, dev)) by (vm_compute; reflexivity).
    split; [exact Hh|].
    destruct (parse_data_metrics _ _ _ _ Hrun) as (Hb & _ & Hs & Hr & _);
      [rewrite Hh; cbn; lia|].
    rewrite Hh in Hb, Hs, Hr.
    exists (Np.mean [60; 60; 60; 60]). repeat split; try assumption.
    + rewrite Hs. f_equal. apply sqrt_zero, Hvar.
    + rewrite Hr. f_equal. apply sqrt_zero, Hdiff.
  - intros Hd Hlen. rewrite (reachable_metrics_unset d Hd Hlen).
    repeat split; reflexivity.
Qed.

Lemma metrics_steady_and_unset_witness :
  (exists q,
      bpm (metrics (calculate_metrics (feed noon steady_frames fresh))) = Some q
      /\ Qeq q (inject_Z 60))
  /\ hrstd (metrics (exec (ParseData noon "HR:60,HR_VALID:1") fresh)) = None.
Proof.
  split.
  - destruct (metrics_steady_and_unset (feed noon steady_frames fresh))
      as (Hgiven & _ & _).
    destruct Hgiven as (q & Hq & Hq60 & _); [vm_compute; reflexivity|].
    exists q. split; assumption.
  - destruct (metrics_steady_and_unset
                (exec (ParseData noon "HR:60,HR_VALID:1") fresh))
      as (_ & _ & Hunset).
    apply Hunset.
    + apply reachable_exec, reachable_init.
    + vm_compute. lia.
Defined.

(** C6, as the code has it.  With [n >= 2] samples in the history window,
    [hrstd] is the population standard deviation of the window: the square
    root of the sum of the squared deviations from the mean divided by [n]
    ([np.std] with its default [ddof = 0]), both for [calculate_metrics] on
    any device and after every accepted frame. *)
Theorem hrstd_population now data_string d d' :
  ((2 <= length (hr_history d))%nat ->
   hrstd (metrics (calculate_metrics d)) = Some (population_std (hr_history d)))
  /\ (parse_data now data_string d = (Ret true, d') ->
      (2 <= length (hr_history d'))%nat ->
      hrstd (metrics d') = Some (population_std (hr_history d'))).
Proof.
  split.
  - intros Hlen.
    destruct (calculate_metrics_full d Hlen) as (_ & _ & -> & _).
    rewrite std_population by (apply nonempty_of_length, Hlen). reflexivity.
  - intros Hrun Hlen.
    destruct (parse_data_metrics _ _ _ _ Hrun Hlen) as (_ & _ & -> & _).
    rewrite std_population by (apply nonempty_of_length, Hlen). reflexivity.
Qed.

Lemma hrstd_population_witness :
  hrstd (metrics (calculate_metrics (feed noon steady_frames fresh)))
  = Some (population_std (hr_history (feed noon steady_frames fresh))).
Proof.
  destruct (hrstd_population noon "" (feed noon steady_frames fresh) fresh)
    as [Hcalc _].
  apply Hcalc. vm_compute. lia.
Defined.

Lemma deviations_60_62 : sum_sq_dev [60; 62] = 2%R.
Proof.
  unfold sum_sq_dev, mean_R, sumR. cbn [map fold_right length INR]. field.
Qed.

(** C6 as stated fails: with the window [60, 62] the code stores 1, the
    population standard deviation, and the sample standard deviation is
    the square root of 2. *)
Lemma hrstd_not_sample_std :
  ~ (forall now data_string d d',
        reachable d ->
        parse_data now data_string d = (Ret true, d') ->
        (2 <= length (hr_history d'))%nat ->
        hrstd (metrics d') = Some (sample_std (hr_history d'))).
Proof.
  intros H.
  pose (d := exec (ParseData noon "HR:60,HR_VALID:1") fresh).
  assert (Hrun : parse_data noon "HR:62" d
                 = (Ret true, snd (parse_data noon "HR:62" d)))
    by (vm_compute; reflexivity).
  assert (Hh : hr_history (snd (parse_data noon "HR:62" d)) = [60; 62])
    by (vm_compute; reflexivity).
  assert (Hlen : (2 <= length (hr_history (snd (parse_data noon "HR:62" d))))%nat)
    by (rewrite Hh; cbn; lia).
  specialize (H _ _ _ _ (reachable_exec _ _ (reachable_init _ _ _)) Hrun Hlen).
  destruct (parse_data_metrics _ _ _ _ Hrun Hlen) as (_ & _ & Hs & _).
  rewrite Hs in H. injection H as H. rewrite Hh in H.
  rewrite std_population in H by discriminate.
  unfold population_std, sample_std in H.
  rewrite deviations_60_62 in H. cbn [length INR] in H.
  apply sqrt_inj in H; lra.
Qed.

(** ** The SpO2 passthrough (C7) *)

(** On a new device the frame "SPO2:98,SPO2_VALID:1" is accepted, 98 is the
    latest valid SpO2 reading and enters the SpO2 smoothing buffer, yet
    [avg_spo2] stays absent; with 2 samples in the window the same frame
    sets [avg_spo2] to 98. *)
Example avg_spo2_on_new_device :
  let d' := snd (parse_data noon "SPO2:98,SPO2_VALID:1" fresh) in
  let warm := feed noon (take 2 steady_frames) fresh in
  fst (parse_data noon "SPO2:98,SPO2_VALID:1" fresh) = Ret true
  /\ spo2 (latest_data d') = Some 98
  /\ spo2_valid (latest_data d') = true
  /\ spo2_smoothing_buffer d' = [98]
  /\ smoothed_spo2 d' = Some 98
  /\ avg_spo2 (metrics d') = None
  /\ avg_spo2 (metrics (snd (parse_data noon "SPO2:98,SPO2_VALID:1" warm)))
     = Some 98.
Proof. repeat split; vm_compute; reflexivity. Qed.

(** C7, as the code has it.  After an accepted frame that carries a valid
    SpO2 sample, [avg_spo2] is that sample when the history window then
    holds at least 2 heart-rate samples, and is left as it was (absent on a
    new device) while the window holds fewer: [calculate_metrics] returns
    before the passthrough.  The passthrough takes the latest reading only,
    not a window of SpO2 values. *)
Theorem avg_spo2_passthrough now data_string d d' text s :
  parse_data now data_string d = (Ret true, d') ->
  data_dict_of data_string !! "SPO2" = Some text -> Py.int text = Some s ->
  spo2_valid (latest_data d') = true ->
  avg_spo2 (metrics d')
  = if (2 <=? length (hr_history d'))%nat then Some s else avg_spo2 (metrics d).
Proof.
  intros Hrun Hkey Hint Hflag.
  assert (Hs : spo2 (latest_data d') = Some s).
  { pose proof (parse_data_true _ _ _ _ Hrun) as Hv.
    pose proof Hrun as Hrun'.
    rewrite (parse_data_valid _ _ _ Hv) in Hrun'. injection Hrun' as <-.
    rewrite fold_in_latest_data. cbn.
    apply (field_after_carried _ _ _ _ _ _ Hkey Hint). }
  destruct (Nat.leb_spec 2 (length (hr_history d'))) as [Hlen|Hlen].
  - destruct (parse_data_metrics _ _ _ _ Hrun Hlen) as (_ & _ & _ & _ & ->).
    rewrite Hs, Hflag. reflexivity.
  - rewrite (parse_data_metrics_short _ _ _ _ Hrun Hlen). reflexivity.
Qed.

Lemma avg_spo2_passthrough_witness :
  avg_spo2
    (metrics
       (snd (parse_data noon "SPO2:98,SPO2_VALID:1"
               (feed noon (take 2 steady_frames) fresh))))
  = Some 98.
Proof.
  assert (Hrun : parse_data noon "SPO2:98,SPO2_VALID:1"
                   (feed noon (take 2 steady_frames) fresh)
                 = (Ret true,
                    snd (parse_data noon "SPO2:98,SPO2_VALID:1"
                           (feed noon (take 2 steady_frames) fresh))))
    by (vm_compute; reflexivity).
  rewrite (avg_spo2_passthrough _ _ _ _ "98" 98 Hrun);
    [vm_compute; reflexivity | vm_compute; reflexivity ..].
Defined.

(** C7 as stated fails: on a new device a valid SpO2 sample within the
    range is accepted and [avg_spo2] stays absent. *)
Lemma avg_spo2_waits_for_history :
  ~ (forall now data_string d d' text s,
        reachable d ->
        parse_data now data_string d = (Ret true, d') ->
        data_dict_of data_string !! "SPO2" = Some text -> Py.int text = Some s ->
        spo2_valid (latest_data d') = true ->
        70 <= s <= 100 ->
        avg_spo2 (metrics d') = Some s).
Proof.
  intros H.
  assert (Hrun : parse_data noon "SPO2:98,SPO2_VALID:1" fresh
                 = (Ret true, snd (parse_data noon "SPO2:98,SPO2_VALID:1" fresh)))
    by (vm_compute; reflexivity).
  assert (Hkey : data_dict_of "SPO2:98,SPO2_VALID:1" !! "SPO2" = Some "98")
    by (vm_compute; reflexivity).
  assert (Hint : Py.int "98" = Some 98) by (vm_compute; reflexivity).
  assert (Hflag : spo2_valid
                    (latest_data
                       (snd (parse_data noon "SPO2:98,SPO2_VALID:1" fresh))) = true)
    by (vm_compute; reflexivity).
  assert (Hrange : 70 <= 98 <= 100) by lia.
  specialize (H _ _ _ _ _ _ (reachable_init _ _ _) Hrun Hkey Hint Hflag Hrange).
  vm_compute in H. discriminate H.
Qed.

(** ** Connection life cycle (C8, C9) *)




(** C9.  [disconnect] raises nothing, whatever the socket does on [close]
    and whether or not the device was ever connected; it leaves the device
    not connected with status "disconnected"; and a second call leaves the
    device exactly as the first did. *)
Theorem disconnect_idempotent bt1 bt2 d :
  exists d1,
    disconnect bt1 d = (Ret tt, d1)
    /\ connected d1 = false
    /\ status (latest_data d1) = "disconnected"
    /\ disconnect bt2 d1 = (Ret tt, d1).
Proof.
  unfold disconnect, bind, get, try_except, sock_close.
  destruct d as [id nm mac [s|] c [] hist ts hb sb sh ss m];
    destruct (close_ok bt1), (close_ok bt2);
    eexists; repeat split; reflexivity.
Qed.

(** ** Values once present stay present (C10) *)

Lemma smoothed_spo2_cases d :
  smoothed_spo2 (calculate_smoothed_values d) =
  if (3 <=? length (spo2_smoothing_buffer d))%nat
  then Some (int_of_float (Np.mean (spo2_smoothing_buffer d)))
  else if (0 <? length (spo2_smoothing_buffer d))%nat
       then Some (List.last (spo2_smoothing_buffer d) 0)
       else smoothed_spo2 d.
Proof.
  unfold calculate_smoothed_values.
  destruct (3 <=? length (hr_smoothing_buffer d))%nat;
    [|destruct (0 <? length (hr_smoothing_buffer d))%nat];
    cbn [spo2_smoothing_buffer set_smoothed_hr];
    repeat case_match; reflexivity.
Qed.

(** The smoothed values and the window metrics depend on the buffers
    only: a device with the same buffers, smoothed values and metrics is up
    to date as well. *)
Lemma up_to_date_same d d' :
  hr_history d' = hr_history d ->
  hr_smoothing_buffer d' = hr_smoothing_buffer d ->
  spo2_smoothing_buffer d' = spo2_smoothing_buffer d ->
  smoothed_hr d' = smoothed_hr d ->
  smoothed_spo2 d' = smoothed_spo2 d ->
  metrics d' = metrics d ->
  up_to_date d -> up_to_date d'.
Proof.
  unfold up_to_date. rewrite !smoothed_hr_cases, !smoothed_spo2_cases.
  intros -> -> -> -> -> ->. tauto.
Qed.

Lemma calculate_smoothed_values_up_to_date d :
  smoothed_hr (calculate_smoothed_values (calculate_smoothed_values d))
  = smoothed_hr (calculate_smoothed_values d)
  /\ smoothed_spo2 (calculate_smoothed_values (calculate_smoothed_values d))
     = smoothed_spo2 (calculate_smoothed_values d).
Proof.
  rewrite (smoothed_hr_cases (calculate_smoothed_values d)).
  rewrite (smoothed_spo2_cases (calculate_smoothed_values d)).
  destruct (calculate_smoothed_values_frame d) as (_ & _ & _ & -> & -> & _).
  rewrite smoothed_hr_cases, smoothed_spo2_cases.
  split; repeat case_match; reflexivity.
Qed.

Lemma calculate_metrics_up_to_date d :
  (2 <= length (hr_history d))%nat ->
  bpm (metrics (calculate_metrics d)) = Some (Np.mean (hr_history d))
  /\ ipm (metrics (calculate_metrics d)) = Some (Np.mean (hr_history d))
  /\ hrstd (metrics (calculate_metrics d)) = Some (Np.std (hr_history d))
  /\ rmssd (metrics (calculate_metrics d))
     = Some (Np.sqrt (Np.mean (Np.square (Np.diff (hr_history d))))).
Proof.
  intros H. destruct (calculate_metrics_full d H) as (A & B & C & D & _).
  repeat split; assumption.
Qed.

Lemma fold_in_up_to_date now d : up_to_date d -> up_to_date (fold_in now d).
Proof.
  intros (Hh & Hs & Hm). unfold fold_in.
  set (x := admit_spo2 (admit_hr now d)).
  destruct (calculate_metrics_frame (calculate_smoothed_values x))
    as (_ & A1 & _ & A3 & A4 & A5 & A6).
  destruct (calculate_smoothed_values_up_to_date x) as (B1 & B2).
  unfold up_to_date.
  rewrite smoothed_hr_cases, smoothed_spo2_cases, A1, A3, A4, A5, A6.
  rewrite <- smoothed_hr_cases, <- smoothed_spo2_cases.
  split; [exact B1|]. split; [exact B2|].
  intros Hlen. apply calculate_metrics_up_to_date. exact Hlen.
Qed.

(** On every device a program can hold, the smoothed values are those of
    the smoothing buffers and the window metrics those of the window. *)
Lemma reachable_up_to_date d : reachable d -> up_to_date d.
Proof.
  induction 1 as [id nm mac | c d Hd IH].
  - unfold up_to_date. cbn. repeat split; lia.
  - destruct c as [now data_string | bt | bt | | ]; cbn [exec].
    + rewrite parse_data_run.
      destruct (first_bad (data_dict_of data_string)) as [k|]; cbn [snd].
      * apply (up_to_date_same d); (reflexivity || exact IH).
      * apply fold_in_up_to_date.
        apply (up_to_date_same d); (reflexivity || exact IH).
    + destruct (connect_frame bt d) as (A1 & A2 & A3 & A4 & A5 & A6).
      apply (up_to_date_same d); assumption.
    + destruct (disconnect_frame bt d) as (A1 & A2 & A3 & A4 & A5 & A6).
      apply (up_to_date_same d); assumption.
    + destruct IH as (Hh & Hs & Hm).
      destruct (calculate_smoothed_values_up_to_date d) as (B1 & B2).
      destruct (calculate_smoothed_values_frame d) as (_ & C1 & _ & _ & _ & C2).
      unfold up_to_date. rewrite C1, C2.
      split; [exact B1|]. split; [exact B2 | exact Hm].
    + destruct IH as (Hh & Hs & Hm).
      destruct (calculate_metrics_frame d) as (_ & C1 & _ & C3 & C4 & C5 & C6).
      unfold up_to_date.
      rewrite smoothed_hr_cases, smoothed_spo2_cases, C1, C3, C4, C5, C6.
      rewrite <- smoothed_hr_cases, <- smoothed_spo2_cases.
      split; [exact Hh|]. split; [exact Hs|].
      apply calculate_metrics_up_to_date.
Qed.

(** An accepted frame after which the buffers are as before leaves the
    smoothed values and the window metrics as they were. *)
Lemma nothing_admitted_frozen now data_string d d' :
  reachable d ->
  parse_data now data_string d = (Ret true, d') ->
  nothing_admitted d d' ->
  history_frozen d d'.
Proof.
  intros Hd Hrun (Nh & Nb & Ns).
  destruct (reachable_up_to_date d Hd) as (Uh & Us & Um).
  assert (Hup : up_to_date d').
  { replace d' with (exec (ParseData now data_string) d)
      by (cbn; rewrite Hrun; reflexivity).
    apply reachable_up_to_date, reachable_exec, Hd. }
  destruct Hup as (Uh' & Us' & Um').
  unfold history_frozen.
  assert (Esh : smoothed_hr d' = smoothed_hr d /\ smoothed_spo2 d' = smoothed_spo2 d).
  { pose proof (parse_data_true _ _ _ _ Hrun) as Hv.
    pose proof Hrun as Hrun'.
    rewrite (parse_data_valid _ _ _ Hv) in Hrun'. injection Hrun' as E.
    set (d1 := set_latest_data _ d) in E.
    assert (Ex : hr_smoothing_buffer (admit_spo2 (admit_hr now d1))
                 = hr_smoothing_buffer d
                 /\ spo2_smoothing_buffer (admit_spo2 (admit_hr now d1))
                    = spo2_smoothing_buffer d
                 /\ smoothed_hr (admit_spo2 (admit_hr now d1)) = smoothed_hr d
                 /\ smoothed_spo2 (admit_spo2 (admit_hr now d1)) = smoothed_spo2 d).
    { destruct (fold_in_hr_history now d1) as (_ & _ & F3).
      pose proof (fold_in_spo2_buffer now d1) as F4.
      rewrite E in F3, F4.
      destruct (admit_spo2_frame (admit_hr now d1))
        as (_ & _ & _ & G3 & G4 & G5 & _).
      destruct (admit_hr_frame now d1) as (_ & _ & H3 & H4 & _).
      change (smoothed_hr d1) with (smoothed_hr d) in H3.
      change (smoothed_spo2 d1) with (smoothed_spo2 d) in H4.
      repeat split; congruence. }
    destruct Ex as (X1 & X2 & X3 & X4).
    rewrite <- E. unfold fold_in.
    destruct (calculate_metrics_frame
                (calculate_smoothed_values (admit_spo2 (admit_hr now d1))))
      as (_ & _ & _ & _ & _ & -> & ->).
    rewrite smoothed_hr_cases, smoothed_spo2_cases, X1, X2, X3, X4.
    rewrite <- smoothed_hr_cases, <- smoothed_spo2_cases.
    split; assumption. }
  destruct Esh as (-> & ->).
  split; [reflexivity|]. split; [reflexivity|].
  destruct (Nat.leb_spec 2 (length (hr_history d'))) as [Hlen|Hlen].
  - destruct (Um' Hlen) as (-> & -> & -> & ->).
    rewrite Nh in *. destruct (Um Hlen) as (-> & -> & -> & ->).
    repeat split; reflexivity.
  - rewrite (parse_data_metrics_short _ _ _ _ Hrun Hlen).
    repeat split; reflexivity.
Qed.

Lemma keeps_present_refl d : keeps_present d d.
Proof. unfold keeps_present. tauto. Qed.

Lemma keeps_present_trans d1 d2 d3 :
  keeps_present d1 d2 -> keeps_present d2 d3 -> keeps_present d1 d3.
Proof. unfold keeps_present. tauto. Qed.

Lemma keeps_present_same d d' :
  smoothed_hr d' = smoothed_hr d ->
  smoothed_spo2 d' = smoothed_spo2 d ->
  metrics d' = metrics d ->
  keeps_present d d'.
Proof. unfold keeps_present. intros -> -> ->. tauto. Qed.

Lemma calculate_smoothed_values_keeps d :
  keeps_present d (calculate_smoothed_values d).
Proof.
  unfold keeps_present, calculate_smoothed_values, present.
  repeat case_match; cbn; repeat split; (congruence || tauto).
Qed.

Lemma calculate_metrics_keeps d : keeps_present d (calculate_metrics d).
Proof.
  unfold keeps_present, calculate_metrics, present.
  repeat case_match; cbn; repeat split; (congruence || tauto).
Qed.

Lemma fold_in_keeps now d : keeps_present d (fold_in now d).
Proof.
  unfold fold_in.
  eapply keeps_present_trans; [|apply calculate_metrics_keeps].
  eapply keeps_present_trans; [|apply calculate_smoothed_values_keeps].
  destruct (admit_spo2_frame (admit_hr now d)) as (_ & _ & _ & _ & H1 & H2 & H3).
  destruct (admit_hr_frame now d) as (_ & _ & H4 & H5 & H6).
  apply keeps_present_same; congruence.
Qed.

Lemma exec_keeps c d : keeps_present d (exec c d).
Proof.
  destruct c as [now data_string | bt | bt | | ]; cbn [exec].
  - rewrite parse_data_run.
    destruct (first_bad (data_dict_of data_string)) as [k|]; cbn [snd].
    + apply keeps_present_same; reflexivity.
    + eapply keeps_present_trans; [|apply fold_in_keeps].
      apply keeps_present_same; reflexivity.
  - destruct (connect_frame bt d) as (_ & _ & _ & H1 & H2 & H3).
    apply keeps_present_same; assumption.
  - destruct (disconnect_frame bt d) as (_ & _ & _ & H1 & H2 & H3).
    apply keeps_present_same; assumption.
  - apply calculate_smoothed_values_keeps.
  - apply calculate_metrics_keeps.
Qed.

(** An accepted frame after which the window and the buffers are as
    before: the smoothed values and the metrics of the window are as they
    were, and [avg_spo2] follows the latest reading. *)
Lemma idle_frame_metrics now data_string d :
  reachable d ->
  valid_frame data_string = true ->
  nothing_admitted d (exec (ParseData now data_string) d) ->
  let d' := exec (ParseData now data_string) d in
  history_frozen d d'
  /\ avg_spo2 (metrics d')
     = match spo2 (latest_data d') with
       | Some s =>
           if spo2_valid (latest_data d') && (2 <=? length (hr_history d'))%nat
           then Some s else avg_spo2 (metrics d)
       | None => avg_spo2 (metrics d)
       end.
Proof.
  intros Hd Hv Hn d'.
  assert (Hrun : parse_data now data_string d = (Ret true, d'))
    by (subst d'; cbn [exec]; rewrite (parse_data_valid _ _ _ Hv); cbn [snd];
        reflexivity).
  change (nothing_admitted d d') in Hn. clearbody d'.
  split.
  - apply (nothing_admitted_frozen now data_string d); assumption.
  - destruct (Nat.leb_spec 2 (length (hr_history d'))) as [Hlen|Hlen].
    + destruct (parse_data_metrics _ _ _ _ Hrun Hlen) as (_ & _ & _ & _ & E).
      rewrite E, andb_true_r. reflexivity.
    + rewrite (parse_data_metrics_short _ _ _ _ Hrun Hlen).
      rewrite andb_false_r. destruct (spo2 _); reflexivity.
Qed.

(** C10, as the code has it.  Whatever calls follow ([parse_data] on any
    line, accepted or refused, [connect], [disconnect], the two
    [calculate_...] methods), a smoothed heart rate, a smoothed SpO2 or a
    metric that is present stays present.  [disconnect] and a refused frame
    leave the smoothed values and the metrics exactly as they were.  An
    accepted frame after which the window and the buffers are as before
    leaves the smoothed values and the metrics of the window as they were,
    and [avg_spo2] is then the latest SpO2 reading when its flag is set and
    the window holds at least 2 samples, and as it was otherwise. *)
Theorem present_forever cs d :
  keeps_present d (run cs d)
  /\ (forall bt, frozen d (exec (Disconnect bt) d))
  /\ (forall now data_string,
         valid_frame data_string = false ->
         frozen d (exec (ParseData now data_string) d))
  /\ (forall now data_string,
         reachable d ->
         valid_frame data_string = true ->
         nothing_admitted d (exec (ParseData now data_string) d) ->
         let d' := exec (ParseData now data_string) d in
         history_frozen d d'
         /\ avg_spo2 (metrics d')
            = match spo2 (latest_data d') with
              | Some s =>
                  if spo2_valid (latest_data d')
                     && (2 <=? length (hr_history d'))%nat
                  then Some s else avg_spo2 (metrics d)
              | None => avg_spo2 (metrics d)
              end).
Proof.
  split; [|split; [|split]].
  - revert d. induction cs as [|c cs IH]; intros d.
    + apply keeps_present_refl.
    + cbn. eapply keeps_present_trans; [apply exec_keeps | apply IH].
  - intros bt. cbn [exec].
    destruct (disconnect_frame bt d) as (_ & _ & _ & A1 & A2 & A3).
    repeat split; assumption.
  - intros now data_string Hv. cbn [exec].
    destruct (parse_data_refused now data_string d Hv) as [k ->].
    repeat split; reflexivity.
  - intros now data_string Hd Hv Hn.
    apply (idle_frame_metrics now data_string d Hd Hv Hn).
Qed.

Lemma present_forever_witness :
  present (smoothed_hr
             (run [ParseData noon "no sample"; ParseData noon "HR:abc";
                   Disconnect (mkBluetooth None false false)]
                (feed noon outlier_frames fresh)))
  /\ frozen (feed noon outlier_frames fresh)
       (exec (ParseData noon "HR:abc") (feed noon outlier_frames fresh))
  /\ history_frozen (feed noon outlier_frames fresh)
       (exec (ParseData noon "STATUS:NO_FINGER,HR_VALID:0")
          (feed noon outlier_frames fresh)).
Proof.
  destruct (present_forever
              [ParseData noon "no sample"; ParseData noon "HR:abc";
               Disconnect (mkBluetooth None false false)]
              (feed noon outlier_frames fresh))
    as (Hkeep & _ & Hrefused & Hidle).
  destruct Hkeep as (Hkeep & _).
  split; [|split].
  - apply Hkeep. vm_compute. discriminate.
  - apply Hrefused. vm_compute. reflexivity.
  - assert (Hr : reachable (feed noon outlier_frames fresh))
      by apply reachable_run, reachable_init.
    assert (Hv : valid_frame "STATUS:NO_FINGER,HR_VALID:0" = true)
      by (vm_compute; reflexivity).
    assert (Hn : nothing_admitted (feed noon outlier_frames fresh)
                   (exec (ParseData noon "STATUS:NO_FINGER,HR_VALID:0")
                      (feed noon outlier_frames fresh)))
      by (unfold nothing_admitted; split; [|split]; vm_compute; reflexivity).
    destruct (Hidle noon "STATUS:NO_FINGER,HR_VALID:0" Hr Hv Hn) as [H _].
    exact H.
Defined.

(** C10 as stated fails: a frame that carries no admissible sample does not
    leave the smoothed values and the metrics in place.  With two heart
    rates in the window and an SpO2 of 98 flagged valid, the frame
    "SPO2:150,HR_VALID:0" admits nothing and moves [avg_spo2] from 98 to
    150; with the window 72, 75, 200, the frame "STATUS:NO_FINGER", which
    carries no sample at all, admits the heart rate 200 left by the frame
    before once more and moves the smoothed heart rate from 75 to 137. *)
Lemma frame_without_sample_not_frozen :
  (let d := feed noon ["HR:72,HR_VALID:1,SPO2:98,SPO2_VALID:1"; "HR:75"] fresh in
   let d' := exec (ParseData noon "SPO2:150,HR_VALID:0") d in
   fst (parse_data noon "SPO2:150,HR_VALID:0" d) = Ret true
   /\ nothing_admitted d d'
   /\ avg_spo2 (metrics d) = Some 98
   /\ avg_spo2 (metrics d') = Some 150
   /\ ~ frozen d d')
  /\ (let e := feed noon ["HR:72,HR_VALID:1"; "HR:75"; "HR:200"] fresh in
      let e' := exec (ParseData noon "STATUS:NO_FINGER") e in
      fst (parse_data noon "STATUS:NO_FINGER" e) = Ret true
      /\ hr_history e = [72; 75; 200]
      /\ hr_history e' = [72; 75; 200; 200]
      /\ smoothed_hr e = Some 75
      /\ smoothed_hr e' = Some 137
      /\ ~ frozen e e').
Proof.
  split.
  - intros d d'.
    assert (H98 : avg_spo2 (metrics d) = Some 98) by (vm_compute; reflexivity).
    assert (H150 : avg_spo2 (metrics d') = Some 150) by (vm_compute; reflexivity).
    split; [vm_compute; reflexivity|].
    split; [unfold nothing_admitted; split; [|split]; vm_compute; reflexivity|].
    split; [exact H98|]. split; [exact H150|].
    intros (_ & _ & Hm). rewrite Hm in H150. rewrite H98 in H150.
    discriminate H150.
  - intros e e'.
    assert (H75 : smoothed_hr e = Some 75) by (vm_compute; reflexivity).
    assert (H137 : smoothed_hr e' = Some 137) by (vm_compute; reflexivity).
    split; [vm_compute; reflexivity|].
    split; [vm_compute; reflexivity|].
    split; [vm_compute; reflexivity|].
    split; [exact H75|]. split; [exact H137|].
    intros (Hs & _). rewrite Hs in H137. rewrite H75 in H137.
    discriminate H137.
Qed.

(** ** Bounds kept by the buffers *)

(** [int(x)] truncates: on a float that is not negative it is the integer
    part. *)
Lemma int_of_float_truncates q :
  (0 <= q)%Q ->
  (inject_Z (int_of_float q) <= q)%Q /\ (q < inject_Z (int_of_float q) + 1)%Q.
Proof.
  destruct q as [a b]. unfold Qle, Qlt, int_of_float. cbn. intros Ha.
  rewrite Z.quot_div_nonneg by lia.
  pose proof (Z.mul_div_le a (Z.pos b) ltac:(lia)).
  pose proof (Z.mul_succ_div_gt a (Z.pos b) ltac:(lia)).
  split; nia.
Qed.

Lemma deque_append_bound {A : Type} maxlen (q : list A) x :
  (0 < maxlen)%nat -> (length q <= maxlen)%nat ->
  (length (deque_append maxlen q x) <= maxlen)%nat.
Proof.
  intros Hpos Hq. unfold deque_append.
  destruct (Nat.ltb_spec maxlen (length (q ++ [x]))) as [H|H]; [|exact H].
  rewrite length_app in H. cbn in H.
  destruct q as [|y q]; cbn in *; [lia|]. rewrite length_app. cbn. lia.
Qed.

Lemma deque_append_Forall {A : Type} (P : A -> Prop) maxlen (q : list A) x :
  Forall P q -> P x -> Forall P (deque_append maxlen q x).
Proof.
  intros Hq Hx. unfold deque_append.
  assert (Hall : Forall P (q ++ [x])) by (apply Forall_app; auto).
  destruct (maxlen <? length (q ++ [x]))%nat; [|exact Hall].
  destruct (q ++ [x]); [constructor|]. now inversion Hall.
Qed.

Lemma admit_hr_bounds now d : buffers_admitted d -> buffers_admitted (admit_hr now d).
Proof.
  intros (H1 & H2 & H3 & H4 & H5 & H6 & H7).
  pose proof (admit_hr_cases now d) as Hc.
  destruct (admit_hr_frame now d) as (_ & Hs & _).
  destruct (hr (latest_data d)) as [v|]; [|rewrite Hc; repeat split; assumption].
  destruct (hr_valid (latest_data d)); cbn [andb] in Hc;
    [|rewrite Hc; repeat split; assumption].
  destruct ((40 <=? v) && (v <=? 200)) eqn:Hr;
    [|rewrite Hc; repeat split; assumption].
  apply in_range_true in Hr. destruct Hc as (Hh & Ht & Hb).
  unfold buffers_admitted. rewrite Hh, Ht, Hb, Hs.
  repeat split;
    first [ assumption
          | apply deque_append_Forall; assumption
          | apply deque_append_bound; [cbv; lia | assumption] ].
Qed.

Lemma admit_spo2_bounds d : buffers_admitted d -> buffers_admitted (admit_spo2 d).
Proof.
  intros (H1 & H2 & H3 & H4 & H5 & H6 & H7).
  pose proof (admit_spo2_cases d) as Hc.
  destruct (admit_spo2_frame d) as (_ & Hh & Ht & Hb & _).
  destruct (spo2 (latest_data d)) as [v|]; [|rewrite Hc; repeat split; assumption].
  destruct (spo2_valid (latest_data d)); cbn [andb] in Hc;
    [|rewrite Hc; repeat split; assumption].
  destruct ((70 <=? v) && (v <=? 100)) eqn:Hr;
    [|rewrite Hc; repeat split; assumption].
  apply in_range_true in Hr.
  unfold buffers_admitted. rewrite Hc, Hh, Ht, Hb.
  repeat split;
    first [ assumption
          | apply deque_append_Forall; assumption
          | apply deque_append_bound; [cbv; lia | assumption] ].
Qed.

Lemma buffers_admitted_same d d' :
  hr_history d' = hr_history d ->
  timestamp_history d' = timestamp_history d ->
  hr_smoothing_buffer d' = hr_smoothing_buffer d ->
  spo2_smoothing_buffer d' = spo2_smoothing_buffer d ->
  buffers_admitted d -> buffers_admitted d'.
Proof. unfold buffers_admitted. intros -> -> -> ->. tauto. Qed.

Lemma fold_in_bounds now d : buffers_admitted d -> buffers_admitted (fold_in now d).
Proof.
  intros H. unfold fold_in.
  destruct (calculate_metrics_frame
              (calculate_smoothed_values (admit_spo2 (admit_hr now d))))
    as (_ & A1 & A2 & A3 & A4 & _).
  destruct (calculate_smoothed_values_frame (admit_spo2 (admit_hr now d)))
    as (_ & B1 & B2 & B3 & B4 & _).
  eapply buffers_admitted_same; [exact A1 | exact A2 | exact A3 | exact A4 |].
  eapply buffers_admitted_same; [exact B1 | exact B2 | exact B3 | exact B4 |].
  apply admit_spo2_bounds, admit_hr_bounds, H.
Qed.

(** The history window never holds more than 300 samples, a smoothing
    buffer never more than 5, and they hold admitted samples only. *)
Lemma reachable_buffers_admitted d : reachable d -> buffers_admitted d.
Proof.
  induction 1 as [id nm mac | c d Hd IH].
  - unfold buffers_admitted. cbn. repeat split; (lia || constructor).
  - destruct c as [now data_string | bt | bt | | ]; cbn [exec].
    + rewrite parse_data_run.
      destruct (first_bad (data_dict_of data_string)) as [k|]; cbn [snd].
      * exact IH.
      * apply fold_in_bounds. exact IH.
    + pose proof (connect_frame bt d) as (A1 & A3 & A4 & _).
      unfold buffers_admitted in *. rewrite A1, A3, A4.
      replace (timestamp_history (snd (connect bt d))) with (timestamp_history d);
        [exact IH|].
      unfold connect, bind, get, try_except, BluetoothSocket_new, sock_connect.
      destruct (mac_address d); [|reflexivity].
      destruct (new_socket bt); [destruct (connect_ok bt)|]; reflexivity.
    + pose proof (disconnect_frame bt d) as (A1 & A3 & A4 & _).
      unfold buffers_admitted in *. rewrite A1, A3, A4.
      replace (timestamp_history (snd (disconnect bt d)))
        with (timestamp_history d); [exact IH|].
      unfold disconnect, bind, get, try_except, sock_close.
      destruct (sock d); [destruct (close_ok bt)|]; reflexivity.
    + destruct (calculate_smoothed_values_frame d) as (_ & B1 & B2 & B3 & B4 & _).
      eapply buffers_admitted_same; eassumption.
    + destruct (calculate_metrics_frame d) as (_ & B1 & B2 & B3 & B4 & _).
      eapply buffers_admitted_same; eassumption.
Qed.

(** * The ingestion loop [receive_data] *)

Lemma cut_lines_no_feed s :
  Py.contains LF s = false -> cut_lines s = ([], s).
Proof.
  induction s as [|c r IH]; [reflexivity|].
  cbn [Py.contains cut_lines]. intros H.
  apply orb_false_iff in H as [Hc Hr]. rewrite Hc, (IH Hr). reflexivity.
Qed.

Lemma cut_lines_feed s :
  Py.contains LF s = true ->
  cut_lines s
  = (fst (Py.split1 LF s) :: fst (cut_lines (snd (Py.split1 LF s))),
     snd (cut_lines (snd (Py.split1 LF s))))
  /\ (String.length (snd (Py.split1 LF s)) < String.length s)%nat.
Proof.
  induction s as [|c r IH]; [discriminate|].
  cbn [Py.contains cut_lines Py.split1 String.length].
  destruct (Ascii.eqb c LF) eqn:Hc.
  - intros _. cbn [fst snd]. destruct (cut_lines r). split; [reflexivity | lia].
  - cbn [orb]. intros Hr. destruct (IH Hr) as [E Hlen].
    rewrite E. destruct (Py.split1 LF r) as [k v]. cbn [fst snd] in *.
    split; [reflexivity | lia].
Qed.

Lemma cut_lines_rest_no_feed s : Py.contains LF (snd (cut_lines s)) = false.
Proof.
  induction s as [|c r IH]; [reflexivity|].
  cbn [cut_lines]. destruct (Ascii.eqb c LF) eqn:Hc.
  - destruct (cut_lines r). exact IH.
  - destruct (cut_lines r) as [[|l ls] rest]; cbn [snd] in *; [|exact IH].
    cbn [Py.contains]. rewrite Hc, IH. reflexivity.
Qed.

(** The inner loop with enough fuel: it raises nothing, parses the complete
    lines that are not blank and keeps what follows the last line feed. *)
Lemma process_lines_cut fuel tick n buffer d :
  (String.length buffer < fuel)%nat ->
  process_lines fuel tick n buffer d
  = (Ret tt,
     (fst (parse_lines tick n (fst (cut_lines buffer)) d),
      snd (cut_lines buffer),
      snd (parse_lines tick n (fst (cut_lines buffer)) d))).
Proof.
  revert n buffer d. induction fuel as [|fuel IH]; intros n buffer d Hf; [lia|].
  cbn [process_lines]. destruct (Py.contains LF buffer) eqn:Hc.
  - destruct (cut_lines_feed buffer Hc) as [E Hlen]. rewrite E.
    destruct (Py.split1 LF buffer) as [line buffer']. cbn [fst snd] in *.
    cbn [parse_lines]. destruct (blank line).
    + apply IH. lia.
    + pose proof (parse_data_run (tick n) line d) as Hrun.
      destruct (first_bad (data_dict_of line)); rewrite Hrun; cbn [snd];
        apply IH; lia.
  - rewrite (cut_lines_no_feed buffer Hc). reflexivity.
Qed.

Lemma cut_lines_app a b :
  cut_lines (String.append a b)
  = (fst (cut_lines a) ++ fst (cut_lines (String.append (snd (cut_lines a)) b)),
     snd (cut_lines (String.append (snd (cut_lines a)) b))).
Proof.
  induction a as [|c r IH].
  - change (String.append EmptyString b) with b.
    cbn [cut_lines fst snd app]. change (String.append EmptyString b) with b.
    destruct (cut_lines b). reflexivity.
  - change (String.append (String c r) b) with (String c (String.append r b)).
    cbn [cut_lines]. rewrite IH.
    destruct (Ascii.eqb c LF) eqn:Hc.
    + destruct (cut_lines r) as [la ra]. reflexivity.
    + destruct (cut_lines r) as [[|l la] ra]; cbn [fst snd app].
      * change (String.append (String c ra) b)
          with (String c (String.append ra b)).
        cbn [cut_lines]. rewrite Hc.
        destruct (cut_lines (String.append ra b)) as [[|l lb] rb]; reflexivity.
      * reflexivity.
Qed.

Lemma parse_lines_app tick n l1 l2 d :
  parse_lines tick n (l1 ++ l2) d
  = parse_lines tick (fst (parse_lines tick n l1 d)) l2
      (snd (parse_lines tick n l1 d)).
Proof.
  revert n d. induction l1 as [|line l1 IH]; intros n d; [reflexivity|].
  cbn [app parse_lines]. destruct (blank line); apply IH.
Qed.

Lemma string_append_assoc a b c :
  String.append (String.append a b) c = String.append a (String.append b c).
Proof.
  induction a as [|x a IH]; [reflexivity|].
  change (String x (String.append (String.append a b) c)
          = String x (String.append a (String.append b c))).
  now rewrite IH.
Qed.

Lemma same_connection_trans d1 d2 d3 :
  same_connection d1 d2 -> same_connection d2 d3 -> same_connection d1 d3.
Proof.
  unfold same_connection.
  intros (A1 & A2 & A3 & A4 & A5) (B1 & B2 & B3 & B4 & B5).
  repeat split; congruence.
Qed.

Lemma admit_hr_connection now d : same_connection d (admit_hr now d).
Proof. unfold admit_hr. repeat case_match; repeat split; reflexivity. Qed.

Lemma admit_spo2_connection d : same_connection d (admit_spo2 d).
Proof. unfold admit_spo2. repeat case_match; repeat split; reflexivity. Qed.

Lemma calculate_smoothed_values_connection d :
  same_connection d (calculate_smoothed_values d).
Proof.
  unfold calculate_smoothed_values. repeat case_match; repeat split; reflexivity.
Qed.

Lemma calculate_metrics_connection d : same_connection d (calculate_metrics d).
Proof.
  unfold calculate_metrics. repeat case_match; repeat split; reflexivity.
Qed.

Lemma fold_in_connection now d : same_connection d (fold_in now d).
Proof.
  unfold fold_in.
  eapply same_connection_trans; [|apply calculate_metrics_connection].
  eapply same_connection_trans; [|apply calculate_smoothed_values_connection].
  eapply same_connection_trans; [|apply admit_spo2_connection].
  apply admit_hr_connection.
Qed.

(** [parse_data] leaves the connection alone. *)
Lemma parse_data_connection now data_string d :
  same_connection d (snd (parse_data now data_string d)).
Proof.
  rewrite parse_data_run.
  destruct (first_bad (data_dict_of data_string)); cbn [snd].
  - repeat split; reflexivity.
  - eapply same_connection_trans; [|apply fold_in_connection].
    repeat split; reflexivity.
Qed.

Lemma parse_lines_connection tick n lines d :
  connected (snd (parse_lines tick n lines d)) = connected d
  /\ sock (snd (parse_lines tick n lines d)) = sock d.
Proof.
  revert n d. induction lines as [|line lines IH]; intros n d; [split; reflexivity|].
  cbn [parse_lines]. destruct (blank line); [apply IH|].
  destruct (IH (S n) (snd (parse_data (tick n) line d))) as [-> ->].
  destruct (parse_data_connection (tick n) line d) as (-> & -> & _).
  split; reflexivity.
Qed.

Lemma receive_loop_disconnected events tick n buffer d :
  connected d = false ->
  receive_loop events tick (n, buffer, d) = (n, buffer, d).
Proof. intros H. destruct events; cbn; [|rewrite H]; reflexivity. Qed.

Lemma receive_loop_no_socket events tick n buffer d :
  sock d = None ->
  receive_loop events tick (n, buffer, d) = (n, buffer, d).
Proof.
  intros H. induction events as [|e events IH]; [reflexivity|].
  cbn. rewrite H. destruct (connected d); [exact IH | reflexivity].
Qed.

Lemma string_append_empty a : String.append a EmptyString = a.
Proof.
  induction a as [|x a IH]; [reflexivity|].
  change (String x (String.append a EmptyString) = String x a).
  now rewrite IH.
Qed.

(** The loop on answers without a Bluetooth error, in terms of the whole
    text received. *)
Lemma receive_loop_text events tick n buffer d s :
  connected d = true -> sock d = Some s -> error_free events ->
  Py.contains LF buffer = false ->
  receive_loop events tick (n, buffer, d)
  = (fst (parse_lines tick n
            (fst (cut_lines (String.append buffer (received_text events)))) d),
     snd (cut_lines (String.append buffer (received_text events))),
     snd (parse_lines tick n
            (fst (cut_lines (String.append buffer (received_text events)))) d)).
Proof.
  intros Hc Hs Hev. revert n buffer d Hc Hs.
  induction Hev as [|e events He _ IH]; intros n buffer d Hc Hs Hb.
  - cbn [receive_loop received_text].
    rewrite string_append_empty, (cut_lines_no_feed _ Hb). reflexivity.
  - cbn [receive_loop]. rewrite Hc, Hs.
    destruct e as [text| | |]; cbn [received_text];
      [|apply IH; assumption|congruence|apply IH; assumption].
    rewrite process_lines_cut by lia. cbn [snd].
    destruct (parse_lines_connection tick n
                (fst (cut_lines (String.append buffer text))) d) as [Hc' Hs'].
    rewrite IH;
      [|congruence|congruence|apply cut_lines_rest_no_feed].
    rewrite <- string_append_assoc.
    rewrite (cut_lines_app (String.append buffer text) (received_text events)).
    cbn [fst snd]. rewrite parse_lines_app. reflexivity.
Qed.

(** X1.  [receive_data] on a connected device, as long as no Bluetooth
    error occurs: whatever the cutting of the stream into answers of
    [recv], the device is the one obtained by [parse_data] on each complete
    line of the received text that is not blank, in order; the local buffer
    holds the text after the last line feed, so no line feed; the device
    stays connected. *)
Theorem receive_data_frames events tick d s :
  connected d = true -> sock d = Some s -> error_free events ->
  let lines := fst (cut_lines (received_text events)) in
  let rest := snd (cut_lines (received_text events)) in
  receive_data events tick d
  = (fst (parse_lines tick 0 lines d), rest, snd (parse_lines tick 0 lines d))
  /\ Py.contains LF rest = false
  /\ connected (snd (parse_lines tick 0 lines d)) = true.
Proof.
  intros Hc Hs Hev lines rest. split; [|split].
  - unfold receive_data.
    rewrite (receive_loop_text events tick 0 EmptyString d s Hc Hs Hev eq_refl).
    reflexivity.
  - apply cut_lines_rest_no_feed.
  - destruct (parse_lines_connection tick 0 lines d) as [-> _]. exact Hc.
Qed.

(** X2.  Fragmentation does not matter: two runs of answers without
    Bluetooth error that carry the same text leave the same device, the
    same buffer and the same number of parsed frames. *)
Theorem receive_data_fragmentation e1 e2 tick d :
  error_free e1 -> error_free e2 ->
  received_text e1 = received_text e2 ->
  receive_data e1 tick d = receive_data e2 tick d.
Proof.
  intros H1 H2 E. unfold receive_data.
  destruct (connected d) eqn:Hc;
    [|now rewrite !receive_loop_disconnected by exact Hc].
  destruct (sock d) as [s|] eqn:Hs;
    [|now rewrite !receive_loop_no_socket by exact Hs].
  rewrite (receive_loop_text e1 tick 0 EmptyString d s Hc Hs H1 eq_refl).
  rewrite (receive_loop_text e2 tick 0 EmptyString d s Hc Hs H2 eq_refl).
  rewrite E. reflexivity.
Qed.

(** The loop composes: running it on a first run of answers and then, from
    the variables it left, on a second run is running it on both. *)
Lemma receive_loop_app e1 e2 tick st :
  receive_loop (e1 ++ e2) tick st = receive_loop e2 tick (receive_loop e1 tick st).
Proof.
  revert st. induction e1 as [|e e1 IH]; intros [[n buffer] d]; [reflexivity|].
  cbn [app receive_loop].
  destruct (connected d) eqn:Hc;
    [|now rewrite receive_loop_disconnected by exact Hc].
  destruct (sock d) as [s|]; [|apply IH].
  destruct e as [text| | |]; try apply IH.
  rewrite receive_loop_disconnected; reflexivity.
Qed.

(** X3.  A Bluetooth error ends the loop: the answers after it are never
    read, the device is marked not connected with status "error", and its
    window, buffers, smoothed values and metrics are those it had when the
    error came. *)
Theorem receive_data_bluetooth_error pre post tick d s :
  connected d = true -> sock d = Some s -> error_free pre ->
  let before := receive_data pre tick d in
  let after := receive_data (pre ++ RecvBluetoothError :: post) tick d in
  after = (fst (fst before), snd (fst before), transport_error (snd before))
  /\ connected (snd after) = false
  /\ status (latest_data (snd after)) = "error"
  /\ nothing_admitted (snd before) (snd after)
  /\ frozen (snd before) (snd after).
Proof.
  intros Hc Hs Hev before after.
  assert (E : after
              = (fst (fst before), snd (fst before), transport_error (snd before))).
  { subst before after. unfold receive_data. rewrite receive_loop_app.
    rewrite (receive_loop_text pre tick 0 EmptyString d s Hc Hs Hev eq_refl).
    cbn [receive_loop fst snd].
    destruct (parse_lines_connection tick 0
                (fst (cut_lines (String.append EmptyString (received_text pre))))
                d) as [-> ->].
    rewrite Hc, Hs. reflexivity. }
  rewrite E. cbn [snd].
  repeat split; reflexivity.
Qed.

(** X4.  On a device that is not connected, or that holds no socket,
    [receive_data] changes nothing, whatever would arrive. *)
Theorem receive_data_idle events tick d :
  connected d = false \/ sock d = None ->
  receive_data events tick d = (O, EmptyString, d).
Proof.
  unfold receive_data. intros [H|H].
  - apply receive_loop_disconnected, H.
  - apply receive_loop_no_socket, H.
Qed.

Lemma run_app cs1 cs2 d : run (cs1 ++ cs2) d = run cs2 (run cs1 d).
Proof. unfold run. apply fold_left_app. Qed.

Lemma run_keeps cs d : keeps_present d (run cs d).
Proof.
  revert d. induction cs as [|c cs IH]; intros d.
  - apply keeps_present_refl.
  - cbn. eapply keeps_present_trans; [apply exec_keeps | apply IH].
Qed.

Lemma parse_lines_run tick n lines d :
  exists cs, snd (parse_lines tick n lines d) = run cs d.
Proof.
  revert n d. induction lines as [|line lines IH]; intros n d.
  - exists []. reflexivity.
  - cbn [parse_lines]. destruct (blank line); [apply IH|].
    destruct (IH (S n) (snd (parse_data (tick n) line d))) as [cs ->].
    exists (ParseData (tick n) line :: cs). reflexivity.
Qed.

(** The loop changes the device by calls of [parse_data] only, and by the
    mark of a Bluetooth error at the end. *)
Lemma receive_loop_calls events tick n buffer d :
  exists cs,
    snd (receive_loop events tick (n, buffer, d)) = run cs d
    \/ snd (receive_loop events tick (n, buffer, d)) = transport_error (run cs d).
Proof.
  revert n buffer d. induction events as [|e events IH]; intros n buffer d.
  - exists []. left. reflexivity.
  - cbn [receive_loop].
    destruct (connected d); [|exists []; left; reflexivity].
    destruct (sock d) as [s|]; [|apply IH].
    destruct e as [text| | |]; try apply IH.
    + rewrite process_lines_cut by lia. cbn [snd].
      destruct (parse_lines_run tick n
                  (fst (cut_lines (String.append buffer text))) d) as [cs1 E1].
      rewrite E1.
      destruct (IH (fst (parse_lines tick n
                           (fst (cut_lines (String.append buffer text))) d))
                  (snd (cut_lines (String.append buffer text))) (run cs1 d))
        as [cs2 H].
      exists (cs1 ++ cs2). rewrite run_app. exact H.
    + exists []. right. reflexivity.
Qed.

(** X5.  Whatever arrives, [receive_data] keeps what the calls keep: on a
    device a program can hold, the window and the buffers stay within their
    capacities and hold admitted samples only, the smoothed values and
    window metrics stay up to date with them, and no smoothed value or
    metric that was present gets lost. *)
Theorem receive_data_invariants events tick d :
  reachable d ->
  let d' := snd (receive_data events tick d) in
  buffers_admitted d' /\ up_to_date d' /\ keeps_present d d'.
Proof.
  intros Hd d'. subst d'. unfold receive_data.
  destruct (receive_loop_calls events tick 0 EmptyString d) as [cs [E|E]];
    rewrite E.
  - split; [|split].
    + apply reachable_buffers_admitted, reachable_run, Hd.
    + apply reachable_up_to_date, reachable_run, Hd.
    + apply run_keeps.
  - pose proof (reachable_run cs d Hd) as Hr.
    split; [|split].
    + apply (buffers_admitted_same (run cs d)); try reflexivity.
      apply reachable_buffers_admitted, Hr.
    + apply (up_to_date_same (run cs d)); try reflexivity.
      apply reachable_up_to_date, Hr.
    + eapply keeps_present_trans; [apply run_keeps|].
      apply keeps_present_same; reflexivity.
Qed.

Lemma cut_frame_error_free : error_free cut_frame.
Proof. repeat constructor; discriminate. Qed.

Lemma receive_data_frames_witness :
  receive_data cut_frame still online
  = (1%nat, "SPO2:9", snd (parse_data noon "HR:72,HR_VALID:1" online)).
Proof.
  pose proof (receive_data_frames cut_frame still online (Socket 3)) as H.
  cbv zeta in H.
  destruct H as (E & _); [vm_compute; reflexivity ..| apply cut_frame_error_free |].
  rewrite E. vm_compute. reflexivity.
Defined.

Lemma receive_data_fragmentation_witness :
  receive_data cut_frame still online
  = receive_data [RecvText (String.append "HR:72,HR_VALID:1" (String LF "SPO2:9"))]
      still online.
Proof.
  apply receive_data_fragmentation.
  - apply cut_frame_error_free.
  - repeat constructor; discriminate.
  - vm_compute. reflexivity.
Defined.

Lemma receive_data_bluetooth_error_witness :
  connected
    (snd (receive_data (cut_frame ++ RecvBluetoothError :: [RecvText "HR:80"])
            still online)) = false.
Proof.
  pose proof (receive_data_bluetooth_error cut_frame [RecvText "HR:80"] still
                online (Socket 3)) as H.
  cbv zeta in H.
  destruct H as (_ & H & _);
    [vm_compute; reflexivity ..| apply cut_frame_error_free |].
  exact H.
Defined.

Lemma receive_data_idle_witness :
  receive_data cut_frame still fresh = (O, EmptyString, fresh).
Proof. apply receive_data_idle. left. reflexivity. Defined.

Lemma receive_data_invariants_witness :
  buffers_admitted (snd (receive_data cut_frame still online)).
Proof.
  pose proof (receive_data_invariants cut_frame still online) as H.
  cbv zeta in H. apply H.
  exact (reachable_exec (Connect willing) fresh (reachable_init _ _ _)).
Defined.

(** * Ranges and presence of the smoothed values *)

Lemma sum_bounds lo hi (l : list Z) :
  Forall (fun v => lo <= v <= hi) l ->
  Z.of_nat (length l) * lo <= fold_right Z.add 0 l <= Z.of_nat (length l) * hi.
Proof.
  induction 1 as [|x l Hx _ IH]; [cbn; lia|].
  cbn [length fold_right]. lia.
Qed.

Lemma arithmetic_mean_bounds lo hi (l : list Z) :
  l <> [] -> Forall (fun v => lo <= v <= hi) l ->
  (inject_Z lo <= arithmetic_mean l)%Q /\ (arithmetic_mean l <= inject_Z hi)%Q.
Proof.
  intros Hne Hall. pose proof (sum_bounds lo hi l Hall) as [Hlo Hhi].
  assert (Hn : (0 < inject_Z (Z.of_nat (length l)))%Q).
  { rewrite <- (Zlt_Qlt 0). destruct l; [congruence | cbn [length]; lia]. }
  unfold arithmetic_mean. split.
  - apply Qle_shift_div_l; [exact Hn|].
    rewrite <- inject_Z_mult, <- Zle_Qle. lia.
  - apply Qle_shift_div_r; [exact Hn|].
    rewrite <- inject_Z_mult, <- Zle_Qle. lia.
Qed.

Lemma int_of_float_bounds lo hi q :
  0 <= lo -> (inject_Z lo <= q)%Q -> (q <= inject_Z hi)%Q ->
  lo <= int_of_float q <= hi.
Proof.
  intros Hlo Hq1 Hq2.
  assert (Hq0 : (0 <= q)%Q).
  { apply Qle_trans with (inject_Z lo); [|exact Hq1]. now rewrite <- (Zle_Qle 0). }
  destruct (int_of_float_truncates q Hq0) as [Ht1 Ht2].
  split.
  - assert (H : (inject_Z lo < inject_Z (int_of_float q + 1))%Q).
    { rewrite inject_Z_plus. eapply Qle_lt_trans; [exact Hq1 | exact Ht2]. }
    rewrite <- Zlt_Qlt in H. lia.
  - rewrite Zle_Qle. eapply Qle_trans; [exact Ht1 | exact Hq2].
Qed.

(** The truncated mean of samples of a range is in the range. *)
Lemma mean_in_range lo hi (l : list Z) :
  0 <= lo -> l <> [] -> Forall (fun v => lo <= v <= hi) l ->
  lo <= int_of_float (Np.mean l) <= hi.
Proof.
  intros Hlo Hne Hall. rewrite mean_arithmetic.
  destruct (arithmetic_mean_bounds lo hi l Hne Hall).
  apply int_of_float_bounds; assumption.
Qed.

Lemma sort_nth_Forall (P : Z -> Prop) (l : list Z) k :
  Forall P l -> (k < length l)%nat -> P (List.nth k (Np.sort l) 0).
Proof.
  intros Hall Hk. pose proof (sort_nth l k Hk) as Hlook.
  assert (Hin : List.nth k (Np.sort l) 0 ∈ Np.sort l)
    by (apply list_elem_of_lookup; eauto).
  unfold Np.sort in Hin at 2. rewrite merge_sort_Permutation in Hin.
  rewrite Forall_forall in Hall. apply Hall, Hin.
Qed.

(** The truncated median of samples of a range is in the range. *)
Lemma median_in_range lo hi (l : list Z) :
  0 <= lo -> l <> [] -> Forall (fun v => lo <= v <= hi) l ->
  lo <= int_of_float (Np.median l) <= hi.
Proof.
  intros Hlo Hne Hall.
  assert (Hlen : (0 < length l)%nat) by (destruct l; [congruence | cbn; lia]).
  unfold Np.median. destruct (Nat.even (length l)) eqn:Hpar.
  - apply Nat.even_spec in Hpar as [k Hk].
    assert (Hdiv : (length l / 2 = k)%nat)
      by (rewrite Hk, Nat.mul_comm; apply Nat.div_mul; lia).
    rewrite Hdiv. apply mean_in_range; [exact Hlo | discriminate |].
    constructor; [|constructor; [|constructor]];
      apply (sort_nth_Forall (fun v => lo <= v <= hi) l); (assumption || lia).
  - assert (Hdiv : (length l / 2 < length l)%nat)
      by (apply Nat.div_lt; lia).
    apply mean_in_range; [exact Hlo | discriminate |].
    constructor; [|constructor].
    apply (sort_nth_Forall (fun v => lo <= v <= hi) l); assumption.
Qed.

Lemma last_Forall (P : Z -> Prop) (l : list Z) :
  l <> [] -> Forall P l -> P (List.last l 0).
Proof.
  intros Hne Hall. induction Hall as [|x l Hx Hl IH]; [congruence|].
  destruct l as [|y l]; [exact Hx|]. apply IH. discriminate.
Qed.

Lemma admit_spo2_buffer_empty d :
  spo2_smoothing_buffer (admit_spo2 d) = [] -> spo2_smoothing_buffer d = [].
Proof.
  pose proof (admit_spo2_cases d) as Hc.
  destruct (spo2 (latest_data d)) as [v|]; [|rewrite Hc; auto].
  destruct (spo2_valid (latest_data d) && ((70 <=? v) && (v <=? 100)));
    [|rewrite Hc; auto].
  rewrite Hc. intros E.
  apply deque_append_nonempty in E; [contradiction | cbv; lia].
Qed.

(** On every device a program can hold, no smoothed SpO2 is present while
    the SpO2 smoothing buffer is empty. *)
Lemma reachable_empty_spo2_buffer d :
  reachable d -> spo2_smoothing_buffer d = [] -> smoothed_spo2 d = None.
Proof.
  induction 1 as [id nm mac | c d Hd IH]; [reflexivity|].
  destruct c as [now data_string | bt | bt | | ]; cbn [exec].
  - rewrite parse_data_run.
    destruct (first_bad (data_dict_of data_string)) as [k|]; cbn [snd].
    + exact IH.
    + set (d1 := set_latest_data _ d).
      rewrite fold_in_spo2_buffer. intros E.
      unfold fold_in.
      destruct (calculate_metrics_frame
                  (calculate_smoothed_values (admit_spo2 (admit_hr now d1))))
        as (_ & _ & _ & _ & _ & _ & ->).
      rewrite smoothed_spo2_cases, E. cbn.
      destruct (admit_spo2_frame (admit_hr now d1)) as (_ & _ & _ & _ & _ & -> & _).
      destruct (admit_hr_frame now d1) as (_ & Hb & _ & -> & _).
      apply IH. apply admit_spo2_buffer_empty in E. rewrite Hb in E. exact E.
  - destruct (connect_frame bt d) as (_ & _ & -> & _ & -> & _). exact IH.
  - destruct (disconnect_frame bt d) as (_ & _ & -> & _ & -> & _). exact IH.
  - destruct (calculate_smoothed_values_frame d) as (_ & _ & _ & _ & -> & _).
    intros E. rewrite smoothed_spo2_cases, E. cbn. apply IH, E.
  - destruct (calculate_metrics_frame d) as (_ & _ & _ & _ & -> & _ & ->).
    exact IH.
Qed.

Lemma length_zero_nil (l : list Z) : (0 <? length l)%nat = false -> l = [].
Proof. destruct l; [reflexivity | discriminate]. Qed.

Lemma length_pos_cons (l : list Z) : (0 <? length l)%nat = true -> l <> [].
Proof. destruct l; [discriminate | congruence]. Qed.

Lemma length_three_cons (l : list Z) : (3 <=? length l)%nat = true -> l <> [].
Proof. destruct l; [discriminate | congruence]. Qed.

(** X6.  On every device a program can hold, a smoothed heart rate is
    present exactly when the heart-rate smoothing buffer is not empty, and a
    smoothed SpO2 exactly when the SpO2 smoothing buffer is not empty. *)
Theorem smoothed_present_iff d :
  reachable d ->
  (smoothed_hr d = None <-> hr_smoothing_buffer d = [])
  /\ (smoothed_spo2 d = None <-> spo2_smoothing_buffer d = []).
Proof.
  intros Hd. destruct (reachable_up_to_date d Hd) as (Uh & Us & _).
  rewrite smoothed_hr_cases in Uh. rewrite smoothed_spo2_cases in Us.
  split; split.
  - intros E. rewrite E in Uh.
    destruct (3 <=? length (hr_smoothing_buffer d))%nat; [discriminate|].
    destruct (0 <? length (hr_smoothing_buffer d))%nat eqn:Hl; [discriminate|].
    apply length_zero_nil, Hl.
  - apply reachable_empty_buffer, Hd.
  - intros E. rewrite E in Us.
    destruct (3 <=? length (spo2_smoothing_buffer d))%nat; [discriminate|].
    destruct (0 <? length (spo2_smoothing_buffer d))%nat eqn:Hl; [discriminate|].
    apply length_zero_nil, Hl.
  - apply reachable_empty_spo2_buffer, Hd.
Qed.

Lemma smoothed_present_iff_witness :
  smoothed_hr (feed noon outlier_frames fresh) <> None.
Proof.
  destruct (smoothed_present_iff (feed noon outlier_frames fresh)) as [[H _] _].
  - apply reachable_run, reachable_init.
  - intros E. apply H in E. vm_compute in E. discriminate E.
Defined.

(** X7.  On every device a program can hold, the smoothed heart rate lies
    within the admitted range [40, 200] and the smoothed SpO2 within
    [70, 100]: no outlier can push a displayed value out of range. *)
Theorem smoothed_in_range d :
  reachable d ->
  (forall v, smoothed_hr d = Some v -> 40 <= v <= 200)
  /\ (forall v, smoothed_spo2 d = Some v -> 70 <= v <= 100).
Proof.
  intros Hd. destruct (reachable_up_to_date d Hd) as (Uh & Us & _).
  destruct (reachable_buffers_admitted d Hd) as (_ & _ & _ & _ & _ & Bh & Bs).
  rewrite smoothed_hr_cases in Uh. rewrite smoothed_spo2_cases in Us.
  split; intros v Hv.
  - rewrite Hv in Uh.
    destruct (3 <=? length (hr_smoothing_buffer d))%nat eqn:H3.
    + injection Uh as <-.
      apply median_in_range; [lia | apply length_three_cons, H3 | exact Bh].
    + destruct (0 <? length (hr_smoothing_buffer d))%nat eqn:H0.
      * injection Uh as <-.
        apply mean_in_range; [lia | apply length_pos_cons, H0 | exact Bh].
      * apply length_zero_nil in H0.
        rewrite (reachable_empty_buffer d Hd H0) in Hv. discriminate.
  - rewrite Hv in Us.
    destruct (3 <=? length (spo2_smoothing_buffer d))%nat eqn:H3.
    + injection Us as <-.
      apply mean_in_range; [lia | apply length_three_cons, H3 | exact Bs].
    + destruct (0 <? length (spo2_smoothing_buffer d))%nat eqn:H0.
      * injection Us as <-.
        apply (last_Forall (fun v => 70 <= v <= 100));
          [apply length_pos_cons, H0 | exact Bs].
      * apply length_zero_nil in H0.
        rewrite (reachable_empty_spo2_buffer d Hd H0) in Hv. discriminate.
Qed.

Lemma smoothed_in_range_witness :
  exists v,
    smoothed_hr (feed noon outlier_frames fresh) = Some v /\ 40 <= v <= 200.
Proof.
  destruct (smoothed_in_range (feed noon outlier_frames fresh)) as [H _].
  - apply reachable_run, reachable_init.
  - exists 74. split; [vm_compute; reflexivity|].
    apply H. vm_compute. reflexivity.
Defined.

(** * The history window *)

Lemma deque_append_room {A : Type} maxlen (q : list A) x :
  (length q < maxlen)%nat -> deque_append maxlen q x = q ++ [x].
Proof.
  intros H. unfold deque_append.
  destruct (Nat.ltb_spec maxlen (length (q ++ [x]))) as [H'|H']; [|reflexivity].
  rewrite length_app in H'. cbn in H'. lia.
Qed.

Lemma deque_append_full {A : Type} maxlen (q : list A) x :
  (0 < maxlen)%nat -> length q = maxlen ->
  deque_append maxlen q x = tl q ++ [x].
Proof.
  intros Hpos H. unfold deque_append.
  destruct (Nat.ltb_spec maxlen (length (q ++ [x]))) as [H'|H'].
  - destruct q; [cbn in H; lia | reflexivity].
  - rewrite length_app in H'. cbn in H'. lia.
Qed.

Lemma tl_drop {A : Type} (h : list A) k : tl (drop k h) = drop (S k) h.
Proof.
  revert k. induction h as [|y h IH]; intros [|k]; try reflexivity.
  cbn [drop]. apply IH.
Qed.

(** A buffer that holds the last [small] elements of a window still does
    after the same element is appended to both. *)
Lemma deque_append_recent {A : Type} big small (h b : list A) x :
  (0 < small <= big)%nat -> (length h <= big)%nat ->
  b = drop (length h - small) h ->
  deque_append small b x
  = drop (length (deque_append big h x) - small) (deque_append big h x).
Proof.
  intros [Hs Hsb] Hh ->.
  assert (Hb : length (drop (length h - small) h) = Nat.min (length h) small)
    by (rewrite length_drop; lia).
  destruct (Nat.lt_ge_cases (length h) big) as [Hroom|Hfull].
  - rewrite (deque_append_room big h x Hroom), length_app. cbn [length].
    destruct (Nat.lt_ge_cases (length h) small) as [Hfew|Hmany].
    + rewrite deque_append_room by lia.
      replace (length h - small)%nat with 0%nat by lia.
      replace (length h + 1 - small)%nat with 0%nat by lia. reflexivity.
    + rewrite deque_append_full by lia.
      rewrite tl_drop, drop_app_le by lia. f_equal. f_equal. lia.
  - assert (Hlen : length h = big) by lia.
    rewrite (deque_append_full big h x) by lia.
    rewrite deque_append_full by lia.
    rewrite tl_drop, length_app. cbn [length].
    destruct h as [|y h]; [cbn in Hlen; lia|]. cbn [tl length drop] in *.
    rewrite drop_app_le by lia. f_equal. f_equal. lia.
Qed.

Lemma deque_append_length_eq {A B : Type} maxlen (q1 : list A) (q2 : list B) x y :
  length q1 = length q2 ->
  length (deque_append maxlen q1 x) = length (deque_append maxlen q2 y).
Proof.
  intros E. unfold deque_append. rewrite !length_app, E. cbn [length].
  destruct (maxlen <? length q2 + 1)%nat; [|now rewrite !length_app, E].
  destruct q1, q2; try discriminate; cbn [tl app length] in *;
    rewrite ?length_app; cbn [length]; lia.
Qed.

Lemma window_aligned_same d d' :
  hr_history d' = hr_history d ->
  timestamp_history d' = timestamp_history d ->
  hr_smoothing_buffer d' = hr_smoothing_buffer d ->
  window_aligned d -> window_aligned d'.
Proof. unfold window_aligned. intros -> -> ->. tauto. Qed.

Lemma admit_hr_aligned now d :
  (length (hr_history d) <= hr_history_maxlen)%nat ->
  window_aligned d -> window_aligned (admit_hr now d).
Proof.
  intros Hcap [Ht Hb]. pose proof (admit_hr_cases now d) as Hc.
  destruct (hr (latest_data d)) as [v|]; [|rewrite Hc; split; assumption].
  destruct (hr_valid (latest_data d) && ((40 <=? v) && (v <=? 200)));
    [|rewrite Hc; split; assumption].
  destruct Hc as (Hh' & Ht' & Hb'). unfold window_aligned.
  rewrite Hh', Ht', Hb'. split.
  - apply deque_append_length_eq, Ht.
  - apply deque_append_recent; [cbv; lia | exact Hcap | exact Hb].
Qed.

Lemma reachable_window_aligned d : reachable d -> window_aligned d.
Proof.
  induction 1 as [id nm mac | c d Hd IH]; [split; reflexivity|].
  pose proof (reachable_buffers_admitted d Hd) as (Hcap & _).
  destruct c as [now data_string | bt | bt | | ]; cbn [exec].
  - rewrite parse_data_run.
    destruct (first_bad (data_dict_of data_string)) as [k|]; cbn [snd].
    + exact IH.
    + set (d1 := set_latest_data _ d).
      destruct (fold_in_hr_history now d1) as (A1 & A2 & A3).
      apply (window_aligned_same (admit_hr now d1)); try assumption.
      apply admit_hr_aligned; assumption.
  - destruct (connect_frame bt d) as (A1 & A2 & _).
    apply (window_aligned_same d); try assumption.
    unfold connect, bind, get, try_except, BluetoothSocket_new, sock_connect.
    destruct (mac_address d); [|reflexivity].
    destruct (new_socket bt); [destruct (connect_ok bt)|]; reflexivity.
  - destruct (disconnect_frame bt d) as (A1 & A2 & _).
    apply (window_aligned_same d); try assumption.
    unfold disconnect, bind, get, try_except, sock_close.
    destruct (sock d); [destruct (close_ok bt)|]; reflexivity.
  - destruct (calculate_smoothed_values_frame d) as (_ & A1 & A2 & A3 & _).
    apply (window_aligned_same d); assumption.
  - destruct (calculate_metrics_frame d) as (_ & A1 & A2 & A3 & _).
    apply (window_aligned_same d); assumption.
Qed.

(** X8.  On every device a program can hold: the history window holds at
    most 300 samples and a smoothing buffer at most 5; the window and the
    heart-rate buffer hold samples of [40, 200] only and the SpO2 buffer
    samples of [70, 100] only; there is one timestamp per sample of the
    window; and the heart-rate smoothing buffer is the last 5 samples of the
    window (all of them while there are fewer). *)
Theorem window_invariants d :
  reachable d ->
  (length (hr_history d) <= 300)%nat
  /\ (length (hr_smoothing_buffer d) <= 5)%nat
  /\ (length (spo2_smoothing_buffer d) <= 5)%nat
  /\ Forall (fun v => 40 <= v <= 200) (hr_history d)
  /\ Forall (fun v => 70 <= v <= 100) (spo2_smoothing_buffer d)
  /\ length (timestamp_history d) = length (hr_history d)
  /\ hr_smoothing_buffer d = drop (length (hr_history d) - 5) (hr_history d).
Proof.
  intros Hd.
  destruct (reachable_buffers_admitted d Hd) as (A1 & _ & A3 & A4 & A5 & _ & A7).
  destruct (reachable_window_aligned d Hd) as (B1 & B2).
  repeat split; assumption.
Qed.

Lemma window_invariants_witness :
  hr_smoothing_buffer (feed noon (outlier_frames ++ steady_frames) fresh)
  = drop (length (hr_history (feed noon (outlier_frames ++ steady_frames) fresh))
          - 5)
      (hr_history (feed noon (outlier_frames ++ steady_frames) fresh)).
Proof.
  apply (window_invariants (feed noon (outlier_frames ++ steady_frames) fresh)).
  apply reachable_run, reachable_init.
Defined.

(** The window after an accepted frame, from the reading the frame leaves:
    its heart rate is appended when the flag is true and the range holds,
    whether or not the frame carried it. *)
Lemma parse_data_history now data_string d d' :
  parse_data now data_string d = (Ret true, d') ->
  match hr (latest_data d') with
  | Some v =>
      if hr_valid (latest_data d') && ((40 <=? v) && (v <=? 200))
      then hr_history d' = deque_append hr_history_maxlen (hr_history d) v
           /\ hr_smoothing_buffer d'
              = deque_append smoothing_maxlen (hr_smoothing_buffer d) v
      else hr_history d' = hr_history d
           /\ hr_smoothing_buffer d' = hr_smoothing_buffer d
  | None => hr_history d' = hr_history d
            /\ hr_smoothing_buffer d' = hr_smoothing_buffer d
  end.
Proof.
  intros Hrun. pose proof (parse_data_true _ _ _ _ Hrun) as Hv.
  rewrite (parse_data_valid _ _ _ Hv) in Hrun. injection Hrun as <-.
  set (d1 := set_latest_data _ d).
  rewrite fold_in_latest_data.
  destruct (fold_in_hr_history now d1) as (-> & _ & ->).
  pose proof (admit_hr_cases now d1) as Hc.
  destruct (hr (latest_data d1)) as [v|]; [|rewrite Hc; split; reflexivity].
  destruct (hr_valid (latest_data d1) && ((40 <=? v) && (v <=? 200))).
  - destruct Hc as (Hh & _ & Hb). split; assumption.
  - rewrite Hc. split; reflexivity.
Qed.

(** X9.  The window is first in, first out: on a device a program can
    hold, an accepted frame that leaves a valid heart rate [v] of the range
    appends [v] to the window, and once the window holds 300 samples the
    oldest one leaves; the newest sample is always the last one. *)
Theorem window_fifo now data_string d d' v :
  reachable d ->
  parse_data now data_string d = (Ret true, d') ->
  hr (latest_data d') = Some v ->
  hr_valid (latest_data d') = true ->
  40 <= v <= 200 ->
  hr_history d'
  = (if (length (hr_history d) <? 300)%nat then hr_history d
     else tl (hr_history d)) ++ [v]
  /\ List.last (hr_history d') 0 = v
  /\ length (hr_history d') = Nat.min (S (length (hr_history d))) 300.
Proof.
  intros Hd Hrun Hhr Hflag Hr.
  pose proof (parse_data_history _ _ _ _ Hrun) as H.
  rewrite Hhr, Hflag in H. cbn [andb] in H.
  rewrite (proj2 (in_range_true 40 200 v) Hr) in H. destruct H as [Hh _].
  pose proof (reachable_buffers_admitted d Hd) as (Hcap & _).
  unfold hr_history_maxlen in *.
  assert (E : hr_history d'
              = (if (length (hr_history d) <? 300)%nat then hr_history d
                 else tl (hr_history d)) ++ [v]).
  { rewrite Hh. destruct (Nat.ltb_spec (length (hr_history d)) 300).
    - apply deque_append_room. assumption.
    - apply deque_append_full; lia. }
  split; [exact E|]. rewrite E. split.
  - apply List.last_last.
  - rewrite length_app. cbn [length].
    destruct (Nat.ltb_spec (length (hr_history d)) 300); [lia|].
    destruct (hr_history d); cbn [tl length] in *; lia.
Qed.

Lemma window_fifo_witness :
  hr_history (snd (parse_data noon "HR:80" (feed noon steady_frames fresh)))
  = [60; 60; 60; 60; 80].
Proof.
  assert (Hrun : parse_data noon "HR:80" (feed noon steady_frames fresh)
                 = (Ret true,
                    snd (parse_data noon "HR:80" (feed noon steady_frames fresh))))
    by (vm_compute; reflexivity).
  destruct (window_fifo _ _ _ _ 80 (reachable_run _ _ (reachable_init _ _ _)) Hrun)
    as (E & _); [vm_compute; reflexivity .. | lia |].
  rewrite E. vm_compute. reflexivity.
Defined.

(** X10.  A frame without heart rate admits the earlier one again: on an
    accepted frame that carries no HR key, the heart rate [v] left by the
    earlier frames is appended once more to the window and to the smoothing
    buffer when the flag in force is true and [40 <= v <= 200], for example
    on a frame that carries a status only. *)
Theorem stale_sample_readmitted now data_string d d' v :
  parse_data now data_string d = (Ret true, d') ->
  data_dict_of data_string !! "HR" = None ->
  hr (latest_data d) = Some v ->
  hr_valid (latest_data d') = true ->
  40 <= v <= 200 ->
  hr_history d' = deque_append hr_history_maxlen (hr_history d) v
  /\ hr_smoothing_buffer d'
     = deque_append smoothing_maxlen (hr_smoothing_buffer d) v.
Proof.
  intros Hrun Hkey Hhr Hflag Hr.
  pose proof (parse_data_history _ _ _ _ Hrun) as H.
  assert (Hhr' : hr (latest_data d') = Some v).
  { pose proof (parse_data_true _ _ _ _ Hrun) as Hv.
    pose proof Hrun as Hrun'.
    rewrite (parse_data_valid _ _ _ Hv) in Hrun'. injection Hrun' as <-.
    rewrite fold_in_latest_data. cbn. unfold field_after. rewrite Hkey.
    exact Hhr. }
  rewrite Hhr', Hflag in H. cbn [andb] in H.
  rewrite (proj2 (in_range_true 40 200 v) Hr) in H. exact H.
Qed.

Lemma stale_sample_readmitted_witness :
  hr_history
    (snd (parse_data noon "STATUS:NO_FINGER"
            (exec (ParseData noon "HR:72,HR_VALID:1") fresh)))
  = [72; 72].
Proof.
  assert (Hrun : parse_data noon "STATUS:NO_FINGER"
                   (exec (ParseData noon "HR:72,HR_VALID:1") fresh)
                 = (Ret true,
                    snd (parse_data noon "STATUS:NO_FINGER"
                           (exec (ParseData noon "HR:72,HR_VALID:1") fresh))))
    by (vm_compute; reflexivity).
  destruct (stale_sample_readmitted _ _ _ _ 72 Hrun) as (E & _);
    [vm_compute; reflexivity .. | lia |].
  rewrite E. vm_compute. reflexivity.
Defined.

(** * The metrics of the window *)

Lemma sumQ_nonneg l : Forall (fun q => (0 <= q)%Q) l -> (0 <= Np.sumQ l)%Q.
Proof.
  induction 1 as [|q l Hq _ IH]; [apply Qle_refl|].
  cbn [Np.sumQ fold_right]. fold (Np.sumQ l).
  replace 0%Q with (0 + 0)%Q by reflexivity. apply Qplus_le_compat; assumption.
Qed.

Lemma sumQ_zero l :
  Forall (fun q => (0 <= q)%Q) l ->
  (Np.sumQ l == 0)%Q <-> Forall (fun q => (q == 0)%Q) l.
Proof.
  induction 1 as [|q l Hq Hl IH].
  - split; [constructor | reflexivity].
  - cbn [Np.sumQ fold_right]. fold (Np.sumQ l).
    pose proof (sumQ_nonneg l Hl) as Hs. split.
    + intros E.
      assert (Hq0 : (q == 0)%Q).
      { apply Qle_antisym; [|exact Hq].
        rewrite <- E. rewrite <- (Qplus_0_r q) at 1.
        apply Qplus_le_compat; [apply Qle_refl | exact Hs]. }
      constructor; [exact Hq0|]. apply IH.
      rewrite Hq0, Qplus_0_l in E. exact E.
    + intros Hall. inversion Hall as [|? ? Hq0 Hl0]; subst.
      rewrite Hq0, Qplus_0_l. apply IH, Hl0.
Qed.

Lemma meanQ_zero l :
  l <> [] -> Forall (fun q => (0 <= q)%Q) l ->
  (Np.meanQ l == 0)%Q <-> Forall (fun q => (q == 0)%Q) l.
Proof.
  intros Hne Hall. rewrite <- (sumQ_zero l Hall). unfold Np.meanQ.
  assert (Hn : ~ (inject_Z (Z.of_nat (length l)) == 0)%Q).
  { destruct l; [congruence|]. unfold Qeq. cbn [length]. cbn. lia. }
  split; intros E.
  - rewrite <- (Qmult_div_r (Np.sumQ l) _ Hn), E. apply Qmult_0_r.
  - rewrite E. unfold Qdiv. apply Qmult_0_l.
Qed.

Lemma meanQ_nonneg l : Forall (fun q => (0 <= q)%Q) l -> (0 <= Np.meanQ l)%Q.
Proof.
  intros Hall. unfold Np.meanQ.
  destruct l as [|q l]; [cbn; apply Qle_refl|].
  apply Qle_shift_div_l.
  - rewrite <- (Zlt_Qlt 0). cbn [length]. lia.
  - rewrite Qmult_0_l. apply sumQ_nonneg, Hall.
Qed.

Lemma square_nonneg q : (0 <= q * q)%Q.
Proof. unfold Qle. cbn. nia. Qed.

Lemma square_zero q : (q * q == 0)%Q <-> (q == 0)%Q.
Proof. unfold Qeq. cbn. nia. Qed.

(** [np.sqrt] vanishes on zero only. *)
Lemma np_sqrt_zero q : (0 <= q)%Q -> Np.sqrt q = 0%R <-> (q == 0)%Q.
Proof.
  intros Hq. split.
  - unfold Np.sqrt. intros E. apply eqR_Qeq. rewrite RMicromega.Q2R_0.
    apply sqrt_eq_0; [|exact E].
    rewrite <- RMicromega.Q2R_0. apply Qle_Rle, Hq.
  - apply sqrt_zero.
Qed.

Lemma constant_mean (w : list Z) c :
  w <> [] -> Forall (fun x => x = c) w -> (Np.mean w == inject_Z c)%Q.
Proof.
  intros Hne Hall. rewrite mean_arithmetic. unfold arithmetic_mean.
  assert (Hs : fold_right Z.add 0 w = Z.of_nat (length w) * c).
  { clear Hne. induction Hall as [|x w Hx _ IH]; [reflexivity|].
    cbn [fold_right length]. rewrite IH, Hx. lia. }
  rewrite Hs, inject_Z_mult.
  rewrite Qmult_comm. apply Qdiv_mult_l.
  destruct w; [congruence|]. unfold Qeq. cbn [length]. cbn. lia.
Qed.

(** The variance of numpy vanishes on constant windows only. *)
Lemma var_zero (w : list Z) : w <> [] -> (Np.var w == 0)%Q <-> constant w.
Proof.
  intros Hne. unfold Np.var.
  rewrite meanQ_zero;
    [|destruct w; [congruence | discriminate]
     |rewrite Forall_fmap; apply Forall_true; intros x; apply square_nonneg].
  change (map ?f w) with (f <$> w). rewrite Forall_fmap. split.
  - intros Hall x y Hx Hy. rewrite Forall_forall in Hall.
    pose proof (proj1 (square_zero _) (Hall x Hx)) as Ex.
    pose proof (proj1 (square_zero _) (Hall y Hy)) as Ey.
    assert (E : (inject_Z x == inject_Z y)%Q).
    { apply Qplus_inj_r with (- Np.mean w)%Q.
      transitivity 0%Q; [exact Ex | symmetry; exact Ey]. }
    unfold Qeq in E. cbn in E. lia.
  - intros Hc. destruct w as [|c w]; [congruence|].
    assert (Hall : Forall (fun x => x = c) (c :: w)).
    { apply Forall_forall. intros x Hx. apply Hc; [exact Hx | left]. }
    pose proof (constant_mean (c :: w) c Hne Hall) as Em.
    apply Forall_forall. intros x Hx. cbn.
    rewrite Forall_forall in Hall. rewrite (Hall x Hx), Em.
    unfold Qeq. cbn. lia.
Qed.

Lemma var_nonneg (w : list Z) : (0 <= Np.var w)%Q.
Proof.
  unfold Np.var. apply meanQ_nonneg.
  change (map ?f w) with (f <$> w). rewrite Forall_fmap.
  apply Forall_true. intros x. apply square_nonneg.
Qed.

Lemma constant_cons x y (r : list Z) :
  constant (x :: y :: r) <-> x = y /\ constant (y :: r).
Proof.
  unfold constant. split.
  - intros H. split.
    + apply H; [left | right; left].
    + intros a b Ha Hb. apply H; right; assumption.
  - intros [-> H] a b Ha Hb.
    apply elem_of_cons in Ha as [->|Ha]; apply elem_of_cons in Hb as [->|Hb];
      try reflexivity; apply H; (assumption || left).
Qed.

Lemma diff_zero (w : list Z) :
  Forall (fun s => s = 0) (Np.diff w) <-> constant w.
Proof.
  induction w as [|x [|y r] IH].
  - split; [intros _ a b Ha; inversion Ha | constructor].
  - split; [|constructor].
    intros _ a b Ha Hb.
    apply list_elem_of_singleton in Ha, Hb. congruence.
  - change (Np.diff (x :: y :: r)) with ((y - x) :: Np.diff (y :: r)).
    rewrite Forall_cons, IH, constant_cons. intuition lia.
Qed.

Lemma diff_length (w : list Z) : length (Np.diff w) = (length w - 1)%nat.
Proof.
  induction w as [|x [|y r] IH]; [reflexivity ..|].
  change (Np.diff (x :: y :: r)) with ((y - x) :: Np.diff (y :: r)).
  cbn [length] in *. lia.
Qed.

Lemma diff_nonempty (w : list Z) : (2 <= length w)%nat -> Np.diff w <> [].
Proof.
  intros H E. pose proof (diff_length w) as Hl. rewrite E in Hl. cbn in Hl. lia.
Qed.

(** The mean of the squared successive differences vanishes on constant
    windows only, and is never negative. *)
Lemma steps_zero (w : list Z) :
  (2 <= length w)%nat ->
  (Np.mean (Np.square (Np.diff w)) == 0)%Q <-> constant w.
Proof.
  intros Hlen. rewrite <- diff_zero. unfold Np.mean, Np.square.
  pose proof (diff_nonempty w Hlen) as Hne.
  rewrite meanQ_zero.
  - change (map ?f ?l) with (f <$> l). rewrite !Forall_fmap.
    apply Forall_iff. intros s. cbn. unfold Qeq. cbn. nia.
  - destruct (Np.diff w); [congruence | discriminate].
  - change (map ?f ?l) with (f <$> l). rewrite !Forall_fmap.
    apply Forall_true. intros s. cbn. unfold Qle. cbn. nia.
Qed.

Lemma steps_nonneg (w : list Z) : (0 <= Np.mean (Np.square (Np.diff w)))%Q.
Proof.
  unfold Np.mean, Np.square. apply meanQ_nonneg.
  change (map ?f ?l) with (f <$> l). rewrite !Forall_fmap.
  apply Forall_true. intros s. cbn. unfold Qle. cbn. nia.
Qed.

Lemma sum_sq_steps_diff (w : list Z) :
  sumR (map IZR (Np.square (Np.diff w))) = sum_sq_steps w.
Proof.
  induction w as [|x [|y r] IH]; [reflexivity ..|].
  change (Np.diff (x :: y :: r)) with ((y - x) :: Np.diff (y :: r)).
  change (sum_sq_steps (x :: y :: r))
    with ((IZR y - IZR x) * (IZR y - IZR x) + sum_sq_steps (y :: r))%R.
  rewrite <- IH. unfold Np.square, sumR. cbn [map fold_right].
  rewrite mult_IZR, minus_IZR. reflexivity.
Qed.

(** [np.sqrt(np.mean(np.diff(a) ** 2))] is the root mean square of the
    successive differences. *)
Lemma rmssd_successive (w : list Z) :
  (2 <= length w)%nat ->
  Np.sqrt (Np.mean (Np.square (Np.diff w))) = rms_successive w.
Proof.
  intros Hlen. unfold Np.sqrt, rms_successive.
  assert (Hne : Np.square (Np.diff w) <> []).
  { unfold Np.square. pose proof (diff_nonempty w Hlen).
    destruct (Np.diff w); [congruence | discriminate]. }
  rewrite (Q2R_mean _ Hne). unfold mean_R.
  rewrite sum_sq_steps_diff. unfold Np.square.
  rewrite length_map, diff_length, minus_INR by lia. reflexivity.
Qed.

(** X11.  On every device a program can hold, the four metrics of the
    window (mean, its alias, standard deviation, RMSSD) are present exactly
    when the window holds at least 2 samples; the alias always equals the
    mean; and the mean lies within [40, 200]. *)
Theorem metrics_present_iff d :
  reachable d ->
  (bpm (metrics d) = None <-> (length (hr_history d) < 2)%nat)
  /\ (hrstd (metrics d) = None <-> (length (hr_history d) < 2)%nat)
  /\ (rmssd (metrics d) = None <-> (length (hr_history d) < 2)%nat)
  /\ ipm (metrics d) = bpm (metrics d)
  /\ (forall q, bpm (metrics d) = Some q ->
        (inject_Z 40 <= q)%Q /\ (q <= inject_Z 200)%Q).
Proof.
  intros Hd. destruct (reachable_up_to_date d Hd) as (_ & _ & Um).
  pose proof (reachable_metrics_unset d Hd) as Hshort.
  destruct (reachable_buffers_admitted d Hd) as (_ & _ & _ & _ & Bh & _).
  destruct (Nat.lt_ge_cases (length (hr_history d)) 2) as [Hlen|Hlen].
  - rewrite (Hshort Hlen). cbn.
    repeat split; try (intros; (assumption || reflexivity || discriminate)).
  - destruct (Um Hlen) as (Eb & Ei & Es & Er). rewrite Eb, Ei, Es, Er.
    repeat split; try (intros; (discriminate || lia || reflexivity)).
    + injection H as <-. rewrite mean_arithmetic.
      apply (arithmetic_mean_bounds 40 200);
        [apply nonempty_of_length, Hlen | exact Bh].
    + injection H as <-. rewrite mean_arithmetic.
      apply (arithmetic_mean_bounds 40 200);
        [apply nonempty_of_length, Hlen | exact Bh].
Qed.

Lemma metrics_present_iff_witness :
  bpm (metrics (feed noon steady_frames fresh)) <> None.
Proof.
  destruct (metrics_present_iff (feed noon steady_frames fresh)) as ([H _] & _).
  - apply reachable_run, reachable_init.
  - intros E. apply H in E. vm_compute in E. lia.
Defined.

(** X12.  On every device a program can hold whose window has at least 2
    samples, the standard deviation is 0 exactly when all samples of the
    window are the same, and so is the RMSSD. *)
Theorem variability_zero_iff d :
  reachable d -> (2 <= length (hr_history d))%nat ->
  (hrstd (metrics d) = Some 0%R <-> constant (hr_history d))
  /\ (rmssd (metrics d) = Some 0%R <-> constant (hr_history d)).
Proof.
  intros Hd Hlen. destruct (reachable_up_to_date d Hd) as (_ & _ & Um).
  destruct (Um Hlen) as (_ & _ & -> & ->).
  pose proof (nonempty_of_length _ Hlen) as Hne.
  split.
  - rewrite <- (var_zero _ Hne). unfold Np.std.
    rewrite <- (np_sqrt_zero _ (var_nonneg _)).
    split; [intros E; injection E as E; exact E | intros ->; reflexivity].
  - rewrite <- (steps_zero _ Hlen).
    rewrite <- (np_sqrt_zero _ (steps_nonneg _)).
    split; [intros E; injection E as E; exact E | intros ->; reflexivity].
Qed.

Lemma variability_zero_iff_witness :
  hrstd (metrics (feed noon outlier_frames fresh)) <> Some 0%R.
Proof.
  destruct (variability_zero_iff (feed noon outlier_frames fresh)) as ([H _] & _).
  - apply reachable_run, reachable_init.
  - vm_compute. lia.
  - intros E. apply H in E.
    assert (Hh : hr_history (feed noon outlier_frames fresh) = [72; 75; 200; 74; 73])
      by (vm_compute; reflexivity).
    rewrite Hh in E. specialize (E 72 75).
    assert (72 = 75) by (apply E; [left | right; left]). lia.
Defined.

(** X13.  On every device a program can hold whose window has [n >= 2]
    samples, the RMSSD is the square root of the sum of the squared
    differences of consecutive samples, oldest first, divided by
    [n - 1]. *)
Theorem rmssd_of_window d :
  reachable d -> (2 <= length (hr_history d))%nat ->
  rmssd (metrics d) = Some (rms_successive (hr_history d)).
Proof.
  intros Hd Hlen. destruct (reachable_up_to_date d Hd) as (_ & _ & Um).
  destruct (Um Hlen) as (_ & _ & _ & ->).
  rewrite rmssd_successive by exact Hlen. reflexivity.
Qed.

Lemma rmssd_of_window_witness :
  rmssd (metrics (feed noon outlier_frames fresh))
  = Some (rms_successive (hr_history (feed noon outlier_frames fresh))).
Proof.
  apply rmssd_of_window.
  - apply reachable_run, reachable_init.
  - vm_compute. lia.
Defined.

(** * The manager of several devices *)

Lemma connect_returns bt d : exists ok, fst (connect bt d) = Ret ok.
Proof.
  unfold connect, bind, get, try_except, BluetoothSocket_new, sock_connect.
  destruct (mac_address d); [|eauto].
  destruct (new_socket bt); [destruct (connect_ok bt)|]; cbn; eauto.
Qed.

Lemma disconnect_returns bt d : fst (disconnect bt d) = Ret tt.
Proof.
  unfold disconnect, bind, get, try_except, sock_close.
  destruct (sock d); [destruct (close_ok bt)|]; reflexivity.
Qed.

(** The loop of [connect_all], device by device. *)
Lemma connect_each_lookup bts i ds :
  fst (connect_each bts i ds) = Ret tt
  /\ length (snd (connect_each bts i ds)) = length ds
  /\ forall k d,
      ds !! k = Some d ->
      snd (connect_each bts i ds) !! k
      = Some (if has_mac d then snd (connect (bts (i + k)%nat) d) else d).
Proof.
  revert i. induction ds as [|d ds IH]; intros i.
  - repeat split. intros k d H. rewrite lookup_nil in H. discriminate.
  - cbn [connect_each]. destruct (IH (S i)) as (Ho & Hl & Hk).
    destruct (has_mac d) eqn:Hmac.
    + destruct (connect_returns (bts i) d) as [ok Hok].
      destruct (connect (bts i) d) as [o d'] eqn:Hc. cbn [fst snd] in *. subst o.
      destruct (connect_each bts (S i) ds) as [o rest']. cbn [fst snd] in *.
      split; [exact Ho|]. split; [cbn; lia|].
      intros [|k] x Hx; cbn in Hx.
      * injection Hx as <-. rewrite Hmac, Nat.add_0_r, Hc. reflexivity.
      * change ((d' :: rest') !! S k) with (rest' !! k).
        rewrite (Hk k x Hx). replace (S i + k)%nat with (i + S k)%nat by lia.
        reflexivity.
    + destruct (connect_each bts (S i) ds) as [o rest']. cbn [fst snd] in *.
      split; [exact Ho|]. split; [cbn; lia|].
      intros [|k] x Hx; cbn in Hx.
      * injection Hx as <-. rewrite Hmac. reflexivity.
      * change ((d :: rest') !! S k) with (rest' !! k).
        rewrite (Hk k x Hx). replace (S i + k)%nat with (i + S k)%nat by lia.
        reflexivity.
Qed.

Lemma connect_connected bt d :
  connected (snd (connect bt d))
  = match mac_address d with
    | Some _ => match new_socket bt with
                | Some _ => connect_ok bt
                | None => false
                end
    | None => connected d
    end.
Proof.
  unfold connect, bind, get, try_except, BluetoothSocket_new, sock_connect.
  destruct (mac_address d); [|reflexivity].
  destruct (new_socket bt); [destruct (connect_ok bt)|]; reflexivity.
Qed.

(** X14.  [connect_all] raises nothing and keeps the devices, their order
    and their data.  A device whose MAC address is missing or empty is left
    exactly as it was; any other device ends connected exactly when the
    Bluetooth stack built a socket and accepted the connection, whatever
    its state before. *)
Theorem connect_all_outcome bts m :
  fst (connect_all bts m) = Ret tt
  /\ running (snd (connect_all bts m)) = running m
  /\ length (devices (snd (connect_all bts m))) = length (devices m)
  /\ forall k d,
      devices m !! k = Some d ->
      exists d',
        devices (snd (connect_all bts m)) !! k = Some d'
        /\ device_id d' = device_id d
        /\ frozen d d' /\ nothing_admitted d d'
        /\ (has_mac d = false -> d' = d)
        /\ (has_mac d = true ->
            connected d'
            = match new_socket (bts k) with
              | Some _ => connect_ok (bts k)
              | None => false
              end).
Proof.
  unfold connect_all.
  destruct (connect_each_lookup bts 0 (devices m)) as (Ho & Hl & Hk).
  destruct (connect_each bts 0 (devices m)) as [o ds]. cbn [fst snd] in *.
  repeat split; try assumption.
  intros k d Hd. specialize (Hk k d Hd). cbn [Nat.add] in Hk.
  eexists. split; [exact Hk|].
  destruct (has_mac d) eqn:Hmac.
  - destruct (connect_frame (bts k) d) as (A1 & A2 & A3 & A4 & A5 & A6).
    split.
    { unfold connect, bind, get, try_except, BluetoothSocket_new, sock_connect.
      destruct (mac_address d); [|reflexivity].
      destruct (new_socket (bts k)); [destruct (connect_ok (bts k))|];
        reflexivity. }
    split; [repeat split; assumption|].
    split; [repeat split; assumption|].
    split; [discriminate|]. intros _. rewrite connect_connected.
    unfold has_mac in Hmac. destruct (mac_address d); [reflexivity | discriminate].
  - repeat split; try reflexivity. discriminate.
Qed.

Lemma connect_all_outcome_witness :
  exists d',
    devices (snd (connect_all (fun _ => willing)
                    (add_device 2 "ESP32_HR_2" (Some "")
                       (add_device 1 "ESP32_HR_1" (Some "AA:BB") manager_init))))
    !! 1%nat = Some d'
    /\ d' = init 2 "ESP32_HR_2" (Some "").
Proof.
  destruct (connect_all_outcome (fun _ => willing)
              (add_device 2 "ESP32_HR_2" (Some "")
                 (add_device 1 "ESP32_HR_1" (Some "AA:BB") manager_init)))
    as (_ & _ & _ & H).
  destruct (H 1%nat (init 2 "ESP32_HR_2" (Some "")) eq_refl)
    as (d' & Hk & _ & _ & _ & Hsame & _).
  exists d'. split; [exact Hk | apply Hsame; reflexivity].
Defined.

Lemma disconnect_state bt d :
  snd (disconnect bt d)
  = set_latest_data (set_status "disconnected" (latest_data d))
      (set_connected false d).
Proof.
  unfold disconnect, bind, get, try_except, sock_close.
  destruct (sock d); [destruct (close_ok bt)|]; reflexivity.
Qed.

Lemma disconnect_each_map bts i ds :
  disconnect_each bts i ds
  = (Ret tt, map (fun d => snd (disconnect willing d)) ds).
Proof.
  revert i. induction ds as [|d ds IH]; intros i; [reflexivity|].
  cbn [disconnect_each map].
  pose proof (disconnect_returns (bts i) d) as Ho.
  pose proof (disconnect_state (bts i) d) as Hs.
  destruct (disconnect (bts i) d) as [o d']. cbn [fst snd] in *. subst o.
  rewrite IH, Hs, disconnect_state. reflexivity.
Qed.

(** X15.  [stop] raises nothing, whatever the sockets do on [close]: the
    manager stops running, every device ends not connected with status
    "disconnected", keeps its identifier, window, buffers, smoothed values
    and metrics, and a second [stop] changes nothing more. *)
Theorem stop_outcome bts bts' m :
  fst (stop bts m) = Ret tt
  /\ running (snd (stop bts m)) = false
  /\ Forall (fun d' => connected d' = false
                       /\ status (latest_data d') = "disconnected")
       (devices (snd (stop bts m)))
  /\ Forall2 (fun d d' => device_id d' = device_id d
                          /\ frozen d d' /\ nothing_admitted d d')
       (devices m) (devices (snd (stop bts m)))
  /\ stop bts' (snd (stop bts m)) = (Ret tt, snd (stop bts m)).
Proof.
  unfold stop. rewrite disconnect_each_map. cbn [fst snd devices running].
  split; [reflexivity|]. split; [reflexivity|]. split; [|split].
  - change (map ?f ?l) with (f <$> l). rewrite Forall_fmap.
    apply Forall_true. intros d. unfold compose. rewrite disconnect_state.
    split; reflexivity.
  - change (map ?f ?l) with (f <$> l). apply Forall2_fmap_r.
    apply Forall_Forall2_diag, Forall_true. intros d. unfold compose.
    rewrite disconnect_state. repeat split; reflexivity.
  - rewrite disconnect_each_map. f_equal. f_equal.
    rewrite map_map. apply map_ext. intros d.
    rewrite !disconnect_state. reflexivity.
Qed.

Lemma all_data_of_snoc ds d :
  all_data_of (ds ++ [d]) = <[device_id d := snapshot d]> (all_data_of ds).
Proof. unfold all_data_of. rewrite fold_left_app. reflexivity. Qed.

Lemma all_data_of_absent ds i :
  i ∉ map device_id ds -> all_data_of ds !! i = None.
Proof.
  induction ds as [|d ds IH] using rev_ind; intros Hi.
  - apply lookup_empty.
  - rewrite all_data_of_snoc. rewrite map_app in Hi. cbn [map] in Hi.
    rewrite elem_of_app, list_elem_of_singleton in Hi.
    rewrite lookup_insert_ne by (intros E; apply Hi; right; symmetry; exact E).
    apply IH. intros H. apply Hi. left. exact H.
Qed.

(** X16.  [get_all_data] with distinct device identifiers: every device of
    the manager is found under its identifier with its own name, reading,
    metrics, connection flag and smoothed values, and the dictionary has one
    entry per device. *)
Theorem get_all_data_distinct m :
  NoDup (map device_id (devices m)) ->
  (forall d, d ∈ devices m -> get_all_data m !! device_id d = Some (snapshot d))
  /\ size (get_all_data m) = length (devices m).
Proof.
  unfold get_all_data. generalize (devices m). clear m.
  induction l as [|x ds IH] using rev_ind; intros Hnd.
  - split; [intros d Hd; inversion Hd | reflexivity].
  - rewrite map_app in Hnd. cbn [map] in Hnd.
    apply NoDup_app in Hnd as (Hds & Hx & _).
    destruct (IH Hds) as [Hlook Hsize].
    rewrite all_data_of_snoc. split.
    + intros d Hd. apply elem_of_app in Hd as [Hd|Hd].
      * rewrite lookup_insert_ne; [apply Hlook, Hd|].
        intros E. apply (Hx (device_id d)).
        -- apply list_elem_of_fmap. exists d. split; [reflexivity | exact Hd].
        -- rewrite <- E. left.
      * apply list_elem_of_singleton in Hd as ->. apply lookup_insert_eq.
    + rewrite map_size_insert_None.
      * rewrite Hsize, length_app. cbn. lia.
      * apply all_data_of_absent. intros H. apply (Hx _ H). left.
Qed.

Lemma get_all_data_distinct_witness :
  get_all_data
    (add_device 2 "ESP32_HR_2" None
       (add_device 1 "ESP32_HR_1" (Some "AA:BB") manager_init))
  !! 2 = Some (snapshot (init 2 "ESP32_HR_2" None)).
Proof.
  destruct (get_all_data_distinct
              (add_device 2 "ESP32_HR_2" None
                 (add_device 1 "ESP32_HR_1" (Some "AA:BB") manager_init)))
    as [H _].
  - cbn. apply NoDup_cons_2; [|apply NoDup_singleton].
    rewrite list_elem_of_singleton. lia.
  - apply (H (init 2 "ESP32_HR_2" None)). cbn.
    apply elem_of_cons. right. apply list_elem_of_singleton. reflexivity.
Defined.

(** X17.  A device added under an identifier is the one [get_all_data]
    shows under it, hiding any device added earlier under the same
    identifier; the entries of the other identifiers are as before. *)
Theorem add_device_shadows id nm mac m :
  get_all_data (add_device id nm mac m) !! id = Some (snapshot (init id nm mac))
  /\ forall i, i <> id ->
       get_all_data (add_device id nm mac m) !! i = get_all_data m !! i.
Proof.
  unfold get_all_data, add_device. cbn [devices].
  rewrite all_data_of_snoc. cbn [device_id init]. split.
  - apply lookup_insert_eq.
  - intros i Hi. apply lookup_insert_ne. congruence.
Qed.

Lemma add_device_shadows_witness :
  let m := add_device 1 "B" None manager_init in
  get_all_data (add_device 1 "A" (Some "AA:BB") m) !! 1
  = Some (snapshot (init 1 "A" (Some "AA:BB")))
  /\ get_all_data (add_device 1 "A" (Some "AA:BB") m) !! 2 = get_all_data m !! 2.
Proof.
  intros m.
  destruct (add_device_shadows 1 "A" (Some "AA:BB") m) as (H1 & H2).
  split; [exact H1 | apply H2; lia].
Defined.

(** * More on frames and on the life cycle *)

Lemma contains_token k v : Py.contains ":" (String.append k (String ":" v)) = true.
Proof.
  induction k as [|c k IH]; [reflexivity|].
  change (String.append (String c k) (String ":" v))
    with (String c (String.append k (String ":" v))).
  cbn [Py.contains]. rewrite IH. apply orb_true_r.
Qed.

(** A token splits back into its key and its value. *)
Lemma split1_token k v :
  Py.contains ":" k = false ->
  Py.split1 ":" (String.append k (String ":" v)) = (k, v).
Proof.
  induction k as [|c k IH]; [reflexivity|].
  change (String.append (String c k) (String ":" v))
    with (String c (String.append k (String ":" v))).
  cbn [Py.contains Py.split1]. intros H.
  apply orb_false_iff in H as [Hc Hk]. rewrite Hc, (IH Hk). reflexivity.
Qed.

Lemma build_dict_snoc parts part :
  build_dict (parts ++ [part])
  = if Py.contains ":" part
    then <[fst (Py.split1 ":" part) := snd (Py.split1 ":" part)]> (build_dict parts)
    else build_dict parts.
Proof.
  unfold build_dict. rewrite fold_left_app. cbn [fold_left].
  destruct (Py.contains ":" part); [|reflexivity].
  destruct (Py.split1 ":" part). reflexivity.
Qed.

(** X18.  In the dictionary of a frame the last token of a key counts and
    a value may hold colons: when the last comma-separated part of the line
    is [key:value], the key free of colons, the dictionary gives [value] for
    the key, whatever the earlier parts, and for every other key what the
    earlier parts give. *)
Theorem data_dict_last_token data_string parts k v :
  Py.split "," (Py.strip data_string) = parts ++ [String.append k (String ":" v)] ->
  Py.contains ":" k = false ->
  data_dict_of data_string !! k = Some v
  /\ forall k', k' <> k ->
       data_dict_of data_string !! k' = build_dict parts !! k'.
Proof.
  intros Hparts Hk. unfold data_dict_of. rewrite Hparts, build_dict_snoc.
  rewrite contains_token, (split1_token k v Hk). cbn [fst snd]. split.
  - apply lookup_insert_eq.
  - intros k' Hne. apply lookup_insert_ne. congruence.
Qed.

Lemma data_dict_last_token_witness :
  data_dict_of "HR:60,STATUS:a:b,HR:72" !! "HR" = Some "72".
Proof.
  apply (data_dict_last_token "HR:60,STATUS:a:b,HR:72" ["HR:60"; "STATUS:a:b"]
           "HR" "72").
  - vm_compute. reflexivity.
  - vm_compute. reflexivity.
Defined.

(** X19.  On every device a program can hold the smoothed values follow
    the buffers at all times: the smoothed heart rate is the truncated
    median of the heart-rate buffer from 3 samples on, the truncated mean
    with 1 or 2 samples, and absent when the buffer is empty; the smoothed
    SpO2 is the truncated mean of the SpO2 buffer from 3 samples on, its
    most recent sample with 1 or 2, and absent when it is empty. *)
Theorem smoothed_follow_buffers d :
  reachable d ->
  smoothed_hr d = hr_policy (hr_smoothing_buffer d)
  /\ smoothed_spo2 d = spo2_policy (spo2_smoothing_buffer d).
Proof.
  intros Hd. destruct (reachable_up_to_date d Hd) as (Uh & Us & _).
  rewrite smoothed_hr_cases in Uh. rewrite smoothed_spo2_cases in Us.
  unfold hr_policy, spo2_policy. rewrite <- !mean_arithmetic. split.
  - destruct (3 <=? length (hr_smoothing_buffer d))%nat; [congruence|].
    destruct (0 <? length (hr_smoothing_buffer d))%nat eqn:H0; [congruence|].
    apply reachable_empty_buffer; [exact Hd | apply length_zero_nil, H0].
  - destruct (3 <=? length (spo2_smoothing_buffer d))%nat; [congruence|].
    destruct (0 <? length (spo2_smoothing_buffer d))%nat eqn:H0; [congruence|].
    apply reachable_empty_spo2_buffer; [exact Hd | apply length_zero_nil, H0].
Qed.

Lemma smoothed_follow_buffers_witness :
  smoothed_spo2 (feed noon ["SPO2:97,SPO2_VALID:1"; "SPO2:99"] fresh) = Some 99.
Proof.
  destruct (smoothed_follow_buffers
              (feed noon ["SPO2:97,SPO2_VALID:1"; "SPO2:99"] fresh)) as [_ H].
  - apply reachable_run, reachable_init.
  - rewrite H. vm_compute. reflexivity.
Defined.

(** X20.  Nothing is ingested after a disconnection or a failed
    connection: on the device [disconnect] leaves, and on the device a
    [connect] that returned [False] leaves when it has a MAC address,
    [receive_data] changes nothing whatever arrives. *)
Theorem no_ingestion_when_down bt d events tick :
  receive_data events tick (snd (disconnect bt d))
  = (O, EmptyString, snd (disconnect bt d))
  /\ (mac_address d <> None -> fst (connect bt d) = Ret false ->
      receive_data events tick (snd (connect bt d))
      = (O, EmptyString, snd (connect bt d))).
Proof.
  unfold receive_data. split.
  - apply receive_loop_disconnected. rewrite disconnect_state. reflexivity.
  - intros Hmac Hfail. apply receive_loop_disconnected.
    rewrite connect_connected. revert Hfail.
    unfold connect, bind, get, try_except, BluetoothSocket_new, sock_connect.
    destruct (mac_address d); [|congruence].
    destruct (new_socket bt); [destruct (connect_ok bt)|];
      cbn; (discriminate || reflexivity).
Qed.

Lemma no_ingestion_when_down_witness :
  receive_data cut_frame still
    (snd (connect (mkBluetooth (Some (Socket 3)) false true) fresh))
  = (O, EmptyString,
     snd (connect (mkBluetooth (Some (Socket 3)) false true) fresh)).
Proof.
  apply (no_ingestion_when_down (mkBluetooth (Some (Socket 3)) false true) fresh).
  - discriminate.
  - vm_compute. reflexivity.
Defined.

(** X21.  The manager the window builds from its three MAC entries: a
    slot gets a device exactly when its entry is not blank; the devices are
    new, carry the stripped entry as MAC address, so [connect_all] tries
    each of them, and have distinct identifiers among 1, 2, 3, so
    [get_all_data] shows each of them. *)
Theorem connect_devices_slots mac_entries :
  let m := connect_devices_manager mac_entries in
  NoDup (map device_id (devices m))
  /\ Forall (fun d => has_mac d = true
                      /\ 1 <= device_id d <= 3
                      /\ mac_address d = Some (Py.strip (mac_entries (device_id d)))
                      /\ d = init (device_id d) (slot_name (device_id d))
                             (mac_address d))
       (devices m)
  /\ (forall i, 1 <= i <= 3 ->
        (i ∈ map device_id (devices m) <-> blank (mac_entries i) = false))
  /\ size (get_all_data m) = length (devices m).
Proof.
  intros m.
  assert (Hm : NoDup (map device_id (devices m))
               /\ Forall (fun d => has_mac d = true
                                   /\ 1 <= device_id d <= 3
                                   /\ mac_address d
                                      = Some (Py.strip (mac_entries (device_id d)))
                                   /\ d = init (device_id d)
                                            (slot_name (device_id d))
                                            (mac_address d))
                    (devices m)
               /\ (forall i, 1 <= i <= 3 ->
                     (i ∈ map device_id (devices m)
                      <-> blank (mac_entries i) = false))).
  { subst m. unfold connect_devices_manager, blank. cbn [fold_left].
    destruct (Py.strip (mac_entries 1)) eqn:E1;
      destruct (Py.strip (mac_entries 2)) eqn:E2;
      destruct (Py.strip (mac_entries 3)) eqn:E3;
      cbn [add_device devices manager_init app map device_id init];
      (split; [|split]);
      try (repeat (apply NoDup_cons_2;
                   [rewrite ?elem_of_cons, ?elem_of_nil; lia|]);
           apply NoDup_nil_2);
      try (repeat (apply Forall_cons_2;
                   [cbn; rewrite ?E1, ?E2, ?E3; repeat split; (reflexivity || lia)|]);
           apply Forall_nil_2);
      intros i Hi; rewrite ?elem_of_cons, ?elem_of_nil;
      assert (Hcases : i = 1 \/ i = 2 \/ i = 3) by lia;
      destruct Hcases as [ -> | [ -> | -> ] ]; rewrite ?E1, ?E2, ?E3;
      split; intros H; try reflexivity; try discriminate; try lia; tauto. }
  destruct Hm as (Hnd & Hall & Hslots).
  split; [exact Hnd|]. split; [exact Hall|]. split; [exact Hslots|].
  clear Hall Hslots. unfold get_all_data. revert Hnd. generalize (devices m).
  induction l as [|x ds IH] using rev_ind; intros Hnd; [reflexivity|].
  rewrite map_app in Hnd. cbn [map] in Hnd.
  apply NoDup_app in Hnd as (Hds & Hx & _).
  rewrite all_data_of_snoc, map_size_insert_None.
  - rewrite (IH Hds), length_app. cbn. lia.
  - apply all_data_of_absent. intros H. apply (Hx _ H). left.
Qed.

Lemma connect_devices_slots_witness :
  2 ∈ map device_id
        (devices (connect_devices_manager
                    (fun i => if Z.eqb i 2 then " AA:BB:CC:DD:EE:FF " else EmptyString))).
Proof.
  destruct (connect_devices_slots
              (fun i => if Z.eqb i 2 then " AA:BB:CC:DD:EE:FF " else EmptyString))
    as (_ & _ & H & _).
  apply (H 2); [lia | vm_compute; reflexivity].
Defined.

(** ** The connection flag, the socket and the ingestion loop *)

Lemma reachable_connected d :
  reachable d -> connected d = true ->
  mac_address d <> None /\ sock d <> None.
Proof.
  induction 1 as [id nm mac|c d Hd IH]; [discriminate|].
  destruct c as [now data_string|bt|bt| |]; cbn [exec].
  - destruct (parse_data_connection now data_string d) as (Ec & Es & Em & _).
    rewrite Ec, Es, Em. exact IH.
  - unfold connect, bind, get, try_except, BluetoothSocket_new, sock_connect.
    destruct (mac_address d) eqn:Em; [|cbn; rewrite Em; exact IH].
    destruct (new_socket bt); [destruct (connect_ok bt)|]; cbn;
      try discriminate.
    intros _. rewrite Em. split; discriminate.
  - rewrite disconnect_state. discriminate.
  - destruct (calculate_smoothed_values_connection d) as (Ec & Es & Em & _).
    rewrite Ec, Es, Em. exact IH.
  - destruct (calculate_metrics_connection d) as (Ec & Es & Em & _).
    rewrite Ec, Es, Em. exact IH.
Qed.

(** What the handler of a Bluetooth error leaves is what a [connect] whose
    socket constructor raises leaves. *)
Lemma transport_error_connect d :
  mac_address d <> None ->
  transport_error d = exec (Connect (mkBluetooth None false false)) d.
Proof.
  intros Hm. cbn [exec].
  unfold connect, bind, get, try_except, BluetoothSocket_new.
  destruct (mac_address d); [reflexivity|congruence].
Qed.

Lemma receive_loop_reachable events tick n buffer d :
  reachable d -> reachable (snd (receive_loop events tick (n, buffer, d))).
Proof.
  revert n buffer d. induction events as [|e events IH]; intros n buffer d Hd.
  - exact Hd.
  - cbn [receive_loop].
    destruct (connected d) eqn:Hc; [|exact Hd].
    destruct (sock d) as [s|]; [|apply IH, Hd].
    destruct e as [text| | |]; try (apply IH, Hd).
    + rewrite process_lines_cut by lia. cbn [snd].
      destruct (parse_lines_run tick n
                  (fst (cut_lines (String.append buffer text))) d) as [cs E].
      destruct (parse_lines tick n
                  (fst (cut_lines (String.append buffer text))) d) as [n' d'] eqn:Ep.
      cbn [fst snd] in *. subst d'. apply IH, reachable_run, Hd.
    + cbn [snd]. rewrite transport_error_connect
        by apply (reachable_connected d Hd Hc).
      apply reachable_exec, Hd.
Qed.

(** X22.  A connected device holds a socket and a MAC address: on every
    device a program can hold, the flag [connected] is true only with a
    socket object stored and a MAC address set, so [receive_data] never
    spins on a missing socket. *)
Theorem connected_has_socket d :
  reachable d -> connected d = true ->
  (exists s, sock d = Some s) /\ (exists mac, mac_address d = Some mac).
Proof.
  intros Hd Hc. destruct (reachable_connected d Hd Hc) as [Hm Hs].
  destruct (sock d) as [s|]; [|congruence].
  destruct (mac_address d) as [mac|]; [|congruence].
  eauto.
Qed.

Lemma connected_has_socket_witness :
  (exists s, sock online = Some s) /\ (exists mac, mac_address online = Some mac).
Proof.
  apply connected_has_socket.
  - exact (reachable_exec (Connect willing) fresh (reachable_init _ _ _)).
  - vm_compute; reflexivity.
Defined.

(** X23.  [receive_data] leaves a device the calls could have left:
    whatever arrives, the device after the loop is one a program can hold
    without it, a Bluetooth error leaving what a [connect] whose socket
    constructor raises leaves.  So what holds on every device a program can
    hold holds during and after ingestion as well. *)
Theorem receive_data_reachable events tick d :
  reachable d -> reachable (snd (receive_data events tick d)).
Proof. intros Hd. apply receive_loop_reachable, Hd. Qed.

Lemma receive_data_reachable_witness :
  reachable (snd (receive_data (cut_frame ++ [RecvBluetoothError]) still online)).
Proof.
  apply receive_data_reachable.
  exact (reachable_exec (Connect willing) fresh (reachable_init _ _ _)).
Defined.

(** ** Frames and entries that hold text outside ASCII *)

(** The unit separator after a number is whitespace for [strip] but not
    for [int]: the frame is refused and nothing is read. *)
Example frame_unit_separator :
  let d' := parse_data noon ("HR:72" ++ String "031" ",SPO2:98") fresh in
  fst d' = Ret false /\ hr (latest_data (snd d')) = None
  /\ spo2 (latest_data (snd d')) = None.
Proof. repeat split; vm_compute; reflexivity. Qed.

(** NEL before the frame is stripped, the no-break space after a number is
    whitespace for [int]: the frame is accepted and its heart rate
    admitted. *)
Example frame_next_line :
  let d' := parse_data noon (String "194" (String "133" "HR:72,HR_VALID:1")) fresh in
  fst d' = Ret true /\ hr (latest_data (snd d')) = Some 72
  /\ hr_history (snd d') = [72].
Proof. repeat split; vm_compute; reflexivity. Qed.

Example frame_no_break_space :
  let d' := parse_data noon ("HR:72" ++ String "194" (String "160" "")) fresh in
  fst d' = Ret true /\ hr (latest_data (snd d')) = Some 72.
Proof. repeat split; vm_compute; reflexivity. Qed.

Example frame_next_line_refused :
  let d' := parse_data noon (String "194" (String "133" "HR:72,SPO2:abc")) fresh in
  fst d' = Ret false /\ hr (latest_data (snd d')) = Some 72.
Proof. repeat split; vm_compute; reflexivity. Qed.

(** A line that holds a no-break space only is blank: the loop skips it. *)
Example blank_line_skipped :
  let text :=
    String.append "HR:72,HR_VALID:1"
      (String LF (String "194" (String "160" (String LF "")))) in
  fst (fst (receive_data [RecvText text] still online)) = 1%nat
  /\ hr_history (snd (receive_data [RecvText text] still online)) = [72].
Proof. split; vm_compute; reflexivity. Qed.

(** An entry that holds a no-break space only gives no device, and the
    no-break spaces around an address are stripped. *)
Example entries_with_no_break_spaces :
  map (fun d => (device_id d, mac_address d))
    (devices
       (connect_devices_manager
          (fun i =>
             if Z.eqb i 1 then String "194" (String "160" "")
             else if Z.eqb i 2 then "x"
             else String "194" (String "160" ("AA:BB" ++ String "194" (String "160" ""))))))
  = [(2, Some "x"); (3, Some "AA:BB")].
Proof. vm_compute; reflexivity. Qed.
